(** * marshmallow.utils: a shallow embedding and its verified properties

    The development follows [src/marshmallow/utils.py]:

    - [Py]       outcomes of Python calls (a value or a raised exception);
    - [Text]     Python [str] as a list of characters, [int()], [ljust],
                 [split] and ["%0wd"];
    - [Regex]    the backtracking matcher behind [re.compile(...).match],
                 and what a pattern means;
    - [Dt]       the parts of the standard [datetime] module the code calls:
                 [timedelta], [timezone], the [datetime]/[time]/[date]
                 constructors with their range checks, and [isoformat];
    - [Iso]      the three patterns, [get_fixed_timezone],
                 [from_iso_datetime], [from_iso_time], [from_iso_date],
                 [isoformat], [timedelta_to_microseconds], and the
                 canonical form of a datetime text;
    - [Store]    the object store, [_Missing] and [missing], [copy] and
                 [deepcopy];
    - [Access]   [get_value] and [pluck] over duck-typed objects;
    - [Path]     [set_value] on dictionaries mutated in place.

    The properties come after the definitions, claim by claim.

    Input text is ASCII (the interface of the module, section 6 of the
    specification): a character is an [ascii] and [\d] is the class
    [0-9]. *)

From Stdlib Require Import String Ascii List ZArith Lia Bool Arith.
Import ListNotations.

Local Open Scope string_scope.
Local Open Scope list_scope.

(* ================================================================== *)
(** ** Outcomes of Python calls *)

Module Py.

(** The exception classes the module raises or catches.  A subclass is
    identified with the class it is caught as. *)
Inductive exn_kind : Type :=
| ValueError | TypeError | KeyError | IndexError | AttributeError
| OtherError.

Record exn : Type := Exn { exn_class : exn_kind; exn_msg : string }.

Inductive outcome (A : Type) : Type :=
| Ok (a : A)
| Raise (e : exn).
Arguments Ok {A} a.
Arguments Raise {A} e.

Definition bind {A B} (m : outcome A) (k : A -> outcome B) : outcome B :=
  match m with
  | Ok a => k a
  | Raise e => Raise e
  end.

(** A computation that raises nothing but exceptions of one class. *)
Definition raises_only {A} (c : exn_kind) (m : outcome A) : Prop :=
  forall e, m = Raise e -> exn_class e = c.

End Py.
Import Py.

Declare Scope py_scope.
Delimit Scope py_scope with py.
Notation "x <- m ;; k" := (Py.bind m (fun x => k))
  (at level 61, m at next level, right associativity) : py_scope.
Local Open Scope py_scope.

(* ================================================================== *)
(** ** Text *)

Module Text.

(** A Python [str]: the sequence of its characters. *)
Definition str : Type := list ascii.

Definition chars (s : string) : str := list_ascii_of_string s.
Definition text (s : str) : string := string_of_list_ascii s.

(** [\d] and [str.isdigit] on ASCII input. *)
Definition is_digit (c : ascii) : bool :=
  (48 <=? nat_of_ascii c)%nat && (nat_of_ascii c <=? 57)%nat.

Definition digit_val (c : ascii) : Z := Z.of_nat (nat_of_ascii c - 48).

Definition digit_char (n : Z) : ascii := ascii_of_nat (48 + Z.to_nat n).

(** Horner evaluation of a run of decimal digits. *)
Definition digits_val (s : str) : Z :=
  fold_left (fun acc c => 10 * acc + digit_val c)%Z s 0%Z.

(** [int(s)] on a capture of the regular expressions: a non-empty run of
    decimal digits.  Any other text is rejected with [ValueError]
    (Python's [int] also accepts a sign, underscores and surrounding
    blanks, which no capture of this module contains). *)
Definition py_int (s : str) : outcome Z :=
  match s with
  | [] => Raise (Exn ValueError "invalid literal for int() with base 10")
  | _ :: _ =>
      if forallb is_digit s then Ok (digits_val s)
      else Raise (Exn ValueError "invalid literal for int() with base 10")
  end.

(** [s.ljust(w, c)]: pad on the right up to width [w]. *)
Definition ljust (w : nat) (c : ascii) (s : str) : str :=
  s ++ repeat c (w - length s).

(** [s.split(sep)] for a one-character separator: every occurrence
    splits, empty pieces are kept. *)
Fixpoint split (sep : ascii) (s : str) : list str :=
  match s with
  | [] => [[]]
  | c :: s' =>
      if Ascii.eqb c sep then [] :: split sep s'
      else match split sep s' with
           | [] => [[c]]
           | p :: ps => (c :: p) :: ps
           end
  end.

(** [c in s]. *)
Definition contains (c : ascii) (s : str) : bool :=
  existsb (Ascii.eqb c) s.

Definition str_eqb (a b : str) : bool := String.eqb (text a) (text b).

(** ["%0wd" % n] for [0 <= n < 10^w], the only use [isoformat] makes of
    it: exactly [w] decimal digits, zero-padded. *)
Fixpoint fmt (w : nat) (n : Z) : str :=
  match w with
  | O => []
  | S w' => fmt w' (n / 10) ++ [digit_char (n mod 10)]
  end.

End Text.
Import Text.

(* ================================================================== *)
(** ** The regular-expression matcher *)

Module Regex.

(** The constructs the three patterns of the module use. *)
Inductive re : Type :=
| Lit (c : ascii)                  (* a literal character *)
| Cls (p : ascii -> bool)          (* a character class: \d, [T ], [+-] *)
| Seq (r1 r2 : re)                 (* concatenation *)
| Alt (r1 r2 : re)                 (* r1|r2, left alternative first *)
| Rep (lo hi : nat) (r : re)       (* greedy r{lo,hi}; r? is r{0,1} *)
| Grp (name : string) (r : re)     (* (?P<name>r) *)
| Eos.                             (* $ *)

(** Captures, most recent first; a name that is absent is a group that
    did not take part in the match ([None] in [groupdict()]). *)
Definition groups : Type := list (string * str).

Fixpoint lookup (name : string) (g : groups) : option str :=
  match g with
  | [] => None
  | (n, v) :: g' => if String.eqb name n then Some v else lookup name g'
  end.

(** The text consumed between two positions, each given by what is left
    of the input. *)
Definition consumed (s s' : str) : str := firstn (length s - length s') s.

Definition cont : Type := str -> groups -> option groups.

(** Backtracking with continuations: [run r s g k] matches [r] at the
    head of [s] and hands what is left, with the captures, to [k]; when
    [k] fails the next alternative is tried, longest repetition first. *)
Fixpoint run (r : re) (s : str) (g : groups) (k : cont) {struct r}
  : option groups :=
  match r with
  | Lit c =>
      match s with
      | c' :: s' => if Ascii.eqb c c' then k s' g else None
      | [] => None
      end
  | Cls p =>
      match s with
      | c' :: s' => if p c' then k s' g else None
      | [] => None
      end
  | Seq r1 r2 => run r1 s g (fun s' g' => run r2 s' g' k)
  | Alt r1 r2 =>
      match run r1 s g k with
      | Some x => Some x
      | None => run r2 s g k
      end
  | Rep lo hi r1 =>
      (fix loop (n lo : nat) (s : str) (g : groups) {struct n}
         : option groups :=
         match n with
         | O => match lo with O => k s g | S _ => None end
         | S n' =>
             match run r1 s g (fun s' g' => loop n' (pred lo) s' g') with
             | Some x => Some x
             | None => match lo with O => k s g | S _ => None end
             end
         end) hi lo s g
  | Grp name r1 =>
      run r1 s g (fun s' g' => k s' ((name, consumed s s') :: g'))
  | Eos =>
      (* end of input, or just before a final newline *)
      match s with
      | [] => k s g
      | [c] => if Ascii.eqb c "010"%char then k s g else None
      | _ :: _ :: _ => None
      end
  end.

(** [pattern.match(value)]: anchored at the start only; the groups of
    the first successful match, [None] when there is none. *)
Definition re_match (r : re) (value : str) : option groups :=
  run r value [] (fun _ g => Some g).

Definition opt (r : re) : re := Rep 0 1 r.

(** Concatenation of a non-empty sequence of pieces. *)
Fixpoint seq (r : re) (rs : list re) : re :=
  match rs with
  | [] => r
  | r' :: rs' => Seq r (seq r' rs')
  end.

Definition digit : re := Cls is_digit.

(** The loop of [Rep] by itself: up to [n] more rounds of [r], of which
    [lo] are still required, then [k]. *)
Section RepLoop.
Variable r : re.
Variable k : cont.

Fixpoint rep_loop (n lo : nat) (s : str) (g : groups) {struct n}
  : option groups :=
  match n with
  | O => match lo with O => k s g | S _ => None end
  | S n' =>
      match run r s g (fun s' g' => rep_loop n' (pred lo) s' g') with
      | Some x => Some x
      | None => match lo with O => k s g | S _ => None end
      end
  end.
End RepLoop.

(** What a pattern means, without the order of the attempts: [den r s g
    s' g'] when [r] can match at the head of [s] leaving [s'], and
    turns the captures [g] into [g']. *)
Definition rel : Type := str -> groups -> str -> groups -> Prop.

Fixpoint iter (Q : rel) (n lo : nat) : rel :=
  fun s g s' g' =>
    (lo = 0 /\ s' = s /\ g' = g)
    \/ match n with
       | O => False
       | S n' =>
           exists s1 g1, Q s g s1 g1 /\ iter Q n' (pred lo) s1 g1 s' g'
       end.

Fixpoint den (r : re) : rel :=
  match r with
  | Lit c => fun s g s' g' => s = c :: s' /\ g' = g
  | Cls p => fun s g s' g' => exists c, p c = true /\ s = c :: s' /\ g' = g
  | Seq a b =>
      fun s g s' g' => exists s1 g1, den a s g s1 g1 /\ den b s1 g1 s' g'
  | Alt a b => fun s g s' g' => den a s g s' g' \/ den b s g s' g'
  | Rep lo hi a => iter (den a) hi lo
  | Grp name a =>
      fun s g s' g' =>
        exists g0, den a s g s' g0 /\ g' = (name, consumed s s') :: g0
  | Eos =>
      fun s g s' g' =>
        s' = s /\ g' = g /\ (s = [] \/ s = ["010"%char])
  end.

(** The longest head of a text made of characters of a class, and what
    follows it. *)
Fixpoint take_while (p : ascii -> bool) (s : str) : str :=
  match s with
  | c :: s' => if p c then c :: take_while p s' else []
  | [] => []
  end.

Fixpoint drop_while (p : ascii -> bool) (s : str) : str :=
  match s with
  | c :: s' => if p c then drop_while p s' else s
  | [] => []
  end.

(** A continuation whose success does not depend on the captures. *)
Definition blind (k : cont) : Prop :=
  forall s g1 g2, k s g1 = None -> k s g2 = None.

(** A continuation that fails on every text that starts with a
    character of the class. *)
Definition rejects (p : ascii -> bool) (k : cont) : Prop :=
  forall c s g, p c = true -> k (c :: s) g = None.

End Regex.
Import Regex.

(* ================================================================== *)
(** ** The standard [datetime] module, as far as the code calls it *)

Module Dt.

Local Open Scope Z_scope.

(** [datetime.timedelta]: normalised days, seconds and microseconds. *)
Record timedelta : Type :=
  { days : Z; seconds : Z; microseconds : Z }.

(** [timedelta(seconds=n)] for an integer [n]: [divmod(n, 86400)]. *)
Definition timedelta_of_seconds (n : Z) : timedelta :=
  {| days := n / 86400; seconds := n mod 86400; microseconds := 0 |}.

(** The exact number of microseconds a [timedelta] stands for. *)
Definition total_us (t : timedelta) : Z :=
  (days t * 86400 + seconds t) * 1000000 + microseconds t.

(** [datetime.timezone]: a fixed offset from UTC. *)
Record timezone : Type := { utcoffset : timedelta }.

(** [timezone.utc]. *)
Definition utc : timezone := {| utcoffset := timedelta_of_seconds 0 |}.

(** [timezone(offset)]: the offset must lie strictly between -24 h and
    24 h. *)
Definition mk_timezone (offset : timedelta) : outcome timezone :=
  if (- 86400000000 <? total_us offset) && (total_us offset <? 86400000000)
  then Ok {| utcoffset := offset |}
  else Raise (Exn ValueError
    "offset must be a timedelta strictly between -timedelta(hours=24) and timedelta(hours=24).").

Record datetime : Type :=
  { year : Z; month : Z; day : Z;
    hour : Z; minute : Z; second : Z; microsecond : Z;
    tzinfo : option timezone }.

Record time : Type :=
  { time_hour : Z; time_minute : Z; time_second : Z;
    time_microsecond : Z }.

Record date : Type :=
  { date_year : Z; date_month : Z; date_day : Z }.

Definition is_leap (y : Z) : bool :=
  (y mod 4 =? 0) && (negb (y mod 100 =? 0) || (y mod 400 =? 0)).

Definition days_in_month (y m : Z) : Z :=
  if m =? 2 then (if is_leap y then 29 else 28)
  else if (m =? 4) || (m =? 6) || (m =? 9) || (m =? 11) then 30
  else 31.

Definition between (lo x hi : Z) : bool := (lo <=? x) && (x <=? hi).

Definition check_date_fields (y m d : Z) : outcome unit :=
  if negb (between 1 y 9999) then
    Raise (Exn ValueError "year must be in 1..9999")
  else if negb (between 1 m 12) then
    Raise (Exn ValueError "month must be in 1..12")
  else if negb (between 1 d (days_in_month y m)) then
    Raise (Exn ValueError "day is out of range for month")
  else Ok tt.

Definition check_time_fields (h mi s us : Z) : outcome unit :=
  if negb (between 0 h 23) then
    Raise (Exn ValueError "hour must be in 0..23")
  else if negb (between 0 mi 59) then
    Raise (Exn ValueError "minute must be in 0..59")
  else if negb (between 0 s 59) then
    Raise (Exn ValueError "second must be in 0..59")
  else if negb (between 0 us 999999) then
    Raise (Exn ValueError "microsecond must be in 0..999999")
  else Ok tt.

(** [datetime(year, month, day, hour, minute, second, microsecond,
    tzinfo)]. *)
Definition mk_datetime (y m d h mi s us : Z) (tz : option timezone)
  : outcome datetime :=
  _ <- check_date_fields y m d ;;
  _ <- check_time_fields h mi s us ;;
  Ok {| year := y; month := m; day := d;
        hour := h; minute := mi; second := s; microsecond := us;
        tzinfo := tz |}.

(** [time(hour, minute, second, microsecond)]. *)
Definition mk_time (h mi s us : Z) : outcome time :=
  _ <- check_time_fields h mi s us ;;
  Ok {| time_hour := h; time_minute := mi; time_second := s;
        time_microsecond := us |}.

(** [date(year, month, day)]. *)
Definition mk_date (y m d : Z) : outcome date :=
  _ <- check_date_fields y m d ;;
  Ok {| date_year := y; date_month := m; date_day := d |}.

(** The offset suffix of [isoformat]: sign, hours and minutes, then
    seconds and microseconds only when they are not zero. *)
Definition format_offset (off : timedelta) : str :=
  let neg := days off <? 0 in
  let a := if neg then - total_us off else total_us off in
  let hh := a / 3600000000 in
  let r := a mod 3600000000 in
  let mm := r / 60000000 in
  let ss := r mod 60000000 in
  chars (if neg then "-" else "+") ++ fmt 2 hh ++ chars ":" ++ fmt 2 mm
  ++ (if ss =? 0 then []
      else chars ":" ++ fmt 2 (ss / 1000000)
           ++ (if ss mod 1000000 =? 0 then []
               else chars "." ++ fmt 6 (ss mod 1000000))).

(** [datetime.isoformat()] with its defaults ([sep='T'],
    [timespec='auto']). *)
Definition datetime_isoformat (d : datetime) : str :=
  fmt 4 (year d) ++ chars "-" ++ fmt 2 (month d) ++ chars "-"
  ++ fmt 2 (day d) ++ chars "T"
  ++ fmt 2 (hour d) ++ chars ":" ++ fmt 2 (minute d) ++ chars ":"
  ++ fmt 2 (second d)
  ++ (if microsecond d =? 0 then []
      else chars "." ++ fmt 6 (microsecond d))
  ++ match tzinfo d with
     | None => []
     | Some tz => format_offset (utcoffset tz)
     end.

(** [tz.utcoffset(dt)] of a [timezone]: its fixed offset, whatever the
    argument, [None] included. *)
Definition timezone_utcoffset (tz : timezone) : option timedelta :=
  Some (utcoffset tz).

End Dt.
Import Dt.

(* ================================================================== *)
(** ** ISO 8601 parsing and formatting *)

Module Iso.

Local Open Scope Z_scope.

Definition T_or_space (c : ascii) : bool :=
  Ascii.eqb c "T" || Ascii.eqb c " ".

Definition plus_or_minus (c : ascii) : bool :=
  Ascii.eqb c "+" || Ascii.eqb c "-".

(** [(?::(?P<second>\d{1,2})(?:\.(?P<microsecond>\d{1,6})\d{0,6})?)?] *)
Definition fraction_re : re :=
  seq (Lit ".") [Grp "microsecond" (Rep 1 6 digit); Rep 0 6 digit].

Definition seconds_re : re :=
  seq (Lit ":") [Grp "second" (Rep 1 2 digit); opt fraction_re].

(** [(?P<hour>\d{1,2}):(?P<minute>\d{1,2})] followed by the optional
    seconds. *)
Definition clock_re : list re :=
  [Grp "hour" (Rep 1 2 digit); Lit ":"; Grp "minute" (Rep 1 2 digit);
   opt seconds_re].

(** [(?P<tzinfo>Z|[+-]\d{2}(?::?\d{2})?)] *)
Definition tzinfo_re : re :=
  Grp "tzinfo"
    (Alt (Lit "Z")
         (seq (Cls plus_or_minus)
              [Rep 2 2 digit;
               opt (seq (opt (Lit ":")) [Rep 2 2 digit])])).

(** [(?P<year>\d{4})-(?P<month>\d{1,2})-(?P<day>\d{1,2})] *)
Definition ymd_re : list re :=
  [Lit "-"; Grp "month" (Rep 1 2 digit); Lit "-";
   Grp "day" (Rep 1 2 digit)].

Definition _iso8601_datetime_re : re :=
  seq (Grp "year" (Rep 4 4 digit))
      (ymd_re ++ [Cls T_or_space] ++ clock_re ++ [opt tzinfo_re; Eos]).

Definition _iso8601_date_re : re :=
  seq (Grp "year" (Rep 4 4 digit)) (ymd_re ++ [Eos]).

(** No [$] at the end of this one. *)
Definition _iso8601_time_re : re :=
  seq (Grp "hour" (Rep 1 2 digit))
      [Lit ":"; Grp "minute" (Rep 1 2 digit); opt seconds_re].

(** [int(groups[name])] for a group that the pattern always sets. *)
Definition group_int (name : string) (g : groups) : outcome Z :=
  match lookup name g with
  | Some s => py_int s
  | None => Raise (Exn TypeError
      "int() argument must be a string, a bytes-like object or a real number, not 'NoneType'")
  end.

(** [int(groups['second']) if groups['second'] else 0] *)
Definition group_second (g : groups) : outcome Z :=
  match lookup "second" g with
  | Some (c :: s) => py_int (c :: s)
  | _ => Ok 0%Z
  end.

(** [int(groups['microsecond'].ljust(6, '0')) if groups['microsecond']
    else 0] *)
Definition group_microsecond (g : groups) : outcome Z :=
  match lookup "microsecond" g with
  | Some (c :: s) => py_int (ljust 6 "0" (c :: s))
  | _ => Ok 0%Z
  end.

(** [get_fixed_timezone(offset)] for an integer number of seconds, the
    only kind of argument [from_iso_datetime] passes. *)
Definition get_fixed_timezone (offset : Z) : outcome timezone :=
  mk_timezone (timedelta_of_seconds offset).

(** The minutes of a designator other than [Z], before the sign is
    applied; [rest] is [tzinfo_str[1:]]. *)
Definition offset_minutes (tzinfo_str rest : str) : outcome Z :=
  if contains ":" tzinfo_str then
    match split ":" rest with
    | [a; b] =>
        hours <- py_int a ;;
        minutes <- py_int b ;;
        Ok (hours * 60 + minutes)%Z
    | _ => Raise (Exn ValueError "wrong number of values to unpack")
    end
  else
    h <- py_int rest ;;
    Ok (h * 60)%Z.

(** The [tzinfo] computed from the [tzinfo] group. *)
Definition parse_tzinfo (g : groups) : outcome (option timezone) :=
  match lookup "tzinfo" g with
  | Some (c0 :: rest) =>
      let tzinfo_str := c0 :: rest in
      if str_eqb tzinfo_str (chars "Z") then Ok (Some utc)
      else
        offset_mins <- offset_minutes tzinfo_str rest ;;
        let offset_mins :=
          if Ascii.eqb c0 "-" then (- offset_mins)%Z else offset_mins in
        tz <- get_fixed_timezone (offset_mins * 60) ;;
        Ok (Some tz)
  | _ => Ok None
  end.

Definition from_iso_datetime (value : string) : outcome datetime :=
  match re_match _iso8601_datetime_re (chars value) with
  | None =>
      Raise (Exn ValueError "Not a valid ISO8601-formatted datetime string")
  | Some g =>
      y <- group_int "year" g ;;
      mo <- group_int "month" g ;;
      d <- group_int "day" g ;;
      h <- group_int "hour" g ;;
      mi <- group_int "minute" g ;;
      s <- group_second g ;;
      us <- group_microsecond g ;;
      tz <- parse_tzinfo g ;;
      mk_datetime y mo d h mi s us tz
  end.

Definition from_iso_time (value : string) : outcome time :=
  match re_match _iso8601_time_re (chars value) with
  | None =>
      Raise (Exn ValueError "Not a valid ISO8601-formatted time string")
  | Some g =>
      h <- group_int "hour" g ;;
      mi <- group_int "minute" g ;;
      s <- group_second g ;;
      us <- group_microsecond g ;;
      mk_time h mi s us
  end.

Definition from_iso_date (value : string) : outcome date :=
  match re_match _iso8601_date_re (chars value) with
  | None =>
      Raise (Exn ValueError "Not a valid ISO8601-formatted date string")
  | Some g =>
      y <- group_int "year" g ;;
      mo <- group_int "month" g ;;
      d <- group_int "day" g ;;
      mk_date y mo d
  end.

Definition isoformat (d : datetime) : string := text (datetime_isoformat d).

(** What the continuation of a datetime pattern is once the clock has
    been read: the optional designator, the end of the text, and the
    captures as the result of the match. *)
Definition tail_k : cont :=
  fun s g => run (Seq (opt tzinfo_re) Eos) s g (fun _ g' => Some g').

(** The texts of a timezone designator: [Z], [+HH], [+HHMM] and
    [+HH:MM], with either sign. *)
Definition two_digits (w : str) : Prop :=
  forallb is_digit w = true /\ length w = 2%nat.

Inductive designator : str -> Prop :=
| des_Z : designator (chars "Z")
| des_hh (c : ascii) (hh : str) :
    plus_or_minus c = true -> two_digits hh -> designator (c :: hh)
| des_hhmm (c : ascii) (hh mm : str) :
    plus_or_minus c = true -> two_digits hh -> two_digits mm ->
    designator (c :: hh ++ mm)
| des_hh_mm (c : ascii) (hh mm : str) :
    plus_or_minus c = true -> two_digits hh -> two_digits mm ->
    designator (c :: hh ++ chars ":" ++ mm).

(** What follows the first occurrence of a character in a text. *)
Fixpoint after_char (x : ascii) (s : str) : option str :=
  match s with
  | [] => None
  | c :: s' => if Ascii.eqb c x then Some s' else after_char x s'
  end.

(** The fractional-second digits of a datetime text: the digits that
    follow its first ['.']; [None] when it has no ['.']. *)
Definition fraction_digits (s : str) : option str :=
  option_map (take_while is_digit) (after_char "." s).

(** Whether a datetime text gives the seconds: the digits after its
    first [':'], the minutes, are followed by another [':']. *)
Definition seconds_given (s : str) : bool :=
  match after_char ":" s with
  | Some t =>
      match drop_while is_digit t with
      | c :: _ => Ascii.eqb c ":"
      | [] => false
      end
  | None => false
  end.

Definition timedelta_to_microseconds (value : timedelta) : Z :=
  (days value * 86400 + seconds value) * 1000000 + microseconds value.

(** *** Canonical form *)

(** A text against a picture: in the picture [d] stands for any digit,
    [+] for either sign, and every other character for itself. *)
Definition fits_char (x c : ascii) : bool :=
  if Ascii.eqb x "d" then is_digit c
  else if Ascii.eqb x "+" then plus_or_minus c
  else Ascii.eqb c x.

Fixpoint fits (picture s : str) : bool :=
  match picture, s with
  | [], [] => true
  | x :: picture', c :: s' => fits_char x c && fits picture' s'
  | _, _ => false
  end.

(** The [n] characters of a text from position [i] on. *)
Definition piece (i n : nat) (s : str) : str := firstn n (skipn i s).

(** The date and the clock written in the first 19 characters exist: the
    constructors of [datetime] would accept them. *)
Definition fields_valid (s : str) : bool :=
  match check_date_fields (digits_val (piece 0 4 s))
          (digits_val (piece 5 2 s)) (digits_val (piece 8 2 s)),
        check_time_fields (digits_val (piece 11 2 s))
          (digits_val (piece 14 2 s)) (digits_val (piece 17 2 s)) 0
  with
  | Ok _, Ok _ => true
  | _, _ => false
  end.

(** An offset [+HH:MM] with hours up to 23 and minutes up to 59. *)
Definition offset_valid (o : str) : bool :=
  (digits_val (piece 1 2 o) <=? 23) && (digits_val (piece 4 2 o) <=? 59).

(** Canonical form in the words of the specification: a fixed offset
    written as [+HH:MM], zero-padded fields, six-digit microseconds. *)
Definition canonical_as_claimed (s : str) : bool :=
  fits (chars "dddd-dd-ddTdd:dd:dd.dddddd+dd:dd") s
  && fields_valid s && offset_valid (skipn 26 s).

(** Canonical form as [isoformat] writes it: [YYYY-MM-DDTHH:MM:SS], then
    no fraction or six digits that are not all zeros, then no offset or
    an offset [+HH:MM] or [-HH:MM] other than [-00:00]. *)
Definition canonical (s : str) : bool :=
  let rest := skipn 19 s in
  let with_fraction :=
    match rest with c :: _ => Ascii.eqb c "." | [] => false end in
  let fraction := if with_fraction then firstn 7 rest else [] in
  let offset := if with_fraction then skipn 7 rest else rest in
  fits (chars "dddd-dd-ddTdd:dd:dd") (firstn 19 s)
  && fields_valid s
  && (negb with_fraction
      || (fits (chars ".dddddd") fraction
          && negb (str_eqb fraction (chars ".000000"))))
  && match offset with
     | [] => true
     | _ :: _ =>
         fits (chars "+dd:dd") offset && offset_valid offset
         && negb (str_eqb offset (chars "-00:00"))
     end.

(** A text put together from its pieces: the digits of the date and of
    the clock, the six digits of the fraction when there is one, and the
    sign, hours and minutes of the offset when there is one. *)
Definition fraction_text (f : option str) : str :=
  match f with Some F => chars "." ++ F | None => [] end.

Definition offset_text (o : option (ascii * str * str)) : str :=
  match o with
  | Some (c, hh, mm) => c :: hh ++ chars ":" ++ mm
  | None => []
  end.

Definition shaped (Y M D h mi S : str) (f : option str)
           (o : option (ascii * str * str)) : str :=
  Y ++ chars "-" ++ M ++ chars "-" ++ D ++ chars "T" ++ h ++ chars ":"
    ++ mi ++ chars ":" ++ S ++ fraction_text f ++ offset_text o.

Definition fraction_ok (f : option str) : Prop :=
  match f with
  | Some F => forallb is_digit F = true /\ length F = 6%nat
  | None => True
  end.

Definition offset_ok (o : option (ascii * str * str)) : Prop :=
  match o with
  | Some (c, hh, mm) =>
      plus_or_minus c = true /\ two_digits hh /\ two_digits mm
  | None => True
  end.

(** The captures of the match of such a text. *)
Definition captures (Y M D h mi S : str) (f : option str)
           (o : option (ascii * str * str)) : groups :=
  match o with
  | Some (c, hh, mm) => [("tzinfo", c :: hh ++ chars ":" ++ mm)]
  | None => []
  end
  ++ match f with Some F => [("microsecond", F)] | None => [] end
  ++ [("second", S); ("minute", mi); ("hour", h); ("day", D); ("month", M);
      ("year", Y)].

(** The minutes east of UTC that an offset stands for. *)
Definition offset_value (c : ascii) (hh mm : str) : Z :=
  if Ascii.eqb c "-" then - (digits_val hh * 60 + digits_val mm)
  else digits_val hh * 60 + digits_val mm.

(** The datetime that such a text stands for. *)
Definition shaped_datetime (Y M D h mi S : str) (f : option str)
           (o : option (ascii * str * str)) : datetime :=
  {| year := digits_val Y; month := digits_val M; day := digits_val D;
     hour := digits_val h; minute := digits_val mi; second := digits_val S;
     microsecond := match f with Some F => digits_val F | None => 0 end;
     tzinfo :=
       match o with
       | Some (c, hh, mm) =>
           Some {| utcoffset :=
                     timedelta_of_seconds (offset_value c hh mm * 60) |}
       | None => None
       end |}.

(** *** [marshmallow/datetime.py] *)

(** [is_aware(dt_obj)]: [dt_obj.tzinfo is not None and
    dt_obj.tzinfo.utcoffset(None) is not None]. *)
Definition is_aware (dt_obj : datetime) : bool :=
  match tzinfo dt_obj with
  | None => false
  | Some tz =>
      match timezone_utcoffset tz with
      | Some _ => true
      | None => false
      end
  end.

(** *** The designator of a datetime text *)

(** What follows the first character of a class. *)
Fixpoint after_class (p : ascii -> bool) (s : str) : option str :=
  match s with
  | [] => None
  | c :: s' => if p c then Some s' else after_class p s'
  end.

(** The characters a clock is written with. *)
Definition clock_char (c : ascii) : bool :=
  is_digit c || Ascii.eqb c ":" || Ascii.eqb c ".".

(** A text without its final newline, when it has one. *)
Definition strip_newline (s : str) : str :=
  match rev s with
  | c :: r => if Ascii.eqb c "010" then rev r else s
  | [] => []
  end.

(** The designator of a datetime text: what is left after the date, the
    separator [T] or blank, and the clock, the final newline apart. *)
Definition designator_text (s : str) : str :=
  match after_class T_or_space s with
  | Some t => strip_newline (drop_while clock_char t)
  | None => []
  end.

(** The datetimes that [isoformat] writes in a form that
    [from_iso_datetime] reads: the fields name a real date and time, and
    the offset, when there is one, is a whole number of minutes within a
    day of UTC. *)
Definition whole_minute_offset (tz : option timezone) : Prop :=
  match tz with
  | None => True
  | Some z =>
      exists m, -1440 < m < 1440
                /\ utcoffset z = timedelta_of_seconds (m * 60)
  end.

Definition valid_datetime (d : datetime) : Prop :=
  check_date_fields (year d) (month d) (day d) = Ok tt
  /\ check_time_fields (hour d) (minute d) (second d) (microsecond d)
     = Ok tt
  /\ whole_minute_offset (tzinfo d).

(** *** The texts the patterns accept *)

(** A run of [lo] to [hi] decimal digits. *)
Definition digit_run (lo hi : nat) (w : str) : Prop :=
  forallb is_digit w = true /\ (lo <= length w <= hi)%nat.

(** The seconds of a clock when they are written, [:SS], with the digits
    of the fraction when there is one, [:SS.f...]. *)
Definition seconds_text (sec : option (str * option str)) : str :=
  match sec with
  | None => []
  | Some (w, None) => chars ":" ++ w
  | Some (w, Some f) => chars ":" ++ w ++ chars "." ++ f
  end.

Definition seconds_ok (sec : option (str * option str)) : Prop :=
  match sec with
  | None => True
  | Some (w, fr) =>
      digit_run 1 2 w
      /\ match fr with
         | None => True
         | Some f => forallb is_digit f = true /\ (1 <= length f)%nat
         end
  end.

Definition second_of (sec : option (str * option str)) : Z :=
  match sec with
  | Some (w, _) => digits_val w
  | None => 0
  end.

(** The first six digits of the fraction, counted in microseconds. *)
Definition microsecond_of (sec : option (str * option str)) : Z :=
  match sec with
  | Some (_, Some f) => digits_val (firstn 6 (ljust 6 "0" f))
  | _ => 0
  end.

(** The text ends here, or with one newline. *)
Definition end_or_newline (e : str) : Prop := e = [] \/ e = ["010"%char].

(** Whether a text starts with a character of a class. *)
Definition starts_with (p : ascii -> bool) (s : str) : bool :=
  match s with
  | c :: _ => p c
  | [] => false
  end.

(** A number with the sign of a designator. *)
Definition signed (c : ascii) (n : Z) : Z :=
  if Ascii.eqb c "-" then - n else n.

(** The pattern lets a fraction have twelve digits at most. *)
Definition fraction_bound (sec : option (str * option str)) : Prop :=
  match sec with
  | Some (_, Some f) => (length f <= 12)%nat
  | _ => True
  end.

(** A designator taken apart: none, [Z], [+HH:MM], [+HH] or [+HHMM],
    with either sign. *)
Inductive zone : Type :=
| NoZone
| Zulu
| ColonOffset (c : ascii) (hh mm : str)
| HourOffset (c : ascii) (hh : str)
| PackedOffset (c : ascii) (hh mm : str).

Definition zone_text (z : zone) : str :=
  match z with
  | NoZone => []
  | Zulu => chars "Z"
  | ColonOffset c hh mm => c :: hh ++ chars ":" ++ mm
  | HourOffset c hh => c :: hh
  | PackedOffset c hh mm => c :: hh ++ mm
  end.

Definition zone_ok (z : zone) : Prop :=
  match z with
  | NoZone | Zulu => True
  | ColonOffset c hh mm | PackedOffset c hh mm =>
      plus_or_minus c = true /\ two_digits hh /\ two_digits mm
  | HourOffset c hh => plus_or_minus c = true /\ two_digits hh
  end.

(** The seconds east of UTC that [from_iso_datetime] computes for a
    designator: the digits of [+HHMM] are read as one number of hours. *)
Definition zone_seconds (z : zone) : option Z :=
  match z with
  | NoZone => None
  | Zulu => Some 0
  | ColonOffset c hh mm =>
      Some (signed c (digits_val hh * 60 + digits_val mm) * 60)
  | HourOffset c hh => Some (signed c (digits_val hh) * 3600)
  | PackedOffset c hh mm =>
      Some (signed c (digits_val hh * 100 + digits_val mm) * 3600)
  end.

(** The timezone for it, or the [ValueError] of [timezone] for an offset
    of a day or more. *)
Definition zone_timezone (z : zone) : outcome (option timezone) :=
  match zone_seconds z with
  | None => Ok None
  | Some n => t <- get_fixed_timezone n ;; Ok (Some t)
  end.

End Iso.
Import Iso.

(* ================================================================== *)
(** ** The object store *)

Module Store.

Definition addr : Type := nat.

(** Python values: immutable atoms, and references to the mutable
    objects of the store. *)
Inductive value : Type :=
| VNone
| VBool (b : bool)
| VInt (z : Z)
| VStr (s : string)
| VFunc (name : string)      (* a function or bound method, by name *)
| VRef (a : addr).

(** The classes of the instances in the store: [_Missing], and any
    other class, which defines none of the special methods below. *)
Inductive class : Type :=
| C_Missing
| C_Plain (name : string).

Definition items : Type := list (string * value).

Inductive object : Type :=
| ODict (d : items)                      (* a [dict] with [str] keys *)
| OList (l : list value)                 (* a [list] *)
| OInst (c : class) (fields : items).    (* an instance and its [__dict__] *)

(** The store: the object at address [a] is the [a]-th allocated. *)
Definition store : Type := list object.

Definition value_eqb (a b : value) : bool :=
  match a, b with
  | VNone, VNone => true
  | VBool x, VBool y => Bool.eqb x y
  | VInt x, VInt y => Z.eqb x y
  | VStr x, VStr y => String.eqb x y
  | VFunc x, VFunc y => String.eqb x y
  | VRef x, VRef y => Nat.eqb x y
  | _, _ => false
  end.

(** [d.get(k)] as an option, [k in d] and [d[k] = v]: a dict keeps its
    keys in insertion order; assigning to a present key replaces the
    value in place. *)
Fixpoint dict_get (k : string) (d : items) : option value :=
  match d with
  | [] => None
  | (k', v) :: d' => if String.eqb k k' then Some v else dict_get k d'
  end.

Fixpoint dict_set (k : string) (v : value) (d : items) : items :=
  match d with
  | [] => [(k, v)]
  | (k', v') :: d' =>
      if String.eqb k k' then (k', v) :: d'
      else (k', v') :: dict_set k v d'
  end.

(** Overwrite the object at an allocated address. *)
Fixpoint store_set (st : store) (a : addr) (o : object) : store :=
  match st, a with
  | [], _ => []
  | _ :: st', O => o :: st'
  | x :: st', S a' => x :: store_set st' a' o
  end.

(** Allocate a new object: it gets the next address. *)
Definition alloc (st : store) (o : object) : store * addr :=
  (st ++ [o], length st).

(** [isinstance(v, dict)] *)
Definition is_dict (st : store) (v : value) : bool :=
  match v with
  | VRef a => match nth_error st a with
              | Some (ODict _) => true
              | _ => false
              end
  | _ => false
  end.

Definition class_of (st : store) (v : value) : option class :=
  match v with
  | VRef a => match nth_error st a with
              | Some (OInst c _) => Some c
              | _ => None
              end
  | _ => None
  end.

Definition class_eqb (a b : class) : bool :=
  match a, b with
  | C_Missing, C_Missing => true
  | C_Plain x, C_Plain y => String.eqb x y
  | _, _ => false
  end.

(** The number of instances of a class that exist in the store. *)
Definition count_instances (c : class) (st : store) : nat :=
  length (filter (fun o => match o with
                           | OInst c' _ => class_eqb c c'
                           | _ => false
                           end) st).

(** *** [_Missing] and [missing] *)

(** [class _Missing]: the methods it defines, on [self]. *)
Definition Missing__bool__ (self : value) : bool := false.
Definition Missing__copy__ (self : value) : value := self.
Definition Missing__deepcopy__ (self : value) (memo : list (addr * addr))
  : value := self.
Definition Missing__repr__ (self : value) : string :=
  "<marshmallow.missing>".

(** The store once the module is imported: [missing = _Missing()] is its
    only allocation. *)
Definition module_store : store := fst (alloc [] (OInst C_Missing [])).
Definition missing : value := VRef (snd (alloc [] (OInst C_Missing []))).

(** A store in which [missing] is still the object the module made. *)
Definition has_missing (st : store) : Prop :=
  class_of st missing = Some C_Missing.

(** [bool(v)]: [__bool__] when the class defines it, the length of a
    container, and [True] for any other instance. *)
Definition truthy (st : store) (v : value) : bool :=
  match v with
  | VNone => false
  | VBool b => b
  | VInt z => negb (Z.eqb z 0)
  | VStr s => negb (String.eqb s "")
  | VFunc _ => true
  | VRef a =>
      match nth_error st a with
      | Some (ODict d) => negb (Nat.eqb (length d) 0)
      | Some (OList l) => negb (Nat.eqb (length l) 0)
      | Some (OInst C_Missing _) => Missing__bool__ v
      | Some (OInst (C_Plain _) _) => true
      | None => true
      end
  end.

(** [a is b] *)
Definition py_is (a b : value) : bool := value_eqb a b.

(** [a == b], with containers compared element by element down to
    [fuel] levels.  No class of the store defines [__eq__]: instances
    are equal only to themselves. *)
Fixpoint py_eq (fuel : nat) (st : store) (a b : value) : bool :=
  match a, b with
  | VRef x, VRef y =>
      if Nat.eqb x y then true
      else
        match fuel with
        | O => false
        | S fuel' =>
            match nth_error st x, nth_error st y with
            | Some (OList l1), Some (OList l2) =>
                Nat.eqb (length l1) (length l2)
                && forallb (fun p => py_eq fuel' st (fst p) (snd p))
                     (combine l1 l2)
            | Some (ODict d1), Some (ODict d2) =>
                Nat.eqb (length d1) (length d2)
                && forallb (fun kv =>
                     match dict_get (fst kv) d2 with
                     | Some v2 => py_eq fuel' st (snd kv) v2
                     | None => false
                     end) d1
            | _, _ => false
            end
        end
  | _, _ => value_eqb a b
  end.

(** [copy.copy(v)]: atoms are returned as they are, [__copy__] is called
    when the class defines it, anything else is rebuilt as a new
    object with the same content. *)
Definition py_copy (st : store) (v : value) : store * value :=
  match v with
  | VRef a =>
      match nth_error st a with
      | Some (OInst C_Missing _) => (st, Missing__copy__ v)
      | Some o => let (st', a') := alloc st o in (st', VRef a')
      | None => (st, v)
      end
  | _ => (st, v)
  end.

(** [copy.deepcopy(v)]: as [copy], with [__deepcopy__] in the place of
    [__copy__] and the content copied in turn, down to [fuel] levels;
    [memo] maps the objects already copied to their copies. *)
Fixpoint deepcopy_at (fuel : nat) (st : store) (memo : list (addr * addr))
         (v : value) {struct fuel}
  : store * list (addr * addr) * value :=
  match v with
  | VRef a =>
      match find (fun p => Nat.eqb (fst p) a) memo with
      | Some p => (st, memo, VRef (snd p))
      | None =>
          match nth_error st a with
          | Some (OInst C_Missing _) =>
              (st, memo, Missing__deepcopy__ v memo)
          | Some o =>
              match fuel with
              | O => (st, memo, v)
              | S fuel' =>
                  let (st1, a') := alloc st o in
                  let memo1 := (a, a') :: memo in
                  let copy_items :=
                    fold_left
                      (fun (acc : store * list (addr * addr) * items)
                           (kv : string * value) =>
                         let '(st2, memo2, out) := acc in
                         let '(st3, memo3, v') :=
                           deepcopy_at fuel' st2 memo2 (snd kv) in
                         (st3, memo3, out ++ [(fst kv, v')])) in
                  match o with
                  | ODict d =>
                      let '(st2, memo2, d') := copy_items d (st1, memo1, []) in
                      (store_set st2 a' (ODict d'), memo2, VRef a')
                  | OList l =>
                      let '(st2, memo2, l') :=
                        copy_items (map (fun x => ("", x)) l)
                                   (st1, memo1, []) in
                      (store_set st2 a' (OList (map snd l')), memo2, VRef a')
                  | OInst c fs =>
                      let '(st2, memo2, fs') := copy_items fs (st1, memo1, []) in
                      (store_set st2 a' (OInst c fs'), memo2, VRef a')
                  end
              end
          | None => (st, memo, v)
          end
      end
  | _ => (st, memo, v)
  end.

Definition py_deepcopy (fuel : nat) (st : store) (v : value)
  : store * value :=
  let '(st', _, v') := deepcopy_at fuel st [] v in (st', v').

End Store.
Import Store.

(* ================================================================== *)
(** ** Duck-typed access: [get_value] *)

Module Access.

(** A key is an integer or a string ([key: int | str]). *)
Inductive key : Type :=
| KInt (i : Z)
| KStr (s : string).

(** What [get_value] can observe of an object: the outcome of the
    attribute lookup [obj.name] and of the subscript [obj[key]]. *)
Record pyobject : Type :=
  { attr : string -> outcome value;
    item : key -> outcome value }.

Definition no_attribute (name : string) : exn :=
  Exn AttributeError ("object has no attribute '" ++ name ++ "'").

(** [hasattr(obj, name)]: only [AttributeError] means "no". *)
Definition hasattr (obj : pyobject) (name : string) : outcome bool :=
  match attr obj name with
  | Ok _ => Ok true
  | Raise e =>
      match exn_class e with
      | AttributeError => Ok false
      | _ => Raise e
      end
  end.

(** [getattr(obj, key, default)]: the name must be a string; only
    [AttributeError] is turned into the default. *)
Definition getattr (obj : pyobject) (k : key) (default : value)
  : outcome value :=
  match k with
  | KInt _ =>
      Raise (Exn TypeError "attribute name must be string, not 'int'")
  | KStr name =>
      match attr obj name with
      | Ok v => Ok v
      | Raise e =>
          match exn_class e with
          | AttributeError => Ok default
          | _ => Raise e
          end
      end
  end.

(** [except (KeyError, IndexError, TypeError, AttributeError)] *)
Definition swallowed (e : exn) : bool :=
  match exn_class e with
  | KeyError | IndexError | TypeError | AttributeError => true
  | _ => false
  end.

(** [get_value(obj, key, default=missing)]; [None] for [default] is the
    call that leaves the argument out. *)
Definition get_value (obj : pyobject) (k : key) (default : option value)
  : outcome value :=
  let default := match default with Some d => d | None => missing end in
  has <- hasattr obj "__getitem__" ;;
  if negb has then getattr obj k default
  else
    match item obj k with
    | Ok v => Ok v
    | Raise e =>
        if swallowed e then getattr obj k default else Raise e
    end.

(** [pluck(dictlist, key)]: [[d[key] for d in dictlist]]. *)
Fixpoint pluck (dictlist : list pyobject) (k : key)
  : outcome (list value) :=
  match dictlist with
  | [] => Ok []
  | d :: ds =>
      v <- item d k ;;
      vs <- pluck ds k ;;
      Ok (v :: vs)
  end.

(** *** The built-in objects the examples use *)

Definition object_attrs : list string :=
  ["__class__"; "__delattr__"; "__dir__"; "__doc__"; "__eq__";
   "__format__"; "__ge__"; "__getattribute__"; "__gt__"; "__hash__";
   "__init__"; "__init_subclass__"; "__le__"; "__lt__"; "__ne__";
   "__new__"; "__reduce__"; "__reduce_ex__"; "__repr__"; "__setattr__";
   "__sizeof__"; "__str__"; "__subclasshook__"].

Definition list_attrs : list string :=
  ["__add__"; "__class_getitem__"; "__contains__"; "__delitem__";
   "__getitem__"; "__iadd__"; "__imul__"; "__iter__"; "__len__";
   "__mul__"; "__reversed__"; "__rmul__"; "__setitem__"; "append";
   "clear"; "copy"; "count"; "extend"; "index"; "insert"; "pop";
   "remove"; "reverse"; "sort"].

Definition dict_attrs : list string :=
  ["__class_getitem__"; "__contains__"; "__delitem__"; "__getitem__";
   "__ior__"; "__iter__"; "__len__"; "__or__"; "__reversed__";
   "__ror__"; "__setitem__"; "clear"; "copy"; "fromkeys"; "get";
   "items"; "keys"; "pop"; "popitem"; "setdefault"; "update"; "values"].

Definition attr_among (names : list string) (name : string)
  : outcome value :=
  if existsb (String.eqb name) names then Ok (VFunc name)
  else Raise (no_attribute name).

(** A [list]: integer subscripts, negative ones counted from the end. *)
Definition py_list (l : list value) : pyobject :=
  {| attr := attr_among (list_attrs ++ object_attrs);
     item := fun k =>
       match k with
       | KInt i =>
           let n := Z.of_nat (length l) in
           let j := if (i <? 0)%Z then (i + n)%Z else i in
           if ((0 <=? j) && (j <? n))%Z then
             match nth_error l (Z.to_nat j) with
             | Some v => Ok v
             | None => Raise (Exn IndexError "list index out of range")
             end
           else Raise (Exn IndexError "list index out of range")
       | KStr _ =>
           Raise (Exn TypeError
                    "list indices must be integers or slices, not str")
       end |}.

(** A [dict] with string keys. *)
Definition py_dict (d : items) : pyobject :=
  {| attr := attr_among (dict_attrs ++ object_attrs);
     item := fun k =>
       match k with
       | KStr name =>
           match dict_get name d with
           | Some v => Ok v
           | None => Raise (Exn KeyError name)
           end
       | KInt _ => Raise (Exn KeyError "")
       end |}.

(** An instance of a class without special methods: its fields are its
    attributes and it has no subscript. *)
Definition py_instance (fields : items) : pyobject :=
  {| attr := fun name =>
       match dict_get name fields with
       | Some v => Ok v
       | None => attr_among ("__dict__" :: "__module__" :: object_attrs) name
       end;
     item := fun _ => Raise (Exn TypeError "object is not subscriptable") |}.

End Access.
Import Access.

(* ================================================================== *)
(** ** Dotted-path assignment: [set_value] *)

Module Path.

(** [key.split('.')] and ['.' in key] on a string key. *)
Definition key_parts (key : string) : list string :=
  map text (split "." (chars key)).

Definition dotted (key : string) : bool := contains "." (chars key).

Definition not_a_dict : exn :=
  Exn TypeError "object does not support item assignment".

Definition conflict (parts : list string) (i : nat) : exn :=
  Exn ValueError
    ("String path conflicts with current dictionary structure at "
     ++ String.concat "." (firstn (S i) parts)).

(** [dct[key] = value] on the dict at address [dct]. *)
Definition setitem (st : store) (dct : addr) (key : string) (v : value)
  : store * outcome unit :=
  match nth_error st dct with
  | Some (ODict d) => (store_set st dct (ODict (dict_set key v d)), Ok tt)
  | _ => (st, Raise not_a_dict)
  end.

(** The loop [for i, part in enumerate(parts[:-1])]: [rest] is what is
    left of [parts[:-1]] from index [i] on, [dct] the address of the
    dict reached so far.  The result is the store as the loop leaves
    it, with the innermost dict or the exception raised. *)
Fixpoint walk (parts : list string) (rest : list string) (i : nat)
         (st : store) (dct : addr) {struct rest}
  : store * outcome addr :=
  match rest with
  | [] => (st, Ok dct)
  | part :: rest' =>
      match nth_error st dct with
      | Some (ODict d) =>
          match dict_get part d with
          | None =>
              (* dct[part] = {} ; dct = dct[part] *)
              let (st1, fresh) := alloc st (ODict []) in
              let st2 :=
                store_set st1 dct (ODict (dict_set part (VRef fresh) d)) in
              walk parts rest' (S i) st2 fresh
          | Some v =>
              if negb (is_dict st v) then (st, Raise (conflict parts i))
              else
                (* dct = dct[part]: a dict is a reference *)
                match v with
                | VRef next => walk parts rest' (S i) st next
                | _ => (st, Raise (conflict parts i))
                end
          end
      | _ => (st, Raise not_a_dict)
      end
  end.

(** [set_value(dct, key, value)]: the store after the call, and [None]
    or the exception raised. *)
Definition set_value (st : store) (dct : addr) (key : string) (v : value)
  : store * outcome unit :=
  if negb (dotted key) then setitem st dct key v
  else
    let parts := key_parts key in
    match walk parts (removelast parts) 0 st dct with
    | (st', Ok inner) => setitem st' inner (last parts "") v
    | (st', Raise e) => (st', Raise e)
    end.

(** Follow [path] from the dict at [dct] through the dicts that are
    there already. *)
Fixpoint descend (st : store) (dct : addr) (path : list string)
  : option addr :=
  match path with
  | [] => Some dct
  | p :: path' =>
      match nth_error st dct with
      | Some (ODict d) =>
          match dict_get p d with
          | Some (VRef a) =>
              if is_dict st (VRef a) then descend st a path' else None
          | _ => None
          end
      | _ => None
      end
  end.

(** The dicts [set_value] creates below a segment that was missing, at
    the addresses from [n] on: one per segment left, the last one
    holding the value. *)
Fixpoint nest (n : addr) (p : string) (more : list string) (v : value)
  : list object :=
  match more with
  | [] => [ODict [(p, v)]]
  | q :: more' => ODict [(p, VRef (S n))] :: nest (S n) q more' v
  end.

(** The loop from the last object of the store, an empty dict: it
    appends one dict per segment, each holding the reference to the
    next, and stops on the last one, which is empty. *)
Fixpoint chain (n : addr) (rest : list string) : list object :=
  match rest with
  | [] => [ODict []]
  | q :: rest' => ODict [(q, VRef (S n))] :: chain (S n) rest'
  end.

(** The content of a value as a tree, for reading a store: references
    are followed down to [fuel] levels. *)
#[local] Set Warnings "-register-all".
Inductive tree : Type :=
| TAtom (v : value)
| TDict (d : list (string * tree))
| TList (l : list tree)
| TInst (c : class) (fields : list (string * tree)).

Fixpoint reify (fuel : nat) (st : store) (v : value) : tree :=
  match v with
  | VRef a =>
      match fuel, nth_error st a with
      | S fuel', Some (ODict d) =>
          TDict (map (fun kv => (fst kv, reify fuel' st (snd kv))) d)
      | S fuel', Some (OList l) => TList (map (reify fuel' st) l)
      | S fuel', Some (OInst c fs) =>
          TInst c (map (fun kv => (fst kv, reify fuel' st (snd kv))) fs)
      | _, _ => TAtom v
      end
  | _ => TAtom v
  end.

(** *** Reading what [set_value] wrote *)

(** What [get_value] sees of the object at an address of the store. *)
Definition object_at (st : store) (a : addr) : pyobject :=
  match nth_error st a with
  | Some (ODict d) => py_dict d
  | Some (OList l) => py_list l
  | Some (OInst C_Missing fs) =>
      {| attr := fun name =>
           match dict_get name fs with
           | Some v => Ok v
           | None =>
               attr_among ("__bool__" :: "__copy__" :: "__deepcopy__"
                             :: "__dict__" :: "__module__" :: object_attrs)
                          name
           end;
         item := fun _ =>
           Raise (Exn TypeError "object is not subscriptable") |}
  | Some (OInst (C_Plain _) fs) => py_instance fs
  | None => py_instance []
  end.

(** [get_value(... get_value(get_value(obj, p1), p2) ..., pn)] from the
    object at [a]: [None] when a value met on the way is not an object of
    the store. *)
Fixpoint get_path (st : store) (a : addr) (path : list string)
  : option (outcome value) :=
  match path with
  | [] => Some (Ok (VRef a))
  | p :: rest =>
      match get_value (object_at st a) (KStr p) None with
      | Raise e => Some (Raise e)
      | Ok v =>
          match rest, v with
          | [], _ => Some (Ok v)
          | _ :: _, VRef b => get_path st b rest
          | _ :: _, _ => None
          end
      end
  end.

(** *** What a step leaves alone *)

(** The frame of a step on the store: the store does not shrink, no
    instance of any class appears or disappears, what is not a dict
    stays as it is, a dict stays a dict, and what is new is a dict. *)
Definition frame (st st' : store) : Prop :=
  length st <= length st'
  /\ (forall c, count_instances c st' = count_instances c st)
  /\ (forall a o, nth_error st a = Some o -> is_dict st (VRef a) = false ->
                  nth_error st' a = Some o)
  /\ (forall a, is_dict st (VRef a) = true -> is_dict st' (VRef a) = true)
  /\ (forall a, length st <= a < length st' ->
                is_dict st' (VRef a) = true).

(** Every dict is still a dict and has the same dotted keys. *)
Definition same_dotted (st st' : store) : Prop :=
  forall a d,
    nth_error st a = Some (ODict d) ->
    exists d', nth_error st' a = Some (ODict d')
               /\ forall k, dotted k = true -> dict_get k d' = dict_get k d.

End Path.
Import Path.

(* ================================================================== *)
(** * Properties *)

(** ** The store and [set_value] *)

Section StoreFacts.

Lemma length_store_set (st : store) (a : addr) (o : object) :
  length (store_set st a o) = length st.
Proof.
  revert a; induction st as [|x st IH]; intros [|a]; simpl; auto.
Qed.

Lemma store_set_same (st : store) (a : addr) (o : object) :
  a < length st -> nth_error (store_set st a o) a = Some o.
Proof.
  revert a; induction st as [|x st IH]; intros [|a] H; simpl in *;
    try lia; auto.
  apply IH; lia.
Qed.

Lemma store_set_other (st : store) (a b : addr) (o : object) :
  a <> b -> nth_error (store_set st a o) b = nth_error st b.
Proof.
  revert a b; induction st as [|x st IH]; intros [|a] [|b] H; simpl;
    auto; try congruence.
Qed.

Lemma store_set_app (st l : store) (a : addr) (o : object) :
  a < length st -> store_set (st ++ l) a o = store_set st a o ++ l.
Proof.
  revert a; induction st as [|x st IH]; intros [|a] H; simpl in *;
    try lia; auto.
  f_equal; apply IH; lia.
Qed.

Lemma store_set_middle (pre post : store) (x o : object) :
  store_set (pre ++ x :: post) (length pre) o = pre ++ o :: post.
Proof.
  induction pre as [|y pre IH]; simpl; congruence.
Qed.

Lemma nth_error_middle (pre post : store) (x : object) :
  nth_error (pre ++ x :: post) (length pre) = Some x.
Proof.
  induction pre as [|y pre IH]; simpl; auto.
Qed.

Lemma nth_error_bound (st : store) (a : addr) (o : object) :
  nth_error st a = Some o -> a < length st.
Proof.
  intros H; apply nth_error_Some; congruence.
Qed.

Lemma dict_set_absent (k : string) (v : value) (d : items) :
  dict_get k d = None -> dict_set k v d = d ++ [(k, v)].
Proof.
  induction d as [|[k' v'] d IH]; simpl; auto.
  destruct (String.eqb k k'); [discriminate|].
  intros H; rewrite IH; auto.
Qed.

Lemma dict_get_set (k : string) (v : value) (d : items) :
  dict_get k (dict_set k v d) = Some v.
Proof.
  induction d as [|[k' v'] d IH]; simpl.
  - now rewrite String.eqb_refl.
  - destruct (String.eqb k k') eqn:E; simpl; rewrite E; auto.
Qed.

End StoreFacts.

Section PathFacts.

Lemma contains_false_split (sep : ascii) (s : str) :
  contains sep s = false -> split sep s = [s].
Proof.
  unfold contains; induction s as [|c s IH]; simpl; auto.
  intros H; apply orb_false_elim in H as [Hc Hs].
  rewrite Ascii.eqb_sym, Hc, (IH Hs); reflexivity.
Qed.

Lemma split_not_nil (sep : ascii) (s : str) : split sep s <> [].
Proof.
  destruct s as [|c s]; simpl; [discriminate|].
  destruct (Ascii.eqb c sep); [discriminate|].
  destruct (split sep s); discriminate.
Qed.

(** A key without a dot is its own single segment. *)
Lemma key_parts_plain (key : string) :
  dotted key = false -> key_parts key = [key].
Proof.
  unfold dotted, key_parts, chars, text; intros H.
  rewrite (contains_false_split _ _ H); simpl.
  now rewrite string_of_list_ascii_of_string.
Qed.

Lemma key_parts_dotted (key : string) (p q : string) (l : list string) :
  key_parts key = p :: q :: l -> dotted key = true.
Proof.
  intros H; destruct (dotted key) eqn:E; auto.
  rewrite (key_parts_plain _ E) in H; discriminate.
Qed.

(** Walking from a dict that was just created empty never raises: every
    segment is missing from it, and from the ones created after it. *)
Lemma walk_fresh_ok (parts rest : list string) :
  forall (i : nat) (st : store) (dct : addr),
    nth_error st dct = Some (ODict []) ->
    exists st' inner,
      walk parts rest i st dct = (st', Ok inner)
      /\ exists d, nth_error st' inner = Some (ODict d).
Proof.
  induction rest as [|part rest IH]; intros i st dct H; simpl.
  - eauto.
  - rewrite H; simpl.
    apply IH.
    rewrite store_set_other.
    + rewrite nth_error_app2 by lia. now rewrite Nat.sub_diag.
    + apply nth_error_bound in H; lia.
Qed.

(** The loop changes the store only by creating dicts, and once it has
    created one it cannot raise: when it raises, the store is as it
    was. *)
Lemma walk_raise_unchanged (parts rest : list string) :
  forall (i : nat) (st : store) (dct : addr) (st' : store) (e : exn),
    walk parts rest i st dct = (st', Raise e) -> st' = st.
Proof.
  induction rest as [|part rest IH]; intros i st dct st' e; simpl.
  - discriminate.
  - destruct (nth_error st dct) as [[d|l|c fs]|] eqn:Hd;
      try (intros H; now inversion H).
    destruct (dict_get part d) as [v|] eqn:Hg.
    + destruct (is_dict st v) eqn:Hv; simpl.
      * destruct v; try (intros H; now inversion H).
        apply IH.
      * intros H; now inversion H.
    + intros H.
      destruct (walk_fresh_ok parts rest (S i)
                  (store_set (st ++ [ODict []]) dct
                     (ODict (dict_set part (VRef (length st)) d)))
                  (length st)) as (st1 & inner & Hw & _).
      * rewrite store_set_other.
        -- rewrite nth_error_app2 by lia. now rewrite Nat.sub_diag.
        -- apply nth_error_bound in Hd; lia.
      * rewrite Hw in H; discriminate.
Qed.

(** When the loop ends normally it stands on a dict. *)
Lemma walk_ok_dict (parts rest : list string) :
  forall (i : nat) (st : store) (dct : addr) (st' : store) (inner : addr),
    (exists d, nth_error st dct = Some (ODict d)) ->
    walk parts rest i st dct = (st', Ok inner) ->
    exists d, nth_error st' inner = Some (ODict d).
Proof.
  induction rest as [|part rest IH]; intros i st dct st' inner [d Hd]; simpl.
  - intros H; inversion H; subst; eauto.
  - rewrite Hd.
    destruct (dict_get part d) as [v|] eqn:Hg.
    + destruct (is_dict st v) eqn:Hv; simpl; [|discriminate].
      destruct v; try discriminate.
      apply IH. unfold is_dict in Hv.
      destruct (nth_error st a) as [[d'|?|? ?]|]; try discriminate; eauto.
    + apply IH.
      exists []. rewrite store_set_other.
      * rewrite nth_error_app2 by lia. now rewrite Nat.sub_diag.
      * apply nth_error_bound in Hd; lia.
Qed.

Lemma walk_fresh_chain (parts rest : list string) :
  forall (i : nat) (pre : store),
    walk parts rest i (pre ++ [ODict []]) (length pre)
    = (pre ++ chain (length pre) rest, Ok (length pre + length rest)).
Proof.
  induction rest as [|q rest IH]; intros i pre; simpl.
  - now rewrite Nat.add_0_r.
  - rewrite nth_error_middle; simpl.
    rewrite <- app_assoc; simpl.
    rewrite store_set_middle.
    rewrite length_app; simpl.
    replace (length pre + 1) with (S (length pre)) by lia.
    specialize (IH (S i) (pre ++ [ODict [(q, VRef (S (length pre)))]])).
    rewrite length_app in IH; simpl in IH.
    replace (length pre + 1) with (S (length pre)) in IH by lia.
    rewrite <- !app_assoc in IH; simpl in IH.
    rewrite IH. f_equal. f_equal. lia.
Qed.

Lemma chain_length (n : addr) (rest : list string) :
  length (chain n rest) = S (length rest).
Proof.
  revert n; induction rest as [|q rest IH]; intros n; simpl; auto.
Qed.

(** Filling the last dict of a chain gives the nest. *)
Lemma chain_fill (v : value) (more : list string) :
  forall (n : addr) (p : string) (pre : store),
    length pre = n ->
    store_set (pre ++ chain n (removelast (p :: more)))
              (n + length (removelast (p :: more)))
              (ODict [(last (p :: more) "", v)])
    = pre ++ nest n p more v.
Proof.
  induction more as [|q more IH]; intros n p pre Hn.
  - cbn [removelast chain last nest length]. rewrite Nat.add_0_r, <- Hn.
    apply store_set_middle.
  - assert (R : removelast (p :: q :: more) = p :: removelast (q :: more))
      by reflexivity.
    assert (L : last (p :: q :: more) "" = last (q :: more) "")
      by reflexivity.
    rewrite R, L. cbn [chain nest length].
    specialize (IH (S n) q (pre ++ [ODict [(p, VRef (S n))]])).
    rewrite <- !app_assoc in IH. cbn [app] in IH.
    replace (n + S (length (removelast (q :: more))))
      with (S n + length (removelast (q :: more))) by lia.
    apply IH. rewrite length_app; simpl; lia.
Qed.

Lemma chain_last (rest : list string) :
  forall (n : addr) (pre : store),
    nth_error (pre ++ chain n rest) (length pre + length rest)
    = Some (ODict []).
Proof.
  induction rest as [|q rest IH]; intros n pre.
  - simpl. rewrite Nat.add_0_r. apply nth_error_middle.
  - cbn [chain length].
    specialize (IH (S n) (pre ++ [ODict [(q, VRef (S n))]])).
    rewrite <- app_assoc, length_app in IH. cbn [app length] in IH.
    rewrite <- IH. f_equal. lia.
Qed.

Lemma walk_ok_cases (parts rest : list string) (i : nat) (st : store)
      (dct : addr) (st' : store) (inner : addr) :
  walk parts rest i st dct = (st', Ok inner) ->
  (exists d, nth_error st' inner = Some (ODict d)) \/ st' = st.
Proof.
  destruct rest as [|part rest].
  - simpl; intros H; inversion H; auto.
  - intros H; left.
    destruct (nth_error st dct) as [[d|l|c fs]|] eqn:Hd;
      try (simpl in H; rewrite Hd in H; discriminate).
    eapply walk_ok_dict; eauto.
Qed.

Lemma walk_conflict (parts post : list string) (p : string) (x : value)
      (st : store) (a : addr) (d : items) :
  nth_error st a = Some (ODict d) ->
  dict_get p d = Some x ->
  is_dict st x = false ->
  forall (pre : list string) (i : nat) (dct : addr),
    descend st dct pre = Some a ->
    walk parts (pre ++ p :: post) i st dct
    = (st, Raise (conflict parts (i + length pre))).
Proof.
  intros Ha Hp Hx; induction pre as [|p0 pre IH]; intros i dct;
    cbn [descend walk app length].
  - intros H; inversion H; subst.
    rewrite Ha, Hp, Hx; simpl. now rewrite Nat.add_0_r.
  - destruct (nth_error st dct) as [[d0|?|? ?]|]; try discriminate.
    destruct (dict_get p0 d0) as [[| | | | |a0]|]; try discriminate.
    destruct (is_dict st (VRef a0)) eqn:E; try discriminate.
    intros H. cbn [negb]. rewrite (IH (S i) a0 H). do 3 f_equal. lia.
Qed.

Lemma key_parts_long (key : string) :
  2 <= length (key_parts key) -> dotted key = true.
Proof.
  intros H; destruct (dotted key) eqn:E; auto.
  rewrite (key_parts_plain _ E) in H; simpl in H; lia.
Qed.

End PathFacts.

(** C5.  On a dict, a key without a dot is assigned directly; a dotted key
    whose first segment is missing from the dict (so that every segment of
    the path is) gets one new dict per intermediate segment, each created
    empty and holding only the reference to the next, and the value under
    the last segment of the innermost one.  [set_value({}, "a.b.c", 1)]
    leaves [{"a": {"b": {"c": 1}}}]. *)
Theorem set_value_builds_nested_dicts
        (st : store) (dct : addr) (d : items) (key : string) (v : value) :
  nth_error st dct = Some (ODict d) ->
  (dotted key = false ->
   set_value st dct key v
   = (store_set st dct (ODict (dict_set key v d)), Ok tt))
  /\ (forall (p q : string) (more : list string),
         key_parts key = p :: q :: more ->
         dict_get p d = None ->
         set_value st dct key v
         = (store_set st dct (ODict (d ++ [(p, VRef (length st))]))
              ++ nest (length st) q more v,
            Ok tt))
  /\ (let (st1, r) := set_value [ODict []] 0 "a.b.c" (VInt 1) in
      r = Ok tt
      /\ reify 3 st1 (VRef 0)
         = TDict [("a", TDict [("b", TDict [("c", TAtom (VInt 1))])])]).
Proof.
  intros Hd; split; [|split].
  - intros Hk. unfold set_value, setitem. now rewrite Hk, Hd.
  - intros p q more Hparts Hp.
    unfold set_value.
    rewrite key_parts_long by (rewrite Hparts; simpl; lia).
    cbn [negb]. rewrite Hparts.
    assert (R : removelast (p :: q :: more) = p :: removelast (q :: more))
      by reflexivity.
    rewrite R. cbn [walk]. rewrite Hd, Hp. cbn [alloc].
    pose proof (nth_error_bound _ _ _ Hd) as Hlt.
    rewrite store_set_app by assumption.
    rewrite (dict_set_absent _ _ _ Hp).
    set (pre := store_set st dct (ODict (d ++ [(p, VRef (length st))]))).
    assert (Hlen : length pre = length st) by apply length_store_set.
    rewrite <- Hlen.
    rewrite walk_fresh_chain.
    unfold setitem. rewrite chain_last. cbn [dict_set].
    assert (L : last (p :: q :: more) "" = last (q :: more) "")
      by reflexivity.
    rewrite L. now rewrite chain_fill.
  - vm_compute. auto.
Qed.

(** The theorem at [set_value({}, "a.b.c", 1)]. *)
Lemma set_value_builds_nested_dicts_witness :
  set_value [ODict []] 0 "a.b.c" (VInt 1)
  = ([ODict [("a", VRef 1)]; ODict [("b", VRef 2)]; ODict [("c", VInt 1)]],
     Ok tt).
Proof.
  assert (H : nth_error [ODict []] 0 = Some (ODict [])) by reflexivity.
  destruct (set_value_builds_nested_dicts [ODict []] 0 [] "a.b.c" (VInt 1) H)
    as (_ & H2 & _).
  exact (H2 "a" "b" ["c"] eq_refl eq_refl).
Defined.

(** C6.  When the walk over the non-final segments of a dotted key meets,
    after the dicts it could go through, a segment that is present but is
    not a dict, [set_value] raises [ValueError] and its message ends with
    exactly the segments up to that one, joined by dots; the store is as
    before.  [set_value({"a": 1}, "a.b", 2)] fails in this way. *)
Theorem set_value_conflict_names_prefix
        (st : store) (dct : addr) (key : string) (v : value)
        (pre post : list string) (p : string)
        (a : addr) (d : items) (x : value) :
  key_parts key = pre ++ p :: post ->
  post <> [] ->
  descend st dct pre = Some a ->
  nth_error st a = Some (ODict d) ->
  dict_get p d = Some x ->
  is_dict st x = false ->
  set_value st dct key v
  = (st, Raise (Exn ValueError
       ("String path conflicts with current dictionary structure at "
        ++ String.concat "." (pre ++ [p]))))
  /\ set_value [ODict [("a", VInt 1)]] 0 "a.b" (VInt 2)
     = ([ODict [("a", VInt 1)]],
        Raise (Exn ValueError
          "String path conflicts with current dictionary structure at a")).
Proof.
  intros Hparts Hpost Hdesc Ha Hp Hx; split; [|reflexivity].
  unfold set_value.
  rewrite key_parts_long.
  2:{ rewrite Hparts, length_app. destruct post; [congruence|simpl; lia]. }
  cbn [negb]. rewrite Hparts.
  rewrite removelast_app by discriminate.
  assert (R : removelast (p :: post) = p :: removelast post)
    by (destruct post; [congruence|reflexivity]).
  rewrite R.
  rewrite (walk_conflict _ _ _ _ _ _ _ Ha Hp Hx pre 0 dct Hdesc).
  unfold conflict. cbn [Nat.add].
  replace (S (length pre)) with (length pre + 1) by lia.
  rewrite firstn_app_2. reflexivity.
Qed.

(** The theorem at [set_value({"a": {"b": 1}}, "a.b.c", 2)]. *)
Lemma set_value_conflict_names_prefix_witness :
  set_value [ODict [("a", VRef 1)]; ODict [("b", VInt 1)]] 0 "a.b.c" (VInt 2)
  = ([ODict [("a", VRef 1)]; ODict [("b", VInt 1)]],
     Raise (Exn ValueError
       "String path conflicts with current dictionary structure at a.b")).
Proof.
  refine (proj1 (set_value_conflict_names_prefix
            [ODict [("a", VRef 1)]; ODict [("b", VInt 1)]] 0 "a.b.c" (VInt 2)
            ["a"] ["c"] "b" 1 [("b", VInt 1)] (VInt 1)
            eq_refl _ eq_refl eq_refl eq_refl eq_refl)).
  discriminate.
Defined.

(** C10.  Whenever [set_value] raises, the store is exactly as it was
    before the call: a conflict is found only while the walk is still
    reading dicts that were there, since the dicts it creates are empty
    and nothing can conflict below them. *)
Theorem set_value_raise_leaves_store
        (st : store) (dct : addr) (key : string) (v : value)
        (st' : store) (e : exn) :
  set_value st dct key v = (st', Raise e) -> st' = st.
Proof.
  unfold set_value.
  destruct (dotted key); cbn [negb].
  - destruct (walk (key_parts key) (removelast (key_parts key)) 0 st dct)
      as [st1 [inner|e1]] eqn:Hw.
    + destruct (walk_ok_cases _ _ _ _ _ _ _ Hw) as [[d Hd]| ->].
      * unfold setitem; rewrite Hd; discriminate.
      * unfold setitem.
        destruct (nth_error st inner) as [[d|?|? ?]|]; try discriminate;
          intros H; now inversion H.
    + intros H; inversion H; subst.
      eapply walk_raise_unchanged; eauto.
  - unfold setitem.
    destruct (nth_error st dct) as [[d|?|? ?]|]; try discriminate;
      intros H; now inversion H.
Qed.

(** The theorem at [set_value({"a": 1}, "a.b", 2)]. *)
Lemma set_value_raise_leaves_store_witness :
  fst (set_value [ODict [("a", VInt 1)]] 0 "a.b" (VInt 2))
  = [ODict [("a", VInt 1)]].
Proof.
  exact (set_value_raise_leaves_store
           [ODict [("a", VInt 1)]] 0 "a.b" (VInt 2) _ _ eq_refl).
Defined.

(** ** [get_value] *)

(** A list index out of range: the subscript fails with [IndexError], one
    of the four swallowed classes, and the fall-back [getattr] then raises
    [TypeError], because an attribute name must be a string.  The claim C3
    promised the default for every key, integer keys included. *)
Lemma get_value_integer_key_raises :
  item (py_list [VInt 1; VInt 2; VInt 3]) (KInt 10)
  = Raise (Exn IndexError "list index out of range")
  /\ swallowed (Exn IndexError "list index out of range") = true
  /\ get_value (py_list [VInt 1; VInt 2; VInt 3]) (KInt 10) None
     = Raise (Exn TypeError "attribute name must be string, not 'int'")
  /\ get_value (py_list [VInt 1; VInt 2; VInt 3]) (KInt 10) None
     <> Ok missing.
Proof.
  split; [reflexivity|]. split; [reflexivity|]. split; [reflexivity|].
  discriminate.
Qed.

(** C3, amended to string keys.  For every object, every string key and
    every default: when the lookups fail only in the ways that mean
    "missing" (the probe for [__getitem__] and the attribute lookup with
    [AttributeError], the subscript with one of the four swallowed
    classes), [get_value] does not raise.  It returns the subscript's value
    when the object is subscriptable and the subscript succeeds, otherwise
    the attribute's value when there is one, otherwise the default, which
    is [missing] when the caller gave none. *)
Theorem get_value_string_key_total
        (obj : pyobject) (name : string) (default : option value) :
  (forall e, attr obj "__getitem__" = Raise e ->
             exn_class e = AttributeError) ->
  (forall e, item obj (KStr name) = Raise e -> swallowed e = true) ->
  (forall e, attr obj name = Raise e -> exn_class e = AttributeError) ->
  get_value obj (KStr name) default
  = Ok (match hasattr obj "__getitem__", item obj (KStr name),
              attr obj name with
        | Ok true, Ok v, _ => v
        | _, _, Ok v => v
        | _, _, Raise _ =>
            match default with Some d => d | None => missing end
        end).
Proof.
  intros Hprobe Hitem Hattr.
  unfold get_value, hasattr, getattr.
  destruct (attr obj "__getitem__") as [g|e] eqn:Eg; cbn [bind negb].
  - destruct (item obj (KStr name)) as [v|e] eqn:Ei; auto.
    rewrite (Hitem e eq_refl).
    destruct (attr obj name) as [w|e'] eqn:Ea; auto.
    now rewrite (Hattr e' eq_refl).
  - rewrite (Hprobe e eq_refl); cbn [bind negb].
    destruct (attr obj name) as [w|e'] eqn:Ea.
    + now destruct (item obj (KStr name)).
    + rewrite (Hattr e' eq_refl). now destruct (item obj (KStr name)).
Qed.

(** The theorem at [get_value({"x": 1}, "y")]: the result is [missing]. *)
Lemma get_value_string_key_total_witness :
  get_value (py_dict [("x", VInt 1)]) (KStr "y") None = Ok missing.
Proof.
  refine (get_value_string_key_total
            (py_dict [("x", VInt 1)]) "y" None _ _ _).
  - intros e H; vm_compute in H; discriminate.
  - intros e H; vm_compute in H; inversion H; reflexivity.
  - intros e H; vm_compute in H; inversion H; reflexivity.
Defined.

(** The examples of the specification. *)
Lemma get_value_examples :
  get_value (py_list [VInt 1; VInt 2; VInt 3]) (KInt 1) None = Ok (VInt 2)
  /\ get_value (py_dict [("x", VInt 1)]) (KStr "y") (Some missing)
     = Ok missing
  /\ get_value (py_instance [("x", VInt 1)]) (KStr "x") None = Ok (VInt 1)
  /\ pluck [py_dict [("id", VInt 1)]; py_dict [("id", VInt 2)]] (KStr "id")
     = Ok [VInt 1; VInt 2].
Proof.
  repeat split.
Qed.

(** ** [timedelta_to_microseconds] *)

(** C8.  The result is the integer
    [(days * 86400 + seconds) * 1000000 + microseconds], computed on
    unbounded integers; for one day, two seconds and three microseconds it
    is [86400 * 1000000 + 2 * 1000000 + 3]. *)
Theorem timedelta_to_microseconds_exact (d s us : Z) :
  timedelta_to_microseconds {| days := d; seconds := s; microseconds := us |}
  = ((d * 86400 + s) * 1000000 + us)%Z
  /\ timedelta_to_microseconds {| days := 1; seconds := 2; microseconds := 3 |}
     = (86400 * 1000000 + 2 * 1000000 + 3)%Z.
Proof.
  split; reflexivity.
Qed.

(** Nothing is lost: two normalised durations with the same number of
    microseconds are the same duration. *)
Lemma timedelta_to_microseconds_inj (a b : timedelta) :
  (0 <= seconds a < 86400)%Z -> (0 <= microseconds a < 1000000)%Z ->
  (0 <= seconds b < 86400)%Z -> (0 <= microseconds b < 1000000)%Z ->
  timedelta_to_microseconds a = timedelta_to_microseconds b -> a = b.
Proof.
  destruct a as [d1 s1 u1], b as [d2 s2 u2];
    unfold timedelta_to_microseconds; cbn [days seconds microseconds].
  intros; f_equal; lia.
Qed.

(** ** The [missing] sentinel *)

Lemma has_missing_inv (st : store) :
  has_missing st -> exists fs, nth_error st 0 = Some (OInst C_Missing fs).
Proof.
  unfold has_missing, class_of, missing; cbn [alloc snd length].
  destruct (nth_error st 0) as [[?|?|c fs]|]; try discriminate.
  intros H; inversion H; subst; eauto.
Qed.

(** C9.  Importing the module creates exactly one instance of [_Missing],
    the value [missing]; it is not [None].  In every store that still
    holds it, [missing] is falsy, it is equal to a value exactly when that
    value is [missing] itself, and [copy.copy] and [copy.deepcopy] return
    the same reference and allocate nothing, so that the instance stays
    the only one. *)
Theorem missing_is_a_falsy_singleton (st : store) (fuel : nat) (v : value) :
  has_missing st ->
  count_instances C_Missing module_store = 1
  /\ class_of module_store missing = Some C_Missing
  /\ py_is missing VNone = false
  /\ truthy st missing = false
  /\ py_eq fuel st missing v = py_is missing v
  /\ py_eq fuel st v missing = py_is v missing
  /\ py_copy st missing = (st, missing)
  /\ py_deepcopy fuel st missing = (st, missing).
Proof.
  intros H; destruct (has_missing_inv st H) as [fs Hfs].
  repeat split.
  - unfold truthy, missing; cbn [alloc snd length]. now rewrite Hfs.
  - unfold missing; cbn [alloc snd length].
    destruct v as [| | | | |y]; try (destruct fuel; reflexivity).
    destruct fuel; cbn [py_eq py_is value_eqb];
      destruct (Nat.eqb 0 y) eqn:E; auto.
    now rewrite Hfs.
  - unfold missing; cbn [alloc snd length].
    destruct v as [| | | | |x]; try (destruct fuel; reflexivity).
    destruct fuel; cbn [py_eq py_is value_eqb];
      destruct (Nat.eqb x 0) eqn:E; auto.
    destruct (nth_error st x) as [[?|?|? ?]|]; auto; now rewrite Hfs.
  - unfold py_copy, missing; cbn [alloc snd length]. now rewrite Hfs.
  - unfold py_deepcopy, missing; cbn [alloc snd length].
    destruct fuel; cbn [deepcopy_at find]; now rewrite Hfs.
Qed.

(** The theorem in the store of the freshly imported module. *)
Lemma missing_is_a_falsy_singleton_witness :
  truthy module_store missing = false
  /\ py_copy module_store missing = (module_store, missing)
  /\ py_deepcopy 8 module_store missing = (module_store, missing).
Proof.
  destruct (missing_is_a_falsy_singleton module_store 8 VNone eq_refl)
    as (_ & _ & _ & Ht & _ & _ & Hc & Hd).
  exact (conj Ht (conj Hc Hd)).
Defined.

(** By contrast, copying an ordinary instance allocates a new object. *)
Lemma copy_of_plain_instance_is_new :
  let st := module_store ++ [OInst (C_Plain "Point") [("x", VInt 1)]] in
  py_copy st (VRef 1) = (st ++ [OInst (C_Plain "Point") [("x", VInt 1)]],
                         VRef 2).
Proof.
  reflexivity.
Qed.

(** ** Parsing ISO 8601 text *)

Section IsoExamples.

Local Open Scope Z_scope.

(** C1, at the designator [+HHMM].  The pattern accepts [+0010], and the
    branch for a designator without a colon reads all four digits as
    hours: the offset is 10 hours (36000 s), not the 10 minutes (600 s)
    of [sign * (HH * 60 + MM)] minutes.  With [+0530] the same reading
    gives 530 hours, which [timezone] refuses.  The forms [+HH:MM],
    [+HH], [Z] and no designator give what the claim says. *)
Theorem from_iso_datetime_reads_hhmm_as_hours :
  from_iso_datetime "2024-01-15T10:30:00+0010"
  = Ok {| year := 2024; month := 1; day := 15;
          hour := 10; minute := 30; second := 0; microsecond := 0;
          tzinfo := Some {| utcoffset := timedelta_of_seconds 36000 |} |}
  /\ timedelta_of_seconds 36000 <> timedelta_of_seconds ((0 * 60 + 10) * 60)
  /\ from_iso_datetime "2024-01-15T10:30:00+0530"
     = Raise (Exn ValueError
         "offset must be a timedelta strictly between -timedelta(hours=24) and timedelta(hours=24).")
  /\ from_iso_datetime "2024-01-15T10:30:00+00:10"
     = Ok {| year := 2024; month := 1; day := 15;
             hour := 10; minute := 30; second := 0; microsecond := 0;
             tzinfo := Some {| utcoffset := timedelta_of_seconds 600 |} |}
  /\ from_iso_datetime "2024-01-15T10:30:00-05"
     = Ok {| year := 2024; month := 1; day := 15;
             hour := 10; minute := 30; second := 0; microsecond := 0;
             tzinfo := Some {| utcoffset := timedelta_of_seconds (-18000) |} |}
  /\ from_iso_datetime "2024-01-15T10:30:00Z"
     = Ok {| year := 2024; month := 1; day := 15;
             hour := 10; minute := 30; second := 0; microsecond := 0;
             tzinfo := Some utc |}
  /\ from_iso_datetime "2024-01-15T10:30:00"
     = Ok {| year := 2024; month := 1; day := 15;
             hour := 10; minute := 30; second := 0; microsecond := 0;
             tzinfo := None |}.
Proof.
  repeat split; try reflexivity. discriminate.
Qed.

(** C2, at a trailing designator.  [_iso8601_time_re] has no [$] and
    [match] anchors the start only: what follows the time is ignored,
    and [from_iso_time] returns a time where the claim wants
    [ValueError]. *)
Theorem from_iso_time_ignores_trailing_text :
  from_iso_time "10:30:00Z"
  = Ok {| time_hour := 10; time_minute := 30; time_second := 0;
          time_microsecond := 0 |}
  /\ from_iso_time "10:30:00+05:30"
     = Ok {| time_hour := 10; time_minute := 30; time_second := 0;
             time_microsecond := 0 |}
  /\ from_iso_time "10:30 and then some"
     = Ok {| time_hour := 10; time_minute := 30; time_second := 0;
             time_microsecond := 0 |}
  /\ from_iso_datetime "2024-01-15T10:30:00 and then some"
     = Raise (Exn ValueError
                "Not a valid ISO8601-formatted datetime string")
  /\ from_iso_date "2024-01-15Z"
     = Raise (Exn ValueError "Not a valid ISO8601-formatted date string").
Proof.
  repeat split; reflexivity.
Qed.

End IsoExamples.

(** ** The matcher *)

Section RegexFacts.

Lemma run_rep (lo hi : nat) (r : re) (s : str) (g : groups) (k : cont) :
  run (Rep lo hi r) s g k = rep_loop r k hi lo s g.
Proof. reflexivity. Qed.

Lemma run_seq (a b : re) (s : str) (g : groups) (k : cont) :
  run (Seq a b) s g k = run a s g (fun s' g' => run b s' g' k).
Proof. reflexivity. Qed.

Lemma run_grp (name : string) (a : re) (s : str) (g : groups) (k : cont) :
  run (Grp name a) s g k
  = run a s g (fun s' g' => k s' ((name, consumed s s') :: g')).
Proof. reflexivity. Qed.

Lemma rep_loop_sound (r : re) (k : cont) :
  (forall s g k res,
      run r s g k = Some res ->
      exists s' g', den r s g s' g' /\ k s' g' = Some res) ->
  forall n lo s g res,
    rep_loop r k n lo s g = Some res ->
    exists s' g', iter (den r) n lo s g s' g' /\ k s' g' = Some res.
Proof.
  intros Hr; induction n as [|n IH]; intros lo s g res; cbn [rep_loop iter].
  - destruct lo; [|discriminate]. intros H; exists s, g; tauto.
  - destruct (run r s g (fun s' g' => rep_loop r k n (pred lo) s' g'))
      as [x|] eqn:E.
    + intros H; inversion H; subst x.
      destruct (Hr _ _ _ _ E) as (s1 & g1 & H1 & H2).
      destruct (IH _ _ _ _ H2) as (s2 & g2 & H3 & H4).
      exists s2, g2; split; auto. right; eauto.
    + destruct lo; [|discriminate]. intros H; exists s, g; tauto.
Qed.

(** Soundness of the matcher: a successful run went through a match of
    the pattern, and the continuation succeeded after it. *)
Theorem run_sound (r : re) :
  forall s g k res,
    run r s g k = Some res ->
    exists s' g', den r s g s' g' /\ k s' g' = Some res.
Proof.
  induction r as [c|p|a IHa b IHb|a IHa b IHb|lo hi a IHa|name a IHa|];
    intros s g k res.
  - cbn [run den]. destruct s as [|c' s]; [discriminate|].
    destruct (Ascii.eqb c c') eqn:E; [|discriminate].
    apply Ascii.eqb_eq in E; subst c'. eauto.
  - cbn [run den]. destruct s as [|c' s]; [discriminate|].
    destruct (p c') eqn:E; [|discriminate]. eauto 7.
  - rewrite run_seq; intros H.
    destruct (IHa _ _ _ _ H) as (s1 & g1 & H1 & H2).
    destruct (IHb _ _ _ _ H2) as (s2 & g2 & H3 & H4).
    exists s2, g2; split; auto. cbn [den]; eauto.
  - cbn [run den].
    destruct (run a s g k) as [x|] eqn:E.
    + intros H; inversion H; subst x.
      destruct (IHa _ _ _ _ E) as (s1 & g1 & H1 & H2). eauto.
    + intros H. destruct (IHb _ _ _ _ H) as (s1 & g1 & H1 & H2). eauto.
  - rewrite run_rep. cbn [den]. apply rep_loop_sound. exact IHa.
  - rewrite run_grp; intros H.
    destruct (IHa _ _ _ _ H) as (s1 & g1 & H1 & H2).
    exists s1, ((name, consumed s s1) :: g1); split; auto.
    cbn [den]; eauto.
  - cbn [run den]. destruct s as [|c [|c' s]].
    + intros H; exists [], g; tauto.
    + destruct (Ascii.eqb c "010") eqn:E; [|discriminate].
      apply Ascii.eqb_eq in E; subst c.
      intros H; exists ["010"%char], g; tauto.
    + discriminate.
Qed.

(** What is left after a match is a tail of what was there: the match
    consumed a head [w] of the text. *)
Lemma den_suffix (r : re) :
  forall s g s' g', den r s g s' g' -> exists w, s = w ++ s'.
Proof.
  induction r as [c|p|a IHa b IHb|a IHa b IHb|lo hi a IHa|name a IHa|];
    intros s g s' g'; cbn [den].
  - intros [-> _]; now exists [c].
  - intros (c & _ & -> & _); now exists [c].
  - intros (s1 & g1 & H1 & H2).
    destruct (IHa _ _ _ _ H1) as [w1 ->].
    destruct (IHb _ _ _ _ H2) as [w2 ->].
    exists (w1 ++ w2); now rewrite app_assoc.
  - intros [H|H]; eauto.
  - revert lo s g. induction hi as [|hi IH]; intros lo s g; cbn [iter].
    + intros [(_ & -> & _)|[]]; now exists [].
    + intros [(_ & -> & _)|(s1 & g1 & H1 & H2)]; [now exists []|].
      destruct (IHa _ _ _ _ H1) as [w1 ->].
      destruct (IH _ _ _ H2) as [w2 ->].
      exists (w1 ++ w2); now rewrite app_assoc.
  - intros (g0 & H & _); eauto.
  - intros (-> & _); now exists [].
Qed.

Lemma consumed_app (w s : str) : consumed (w ++ s) s = w.
Proof.
  unfold consumed. rewrite length_app.
  replace (length w + length s - length s) with (length w + 0) by lia.
  rewrite firstn_app_2. cbn [firstn]. apply app_nil_r.
Qed.

(** A repetition of a class consumes a run of its characters. *)
Lemma iter_cls (p : ascii -> bool) (hi : nat) :
  forall lo s g s' g',
    iter (den (Cls p)) hi lo s g s' g' ->
    exists w, s = w ++ s' /\ forallb p w = true
              /\ lo <= length w <= hi /\ g' = g.
Proof.
  induction hi as [|hi IH]; intros lo s g s' g'; cbn [iter].
  - intros [(-> & -> & ->)|[]]. exists []; repeat split; auto.
  - intros [(-> & -> & ->)|(s1 & g1 & (c & Hc & -> & ->) & H)].
    + exists []; repeat split; auto; simpl; lia.
    + destruct (IH _ _ _ _ _ H) as (w & -> & Hw & Hlen & ->).
      exists (c :: w); repeat split; simpl; auto; try lia.
      now rewrite Hc.
Qed.

End RegexFacts.

Section DigitFacts.

Lemma digit_cases (c : ascii) :
  is_digit c = true ->
  In c (chars "0123456789").
Proof.
  destruct c as [[] [] [] [] [] [] [] []]; intros H;
    try discriminate H; simpl; tauto.
Qed.

Lemma digit_not (c x : ascii) :
  is_digit c = true -> is_digit x = false -> Ascii.eqb c x = false.
Proof.
  intros Hc Hx. apply Ascii.eqb_neq. intros ->. congruence.
Qed.

Lemma digit_not_sym (c x : ascii) :
  is_digit c = true -> is_digit x = false -> Ascii.eqb x c = false.
Proof.
  intros Hc Hx. rewrite Ascii.eqb_sym. now apply digit_not.
Qed.

Lemma digit_not_sign (c : ascii) :
  is_digit c = true -> plus_or_minus c = false.
Proof.
  intros H. unfold plus_or_minus.
  now rewrite !(digit_not c) by (auto; reflexivity).
Qed.

Lemma take_drop_while (p : ascii -> bool) (s : str) :
  take_while p s ++ drop_while p s = s.
Proof.
  induction s as [|c s IH]; simpl; auto.
  destruct (p c); simpl; congruence.
Qed.

Lemma take_while_all (p : ascii -> bool) (s : str) :
  forallb p (take_while p s) = true.
Proof.
  induction s as [|c s IH]; simpl; auto.
  destruct (p c) eqn:E; simpl; auto. now rewrite E.
Qed.

Lemma drop_while_app (p : ascii -> bool) (w r : str) :
  forallb p w = true -> drop_while p (w ++ r) = drop_while p r.
Proof.
  induction w as [|c w IH]; simpl; auto.
  intros H; apply andb_prop in H as [Hc Hw]. rewrite Hc; auto.
Qed.

Lemma take_while_app (p : ascii -> bool) (w r : str) :
  forallb p w = true -> take_while p (w ++ r) = w ++ take_while p r.
Proof.
  induction w as [|c w IH]; simpl; auto.
  intros H; apply andb_prop in H as [Hc Hw]. rewrite Hc, IH; auto.
Qed.

Lemma drop_while_idem (p : ascii -> bool) (s : str) :
  drop_while p (drop_while p s) = drop_while p s.
Proof.
  induction s as [|c s IH]; simpl; auto.
  destruct (p c) eqn:E; auto. simpl. now rewrite E.
Qed.

Lemma take_while_drop (p : ascii -> bool) (s : str) :
  take_while p (drop_while p s) = [].
Proof.
  induction s as [|c s IH]; simpl; auto.
  destruct (p c) eqn:E; auto. simpl. now rewrite E.
Qed.

Lemma forallb_firstn (p : ascii -> bool) (n : nat) (w : str) :
  forallb p w = true -> forallb p (firstn n w) = true.
Proof.
  revert n; induction w as [|c w IH]; intros [|n] H; simpl in *; auto.
  apply andb_prop in H as [Hc Hw]. rewrite Hc; simpl; auto.
Qed.

Lemma forallb_skipn (p : ascii -> bool) (n : nat) (w : str) :
  forallb p w = true -> forallb p (skipn n w) = true.
Proof.
  revert n; induction w as [|c w IH]; intros [|n] H; simpl in *; auto.
  apply andb_prop in H as [Hc Hw]; auto.
Qed.

Lemma after_char_digits (x : ascii) (w s : str) :
  is_digit x = false ->
  forallb is_digit w = true -> after_char x (w ++ s) = after_char x s.
Proof.
  intros Hx; induction w as [|c w IH]; simpl; auto.
  intros H; apply andb_prop in H as [Hc Hw].
  rewrite (digit_not c) by auto. auto.
Qed.

End DigitFacts.

Section GreedyFacts.

Lemma rep_loop_none0 (r : re) (k : cont) (n : nat) (s : str) (g : groups) :
  rep_loop r k n 0 s g = None -> k s g = None.
Proof.
  destruct n; cbn [rep_loop]; auto.
  destruct (run r s g _); [discriminate|auto].
Qed.

(** When what follows cannot start with a character of the class, a
    repetition of the class takes every such character there is. *)
Lemma rep_cls_longest (p : ascii -> bool) (k : cont) :
  rejects p k ->
  forall hi lo s g,
    rep_loop (Cls p) k hi lo s g
    = if ((lo <=? length (take_while p s))
          && (length (take_while p s) <=? hi))%nat
      then k (drop_while p s) g else None.
Proof.
  intros Hk; induction hi as [|hi IH]; intros lo s g.
  - cbn [rep_loop]. destruct s as [|c s]; cbn [take_while drop_while length].
    + destruct lo; reflexivity.
    + destruct (p c) eqn:E; cbn [length].
      * rewrite andb_false_r. destruct lo; auto.
      * destruct lo; reflexivity.
  - cbn [rep_loop run].
    destruct s as [|c s]; cbn [take_while drop_while length].
    + destruct lo; reflexivity.
    + destruct (p c) eqn:E; cbn [length].
      * rewrite IH.
        assert (Hlo : (pred lo <=? length (take_while p s))%nat
                      = (lo <=? S (length (take_while p s)))%nat).
        { destruct lo; cbn [pred]; [|reflexivity].
          symmetry. now apply Nat.leb_le; lia. }
        rewrite Hlo. cbn [Nat.leb].
        destruct ((lo <=? S (length (take_while p s)))
                  && (length (take_while p s) <=? hi))%nat; cbn [andb].
        -- destruct (k (drop_while p s) g); auto.
           destruct lo; auto.
        -- destruct lo; auto.
      * destruct lo; reflexivity.
Qed.

(** A repetition of a class takes as many characters as it may, when
    taking one more can only help what follows. *)
Lemma rep_cls_greedy (p : ascii -> bool) (k : cont) :
  (forall c s g, p c = true -> k s g = None -> k (c :: s) g = None) ->
  forall hi lo s g res,
    rep_loop (Cls p) k hi lo s g = Some res ->
    let m := Nat.min hi (length (take_while p s)) in
    k (skipn m s) g = Some res /\ lo <= m.
Proof.
  intros Hk; induction hi as [|hi IH]; intros lo s g res.
  - cbn [rep_loop Nat.min skipn]. destruct lo; [|discriminate].
    intros H; split; [exact H|lia].
  - cbn [rep_loop run].
    destruct s as [|c s]; cbn [take_while length].
    + destruct lo; [|discriminate]. rewrite Nat.min_0_r; cbn [skipn].
      intros H; split; [exact H|lia].
    + destruct (p c) eqn:E; cbn [length].
      * destruct (rep_loop (Cls p) k hi (pred lo) s g) as [x|] eqn:Ein.
        -- intros H; inversion H; subst x.
           destruct (IH _ _ _ _ Ein) as [H1 H2].
           cbn [Nat.min skipn]. split; [exact H1|lia].
        -- destruct lo; [|discriminate].
           cbn [pred] in Ein. apply rep_loop_none0 in Ein.
           rewrite (Hk _ _ _ E Ein). discriminate.
      * destruct lo; [|discriminate]. rewrite Nat.min_0_r; cbn [skipn].
        intros H; split; [exact H|lia].
Qed.

Lemma rep_loop_blind (r : re) (k : cont) :
  (forall k', blind k' -> blind (fun s g => run r s g k')) ->
  blind k ->
  forall n lo, blind (rep_loop r k n lo).
Proof.
  intros Hr Hk; induction n as [|n IH]; intros lo s g1 g2;
    cbn [rep_loop].
  - destruct lo; [apply Hk|auto].
  - destruct (run r s g1 (fun s' g' => rep_loop r k n (pred lo) s' g'))
      eqn:E1; [discriminate|].
    assert (E2 : run r s g2 (fun s' g' => rep_loop r k n (pred lo) s' g')
                 = None) by exact (Hr _ (IH (pred lo)) s g1 g2 E1).
    rewrite E2.
    destruct lo; [apply Hk|auto].
Qed.

(** Whether a run succeeds does not depend on the captures it starts
    with. *)
Lemma run_blind (r : re) :
  forall k, blind k -> blind (fun s g => run r s g k).
Proof.
  induction r as [c|p|a IHa b IHb|a IHa b IHb|lo hi a IHa|name a IHa|];
    intros k Hk s g1 g2.
  - cbn [run]. destruct s as [|c' s]; auto.
    destruct (Ascii.eqb c c'); [apply Hk|auto].
  - cbn [run]. destruct s as [|c' s]; auto.
    destruct (p c'); [apply Hk|auto].
  - rewrite !run_seq. apply (IHa _ (IHb _ Hk)).
  - cbn [run].
    destruct (run a s g1 k) eqn:E1; [discriminate|].
    rewrite (IHa _ Hk _ _ g2 E1). apply (IHb _ Hk).
  - rewrite !run_rep. now apply rep_loop_blind.
  - rewrite !run_grp.
    apply (IHa (fun s' g' => k s' ((name, consumed s s') :: g'))).
    intros s' g g'; apply Hk.
  - cbn [run]. destruct s as [|c [|c' s]]; auto; [apply Hk|].
    destruct (Ascii.eqb c "010"); [apply Hk|auto].
Qed.

End GreedyFacts.

(** ** The shape of a text that matches *)

Section DenInversion.

Lemma den_seq_inv (a b : re) (s : str) (g : groups) (s' : str)
      (g' : groups) :
  den (Seq a b) s g s' g' ->
  exists s1 g1, den a s g s1 g1 /\ den b s1 g1 s' g'.
Proof. exact (fun H => H). Qed.

Lemma den_lit_inv (c : ascii) (s : str) (g : groups) (s' : str)
      (g' : groups) :
  den (Lit c) s g s' g' -> s = c :: s' /\ g' = g.
Proof. exact (fun H => H). Qed.

Lemma den_cls_inv (p : ascii -> bool) (s : str) (g : groups) (s' : str)
      (g' : groups) :
  den (Cls p) s g s' g' -> exists c, p c = true /\ s = c :: s' /\ g' = g.
Proof. exact (fun H => H). Qed.

Lemma den_alt_inv (a b : re) (s : str) (g : groups) (s' : str)
      (g' : groups) :
  den (Alt a b) s g s' g' -> den a s g s' g' \/ den b s g s' g'.
Proof. exact (fun H => H). Qed.

Lemma den_grp_inv (name : string) (a : re) (s : str) (g : groups)
      (s' : str) (g' : groups) :
  den (Grp name a) s g s' g' ->
  exists g0, den a s g s' g0 /\ g' = (name, consumed s s') :: g0.
Proof. exact (fun H => H). Qed.

Lemma den_eos_inv (s : str) (g : groups) (s' : str) (g' : groups) :
  den Eos s g s' g' -> s' = s /\ g' = g /\ (s = [] \/ s = ["010"%char]).
Proof. exact (fun H => H). Qed.

Lemma den_opt_inv (a : re) (s : str) (g : groups) (s' : str)
      (g' : groups) :
  den (Rep 0 1 a) s g s' g' -> (s' = s /\ g' = g) \/ den a s g s' g'.
Proof.
  cbn [den iter].
  intros [(_ & H)|(s1 & g1 & H1 & [(_ & -> & ->)|[]])]; auto.
Qed.

Lemma den_digits_inv (lo hi : nat) (s : str) (g : groups) (s' : str)
      (g' : groups) :
  den (Rep lo hi digit) s g s' g' ->
  exists w, s = w ++ s' /\ forallb is_digit w = true
            /\ lo <= length w <= hi /\ g' = g.
Proof. apply iter_cls. Qed.

End DenInversion.

(** One step of the inversion of a denotation. *)
Ltac den_step :=
  match goal with
  | H : den (Seq _ _) _ _ _ _ |- _ =>
      apply den_seq_inv in H; destruct H as (? & ? & ? & H)
  | H : den (Lit _) _ _ _ _ |- _ =>
      apply den_lit_inv in H; destruct H as [? ?]; subst
  | H : den (Rep 0 1 _) _ _ _ _ |- _ =>
      apply den_opt_inv in H; destruct H as [[? ?]|H]; subst
  | H : den (Rep _ _ digit) _ _ _ _ |- _ =>
      apply den_digits_inv in H; destruct H as (? & ? & ? & ? & ?); subst
  | H : den (Cls _) _ _ _ _ |- _ =>
      apply den_cls_inv in H; destruct H as (? & ? & ? & ?); subst
  | H : den (Grp _ _) _ _ _ _ |- _ =>
      apply den_grp_inv in H; destruct H as (? & H & ?); subst
  | H : den (Alt _ _) _ _ _ _ |- _ =>
      apply den_alt_inv in H; destruct H as [H|H]
  | H : den Eos _ _ _ _ |- _ =>
      apply den_eos_inv in H; destruct H as (? & ? & ?); subst
  end.

Section TailFacts.

Lemma two_digits_len (w : str) :
  forallb is_digit w = true -> 2 <= length w <= 2 -> two_digits w.
Proof. intros; split; auto; lia. Qed.

(** After the clock: a designator or nothing, then the end of the text
    or its final newline.  The designator is the only capture added. *)
Lemma tail_k_shape (s : str) (g res : groups) :
  tail_k s g = Some res ->
  exists tz e,
    s = tz ++ e
    /\ (e = [] \/ e = ["010"%char])
    /\ ((tz = [] /\ res = g)
        \/ (designator tz /\ res = ("tzinfo", tz) :: g)).
Proof.
  unfold tail_k. intros H. apply run_sound in H.
  destruct H as (s' & g' & H & Hres). inversion Hres; subst g'; clear Hres.
  cbv [opt tzinfo_re seq] in H.
  repeat den_step.
  - exists [], s. auto.
  - match goal with |- context [consumed (?c :: ?r) ?r] =>
      exists [c], r; change (c :: r) with ([c] ++ r) end.
    rewrite consumed_app. repeat split; auto. right; split; auto.
    apply des_Z.
  - match goal with |- context [consumed (?c :: ?a ++ ?r) ?r] =>
      exists (c :: a), r; change (c :: a ++ r) with ((c :: a) ++ r) end.
    rewrite consumed_app. repeat split; auto. right; split; auto.
    apply des_hh; auto using two_digits_len.
  - match goal with |- context [consumed (?c :: ?a ++ ?b ++ ?r) ?r] =>
      exists (c :: a ++ b), r;
      replace (c :: a ++ b ++ r) with ((c :: a ++ b) ++ r)
        by (simpl; now rewrite <- app_assoc) end.
    rewrite consumed_app. repeat split; auto. right; split; auto.
    apply des_hhmm; auto using two_digits_len.
  - match goal with
      |- context [consumed (?c :: ?a ++ ?x :: ?b ++ ?r) ?r] =>
      exists (c :: a ++ chars ":" ++ b), r;
      replace (c :: a ++ x :: b ++ r)
        with ((c :: a ++ chars ":" ++ b) ++ r)
        by (simpl; now rewrite <- app_assoc) end.
    rewrite consumed_app. repeat split; auto. right; split; auto.
    apply des_hh_mm; auto using two_digits_len.
Qed.

Lemma designator_head (tz : str) :
  designator tz ->
  exists c w, tz = c :: w /\ is_digit c = false
              /\ forallb (fun x => negb (Ascii.eqb x ".")) tz = true.
Proof.
  assert (Hd : forall w, forallb is_digit w = true ->
               forallb (fun x => negb (Ascii.eqb x ".")) w = true).
  { induction w as [|x w IH]; simpl; auto.
    intros H; apply andb_prop in H as [Hx Hw].
    rewrite (digit_not x) by (auto; reflexivity). simpl; auto. }
  assert (Hs : forall c, plus_or_minus c = true ->
               is_digit c = false /\ Ascii.eqb c "." = false).
  { intros c H. unfold plus_or_minus in H.
    apply orb_prop in H as [H|H]; apply Ascii.eqb_eq in H; subst c;
      split; reflexivity. }
  intros [|c hh Hc [Hh _]|c hh mm Hc [Hh _] [Hm _]|c hh mm Hc [Hh _] [Hm _]].
  - exists "Z"%char, []; repeat split.
  - destruct (Hs c Hc) as [H1 H2].
    exists c, hh; repeat split; auto. simpl. rewrite H2; simpl; auto.
  - destruct (Hs c Hc) as [H1 H2].
    exists c, (hh ++ mm); repeat split; auto. simpl.
    rewrite H2, forallb_app, (Hd _ Hh), (Hd _ Hm); reflexivity.
  - destruct (Hs c Hc) as [H1 H2].
    exists c, (hh ++ chars ":" ++ mm); repeat split; auto. simpl.
    rewrite H2, forallb_app, (Hd _ Hh). simpl. now rewrite (Hd _ Hm).
Qed.

Lemma after_char_none (x : ascii) (w : str) :
  forallb (fun c => negb (Ascii.eqb c x)) w = true ->
  forall s, after_char x (w ++ s) = after_char x s.
Proof.
  induction w as [|c w IH]; simpl; auto.
  intros H s; apply andb_prop in H as [Hx Hw].
  destruct (Ascii.eqb c x); [discriminate|auto].
Qed.

Lemma tail_k_rejects_digits : rejects is_digit tail_k.
Proof.
  intros c s g Hc.
  destruct (tail_k (c :: s) g) as [res|] eqn:E; auto.
  destruct (tail_k_shape _ _ _ E) as (tz & e & Hs & He & [[-> _]|[Hd _]]).
  - simpl in Hs. destruct He as [->| ->]; [discriminate|].
    inversion Hs; subst. discriminate.
  - destruct (designator_head _ Hd) as (c' & w & -> & Hc' & _).
    inversion Hs; subst. congruence.
Qed.

Lemma tail_k_no_dot (s : str) (g res : groups) :
  tail_k s g = Some res -> after_char "." s = None.
Proof.
  intros E.
  destruct (tail_k_shape _ _ _ E) as (tz & e & -> & He & [[-> _]|[Hd _]]).
  - destruct He as [->| ->]; reflexivity.
  - destruct (designator_head _ Hd) as (c' & w & _ & _ & Hno).
    rewrite (after_char_none _ _ Hno).
    destruct He as [->| ->]; reflexivity.
Qed.

Lemma tail_k_keeps (s : str) (g res : groups) (name : string) :
  tail_k s g = Some res ->
  String.eqb name "tzinfo" = false ->
  lookup name res = lookup name g.
Proof.
  intros E Hn.
  destruct (tail_k_shape _ _ _ E) as (tz & e & _ & _ & [[_ ->]|[_ ->]]);
    auto.
  cbn [lookup]. now rewrite Hn.
Qed.

Lemma tail_k_blind : blind tail_k.
Proof.
  unfold tail_k. apply (run_blind (Seq (opt tzinfo_re) Eos)).
  intros s g1 g2; discriminate.
Qed.

End TailFacts.

Section FractionFacts.

Lemma firstn_min_all (n : nat) (w : str) :
  firstn (Nat.min n (length w)) w = firstn n w.
Proof.
  destruct (Nat.le_ge_cases n (length w)) as [H|H].
  - now rewrite Nat.min_l.
  - rewrite Nat.min_r by assumption.
    now rewrite firstn_all, firstn_all2.
Qed.

(** The fraction [(?P<microsecond>\d{1,6})\d{0,6}], when what follows
    cannot start with a digit: all the digits there are consumed, and
    the group holds the first six of them (all of them when they are
    fewer). *)
Lemma fraction_capture (k : cont) :
  rejects is_digit k ->
  blind k ->
  forall s g res,
    run (Seq (Grp "microsecond" (Rep 1 6 digit)) (Rep 0 6 digit)) s g k
    = Some res ->
    1 <= length (take_while is_digit s)
    /\ k (drop_while is_digit s)
         (("microsecond", firstn 6 (take_while is_digit s)) :: g)
       = Some res.
Proof.
  intros Hrej Hblind s g res.
  rewrite run_seq, run_grp, run_rep. unfold digit. intros H.
  apply rep_cls_greedy in H.
  - cbv zeta in H. destruct H as [H Hm].
    rewrite run_rep, (rep_cls_longest _ _ Hrej) in H.
    destruct ((0 <=? length (take_while is_digit
                 (skipn (Nat.min 6 (length (take_while is_digit s))) s)))
              && (length (take_while is_digit
                    (skipn (Nat.min 6 (length (take_while is_digit s))) s))
                  <=? 6))%nat; [|discriminate].
    set (F := take_while is_digit s) in *.
    set (R := drop_while is_digit s) in *.
    assert (Hs : s = F ++ R) by (symmetry; apply take_drop_while).
    assert (HF : forallb is_digit F = true) by apply take_while_all.
    assert (Hle : Nat.min 6 (length F) <= length F) by lia.
    split; [lia|].
    assert (Hskip : skipn (Nat.min 6 (length F)) s
                    = skipn (Nat.min 6 (length F)) F ++ R).
    { rewrite Hs at 1. rewrite skipn_app.
      replace (Nat.min 6 (length F) - length F) with 0 by lia.
      reflexivity. }
    assert (Hfirst : firstn (Nat.min 6 (length F)) s = firstn 6 F).
    { rewrite Hs at 1. rewrite firstn_app.
      replace (Nat.min 6 (length F) - length F) with 0 by lia.
      cbn [firstn]. rewrite app_nil_r. apply firstn_min_all. }
    assert (Hcons : consumed s (skipn (Nat.min 6 (length F)) s)
                    = firstn 6 F).
    { rewrite <- (firstn_skipn (Nat.min 6 (length F)) s) at 1.
      now rewrite consumed_app. }
    rewrite Hcons in H.
    rewrite Hskip, drop_while_app in H by now apply forallb_skipn.
    unfold R in H. rewrite drop_while_idem in H. exact H.
  - (* taking one more digit can only help *)
    intros c t g' Hc.
    rewrite !run_rep, !(rep_cls_longest _ _ Hrej).
    cbn [take_while drop_while]. rewrite Hc. cbn [length].
    set (n := length (take_while is_digit t)).
    replace (0 <=? n)%nat with true by (symmetry; apply Nat.leb_le; lia).
    replace (0 <=? S n)%nat with true by (symmetry; apply Nat.leb_le; lia).
    cbn [andb].
    destruct (S n <=? 6)%nat eqn:E2; [|reflexivity].
    replace (n <=? 6)%nat with true.
    + apply Hblind.
    + symmetry; apply Nat.leb_le. apply Nat.leb_le in E2. lia.
Qed.

End FractionFacts.

Section PieceFacts.

Lemma run_lit_inv (c : ascii) (s : str) (g : groups) (k : cont)
      (res : groups) :
  run (Lit c) s g k = Some res ->
  exists s', s = c :: s' /\ k s' g = Some res.
Proof.
  intros H; apply run_sound in H. destruct H as (s' & g' & H & Hk).
  den_step. eauto.
Qed.

Lemma run_cls_inv (p : ascii -> bool) (s : str) (g : groups) (k : cont)
      (res : groups) :
  run (Cls p) s g k = Some res ->
  exists c s', s = c :: s' /\ p c = true /\ k s' g = Some res.
Proof.
  intros H; apply run_sound in H. destruct H as (s' & g' & H & Hk).
  den_step. eauto.
Qed.

Lemma run_grp_digits_inv (name : string) (lo hi : nat) (s : str)
      (g : groups) (k : cont) (res : groups) :
  run (Grp name (Rep lo hi digit)) s g k = Some res ->
  exists w s', s = w ++ s' /\ forallb is_digit w = true
               /\ lo <= length w <= hi
               /\ k s' ((name, w) :: g) = Some res.
Proof.
  intros H; apply run_sound in H. destruct H as (s' & g' & H & Hk).
  repeat den_step. rewrite consumed_app in Hk. eauto 7.
Qed.

Lemma run_opt_inv (r : re) (s : str) (g : groups) (k : cont)
      (res : groups) :
  run (opt r) s g k = Some res ->
  run r s g k = Some res \/ k s g = Some res.
Proof.
  unfold opt. rewrite run_rep. cbn [rep_loop pred].
  change (fun s' g' => k s' g') with k.
  destruct (run r s g k) as [x|]; auto.
Qed.

Lemma after_char_cons (x c : ascii) (s : str) :
  Ascii.eqb c x = false -> after_char x (c :: s) = after_char x s.
Proof. intros H; cbn [after_char]. now rewrite H. Qed.

Lemma T_or_space_not (c x : ascii) :
  T_or_space x = false -> T_or_space c = true -> Ascii.eqb c x = false.
Proof.
  intros Hx Hc. apply Ascii.eqb_neq. intros ->. congruence.
Qed.

Lemma datetime_re_unfold :
  _iso8601_datetime_re
  = Seq (Grp "year" (Rep 4 4 digit))
      (Seq (Lit "-")
         (Seq (Grp "month" (Rep 1 2 digit))
            (Seq (Lit "-")
               (Seq (Grp "day" (Rep 1 2 digit))
                  (Seq (Cls T_or_space)
                     (Seq (Grp "hour" (Rep 1 2 digit))
                        (Seq (Lit ":")
                           (Seq (Grp "minute" (Rep 1 2 digit))
                              (Seq (opt seconds_re)
                                 (Seq (opt tzinfo_re) Eos)))))))))).
Proof. reflexivity. Qed.

(** The head of a text that matches the datetime pattern: the date, the
    separator, the hours and the minutes, each a run of digits of the
    right length and captured under its name. *)
Lemma datetime_prefix_shape (s : str) (res : groups) :
  re_match _iso8601_datetime_re s = Some res ->
  exists Y M D sep h mi s5,
    s = Y ++ "-"%char :: M ++ "-"%char :: D ++ sep :: h
          ++ ":"%char :: mi ++ s5
    /\ (forallb is_digit Y = true /\ length Y = 4)
    /\ (forallb is_digit M = true /\ 1 <= length M <= 2)
    /\ (forallb is_digit D = true /\ 1 <= length D <= 2)
    /\ T_or_space sep = true
    /\ (forallb is_digit h = true /\ 1 <= length h <= 2)
    /\ (forallb is_digit mi = true /\ 1 <= length mi <= 2)
    /\ run (opt seconds_re) s5
           [("minute", mi); ("hour", h); ("day", D); ("month", M);
            ("year", Y)] tail_k
       = Some res.
Proof.
  unfold re_match. rewrite datetime_re_unfold. intros H.
  rewrite run_seq in H.
  apply run_grp_digits_inv in H. destruct H as (Y & s1 & -> & HY & LY & H).
  rewrite run_seq in H.
  apply run_lit_inv in H. destruct H as (s2 & -> & H).
  rewrite run_seq in H.
  apply run_grp_digits_inv in H. destruct H as (M & s3 & -> & HM & LM & H).
  rewrite run_seq in H.
  apply run_lit_inv in H. destruct H as (s4 & -> & H).
  rewrite run_seq in H.
  apply run_grp_digits_inv in H. destruct H as (D & s5 & -> & HD & LD & H).
  rewrite run_seq in H.
  apply run_cls_inv in H. destruct H as (sep & s6 & -> & Hsep & H).
  rewrite run_seq in H.
  apply run_grp_digits_inv in H. destruct H as (h & s7 & -> & Hh & Lh & H).
  rewrite run_seq in H.
  apply run_lit_inv in H. destruct H as (s8 & -> & H).
  rewrite run_seq in H.
  apply run_grp_digits_inv in H. destruct H as (mi & s9 & -> & Hmi & Lmi & H).
  rewrite run_seq in H.
  exists Y, M, D, sep, h, mi, s9.
  repeat split; auto; lia.
Qed.

(** The optional seconds, with their optional fraction. *)
Lemma seconds_shape (s : str) (g res : groups) :
  run (opt seconds_re) s g tail_k = Some res ->
  tail_k s g = Some res
  \/ exists S s',
      s = ":"%char :: S ++ s'
      /\ forallb is_digit S = true /\ 1 <= length S <= 2
      /\ (tail_k s' (("second", S) :: g) = Some res
          \/ exists rest,
              s' = "."%char :: rest
              /\ 1 <= length (take_while is_digit rest)
              /\ tail_k (drop_while is_digit rest)
                   (("microsecond", firstn 6 (take_while is_digit rest))
                      :: ("second", S) :: g)
                 = Some res).
Proof.
  intros H. apply run_opt_inv in H. destruct H as [H|H]; [right|now left].
  unfold seconds_re in H. cbn [seq] in H.
  rewrite run_seq in H.
  apply run_lit_inv in H. destruct H as (s1 & -> & H).
  rewrite run_seq in H.
  apply run_grp_digits_inv in H. destruct H as (S & s2 & -> & HS & LS & H).
  exists S, s2. repeat split; auto; try lia.
  apply run_opt_inv in H. destruct H as [H|H]; [right|now left].
  unfold fraction_re in H. cbn [seq] in H.
  rewrite run_seq in H.
  apply run_lit_inv in H. destruct H as (rest & -> & H).
  exists rest. split; auto.
  apply (fraction_capture tail_k tail_k_rejects_digits tail_k_blind) in H.
  exact H.
Qed.

(** The capture of the fraction in a match of the datetime pattern, read
    off the text: the first six of the digits that follow the first
    ['.'], and no capture when the text has no ['.']. *)
Lemma datetime_match_fraction (s : str) (res : groups) :
  re_match _iso8601_datetime_re s = Some res ->
  match after_char "." s with
  | Some rest =>
      1 <= length (take_while is_digit rest)
      /\ lookup "microsecond" res
         = Some (firstn 6 (take_while is_digit rest))
  | None => lookup "microsecond" res = None
  end.
Proof.
  intros H. apply datetime_prefix_shape in H.
  destruct H as (Y & M & D & sep & h & mi & s5 & -> & [HY _] & [HM _]
                 & [HD _] & Hsep & [Hh _] & [Hmi _] & H).
  assert (Hdot : is_digit "." = false) by reflexivity.
  rewrite (after_char_digits _ Y), after_char_cons by auto.
  rewrite (after_char_digits _ M), after_char_cons by auto.
  rewrite (after_char_digits _ D), (after_char_cons _ sep)
    by (auto; now apply T_or_space_not).
  rewrite (after_char_digits _ h), after_char_cons by auto.
  rewrite (after_char_digits _ mi) by auto.
  apply seconds_shape in H.
  destruct H as [H|(S & s6 & -> & HS & _ & [H|(rest & -> & HF & H)])].
  - rewrite (tail_k_no_dot _ _ _ H).
    now rewrite (tail_k_keeps _ _ _ "microsecond" H).
  - rewrite after_char_cons, (after_char_digits _ S) by auto.
    rewrite (tail_k_no_dot _ _ _ H).
    now rewrite (tail_k_keeps _ _ _ "microsecond" H).
  - rewrite after_char_cons, (after_char_digits _ S) by auto.
    cbn [after_char Ascii.eqb Bool.eqb]. split; auto.
    now rewrite (tail_k_keeps _ _ _ "microsecond" H).
Qed.

(** When the text does not give the seconds, neither the seconds nor
    the fraction is captured. *)
Lemma datetime_match_no_seconds (s : str) (res : groups) :
  re_match _iso8601_datetime_re s = Some res ->
  seconds_given s = false ->
  lookup "second" res = None /\ lookup "microsecond" res = None.
Proof.
  intros H. apply datetime_prefix_shape in H.
  destruct H as (Y & M & D & sep & h & mi & s5 & -> & [HY _] & [HM _]
                 & [HD _] & Hsep & [Hh _] & [Hmi _] & H).
  assert (Hcolon : is_digit ":" = false) by reflexivity.
  unfold seconds_given.
  rewrite (after_char_digits _ Y), after_char_cons by auto.
  rewrite (after_char_digits _ M), after_char_cons by auto.
  rewrite (after_char_digits _ D), (after_char_cons _ sep)
    by (auto; now apply T_or_space_not).
  rewrite (after_char_digits _ h) by auto.
  cbn [after_char Ascii.eqb Bool.eqb].
  rewrite drop_while_app by assumption.
  apply seconds_shape in H.
  destruct H as [H|(S & s6 & -> & _)].
  - intros _.
    rewrite (tail_k_keeps _ _ _ "second" H),
      (tail_k_keeps _ _ _ "microsecond" H) by reflexivity.
    split; reflexivity.
  - cbn [drop_while]. rewrite Hcolon. discriminate.
Qed.

End PieceFacts.

(** ** [from_iso_datetime] *)

Section ParseFacts.

Local Open Scope Z_scope.

Lemma bind_ok_inv {A B : Type} (m : outcome A) (k : A -> outcome B) (b : B) :
  Py.bind m k = Ok b -> exists a, m = Ok a /\ k a = Ok b.
Proof.
  destruct m as [a|e]; cbn [Py.bind]; [eauto|discriminate].
Qed.

Lemma mk_datetime_ok (y mo dd h mi s us : Z) (tz : option timezone)
      (d : datetime) :
  mk_datetime y mo dd h mi s us tz = Ok d ->
  d = {| year := y; month := mo; day := dd; hour := h; minute := mi;
         second := s; microsecond := us; tzinfo := tz |}
  /\ check_date_fields y mo dd = Ok tt
  /\ check_time_fields h mi s us = Ok tt.
Proof.
  unfold mk_datetime. intros H.
  apply bind_ok_inv in H as ([] & H1 & H).
  apply bind_ok_inv in H as ([] & H2 & H).
  inversion H; auto.
Qed.

(** A successful call went through a match, and each field of the result
    is what the code computes from the captures. *)
Lemma from_iso_datetime_inv (value : string) (d : datetime) :
  from_iso_datetime value = Ok d ->
  exists g,
    re_match _iso8601_datetime_re (chars value) = Some g
    /\ group_int "year" g = Ok (year d)
    /\ group_int "month" g = Ok (month d)
    /\ group_int "day" g = Ok (day d)
    /\ group_int "hour" g = Ok (hour d)
    /\ group_int "minute" g = Ok (minute d)
    /\ group_second g = Ok (second d)
    /\ group_microsecond g = Ok (microsecond d)
    /\ parse_tzinfo g = Ok (tzinfo d)
    /\ check_date_fields (year d) (month d) (day d) = Ok tt
    /\ check_time_fields (hour d) (minute d) (second d) (microsecond d)
       = Ok tt.
Proof.
  unfold from_iso_datetime.
  destruct (re_match _iso8601_datetime_re (chars value)) as [g|];
    [|discriminate].
  intros H. exists g.
  apply bind_ok_inv in H as (y & Hy & H).
  apply bind_ok_inv in H as (mo & Hmo & H).
  apply bind_ok_inv in H as (dd & Hdd & H).
  apply bind_ok_inv in H as (h & Hh & H).
  apply bind_ok_inv in H as (mi & Hmi & H).
  apply bind_ok_inv in H as (s & Hs & H).
  apply bind_ok_inv in H as (us & Hus & H).
  apply bind_ok_inv in H as (tz & Htz & H).
  apply mk_datetime_ok in H as (-> & Hd & Ht).
  cbn [year month day hour minute second microsecond tzinfo].
  repeat split; assumption.
Qed.

Lemma py_int_digits (w : str) :
  w <> [] -> forallb is_digit w = true -> py_int w = Ok (digits_val w).
Proof.
  intros Hne Hw. unfold py_int. destruct w; [congruence|]. now rewrite Hw.
Qed.

Lemma ljust_firstn (w : nat) (c : ascii) (s : str) :
  ljust w c (firstn w s) = firstn w (ljust w c s).
Proof.
  unfold ljust. rewrite firstn_app, length_firstn.
  destruct (Nat.le_ge_cases w (length s)) as [H|H].
  - rewrite Nat.min_l by assumption.
    replace (w - w)%nat with 0%nat by lia.
    replace (w - length s)%nat with 0%nat by lia. reflexivity.
  - rewrite Nat.min_r by assumption.
    rewrite !firstn_all2 by (rewrite ?repeat_length; lia). reflexivity.
Qed.

Lemma ljust_digits (w : nat) (s : str) :
  forallb is_digit s = true -> forallb is_digit (ljust w "0" s) = true.
Proof.
  intros H. unfold ljust. rewrite forallb_app, H. cbn [andb].
  induction (w - length s)%nat; simpl; auto.
Qed.

End ParseFacts.

(** C4.  For every text that [from_iso_datetime] accepts: the
    microsecond field is the integer read from the fractional digits
    padded on the right with zeros to six digits and cut after the sixth,
    so that further digits are dropped and not rounded, and it is 0 when
    the text has no fraction; when the text does not give the seconds,
    both the second and the microsecond field are 0.
    ["2024-01-15T10:30:00.123456789"] gives microsecond 123456. *)
Theorem from_iso_datetime_fraction_truncated (value : string) (d : datetime) :
  from_iso_datetime value = Ok d ->
  microsecond d
  = match fraction_digits (chars value) with
    | Some F => digits_val (firstn 6 (ljust 6 "0" F))
    | None => 0%Z
    end
  /\ (seconds_given (chars value) = false ->
      second d = 0%Z /\ microsecond d = 0%Z)
  /\ from_iso_datetime "2024-01-15T10:30:00.123456789"
     = Ok {| year := 2024; month := 1; day := 15;
             hour := 10; minute := 30; second := 0; microsecond := 123456;
             tzinfo := None |}.
Proof.
  intros H. apply from_iso_datetime_inv in H.
  destruct H as (g & Hm & _ & _ & _ & _ & _ & Hs & Hus & _).
  split; [|split; [|reflexivity]].
  - pose proof (datetime_match_fraction _ _ Hm) as Hf.
    unfold fraction_digits, group_microsecond in *.
    destruct (after_char "." (chars value)) as [rest|]; cbn [option_map].
    + destruct Hf as [Hlen Hf]. rewrite Hf in Hus.
      set (F := take_while is_digit rest) in *.
      assert (HF : forallb is_digit F = true) by apply take_while_all.
      destruct (firstn 6 F) as [|c w] eqn:E.
      { destruct F; [simpl in Hlen; lia|discriminate]. }
      rewrite <- E in Hus.
      rewrite py_int_digits in Hus.
      * rewrite ljust_firstn in Hus. congruence.
      * rewrite E. discriminate.
      * apply ljust_digits. now apply forallb_firstn.
    + rewrite Hf in Hus. congruence.
  - intros Hno.
    destruct (datetime_match_no_seconds _ _ Hm Hno) as [H1 H2].
    unfold group_second, group_microsecond in *.
    rewrite H1 in Hs. rewrite H2 in Hus. split; congruence.
Qed.

(** The theorem at a text with three fractional digits and an offset. *)
Lemma from_iso_datetime_fraction_truncated_witness :
  microsecond
    {| year := 2024; month := 1; day := 15;
       hour := 10; minute := 30; second := 7; microsecond := 125000;
       tzinfo := Some {| utcoffset := timedelta_of_seconds 3600 |} |}
  = digits_val (firstn 6 (ljust 6 "0" (chars "125"))).
Proof.
  exact (proj1 (from_iso_datetime_fraction_truncated
                  "2024-01-15 10:30:07.125+01:00" _ eq_refl)).
Defined.

(** ** Texts that the datetime pattern matches *)

Section MatchFacts.

(** A repetition of a class matches a run of its characters that is as
    long as allowed, or that ends where no more of them follow. *)
Lemma rep_cls_complete (p : ascii -> bool) (k : cont) (rest : str)
      (g x : groups) :
  k rest g = Some x ->
  forall w hi lo,
    forallb p w = true ->
    lo <= length w <= hi ->
    length w = hi \/ take_while p rest = [] ->
    rep_loop (Cls p) k hi lo (w ++ rest) g = Some x.
Proof.
  intros Hk; induction w as [|c w IH]; intros hi lo Hw Hlen Hmax.
  - cbn [length app] in *.
    destruct hi as [|hi]; cbn [rep_loop run].
    + destruct lo; [exact Hk|lia].
    + destruct Hmax as [Hmax|Hmax]; [discriminate|].
      destruct lo; [|lia].
      destruct rest as [|c rest]; [exact Hk|].
      cbn [take_while] in Hmax.
      destruct (p c); [discriminate|exact Hk].
  - cbn [length app forallb] in *.
    apply andb_prop in Hw as [Hc Hw].
    destruct hi as [|hi]; [lia|]. cbn [rep_loop run]. rewrite Hc.
    rewrite (IH hi (pred lo)); auto; try lia.
    destruct Hmax as [Hmax|Hmax]; [left; lia|now right].
Qed.

Lemma run_grp_digits_complete (name : string) (lo hi : nat) (w rest : str)
      (g x : groups) (k : cont) :
  forallb is_digit w = true ->
  lo <= length w <= hi ->
  length w = hi \/ take_while is_digit rest = [] ->
  k rest ((name, w) :: g) = Some x ->
  run (Grp name (Rep lo hi digit)) (w ++ rest) g k = Some x.
Proof.
  intros Hw Hlen Hmax Hk. rewrite run_grp, run_rep. unfold digit.
  apply rep_cls_complete; auto. now rewrite consumed_app.
Qed.

Lemma run_digits_complete (lo hi : nat) (w rest : str) (g x : groups)
      (k : cont) :
  forallb is_digit w = true ->
  lo <= length w <= hi ->
  length w = hi \/ take_while is_digit rest = [] ->
  k rest g = Some x ->
  run (Rep lo hi digit) (w ++ rest) g k = Some x.
Proof.
  intros Hw Hlen Hmax Hk. rewrite run_rep. unfold digit.
  now apply rep_cls_complete.
Qed.

Lemma run_lit_hit (c : ascii) (s : str) (g : groups) (k : cont) :
  run (Lit c) (c :: s) g k = k s g.
Proof. cbn [run]. now rewrite Ascii.eqb_refl. Qed.

Lemma run_cls_hit (p : ascii -> bool) (c : ascii) (s : str) (g : groups)
      (k : cont) :
  p c = true -> run (Cls p) (c :: s) g k = k s g.
Proof. intros H; cbn [run]. now rewrite H. Qed.

Lemma run_opt_take (r : re) (s : str) (g x : groups) (k : cont) :
  run r s g k = Some x -> run (opt r) s g k = Some x.
Proof.
  intros H. unfold opt. rewrite run_rep. cbn [rep_loop pred].
  change (fun s' g' => k s' g') with k. now rewrite H.
Qed.

Lemma run_opt_skip (r : re) (s : str) (g : groups) (k : cont) :
  run r s g k = None -> run (opt r) s g k = k s g.
Proof.
  intros H. unfold opt. rewrite run_rep. cbn [rep_loop pred].
  change (fun s' g' => k s' g') with k. now rewrite H.
Qed.

(** A pattern that starts with a literal fails where the text starts with
    another character, or is over. *)
Lemma run_lit_miss (c : ascii) (r : re) (s : str) (g : groups) (k : cont) :
  match s with [] => True | c' :: _ => Ascii.eqb c c' = false end ->
  run (Seq (Lit c) r) s g k = None.
Proof.
  rewrite run_seq. cbn [run]. destruct s as [|c' s]; auto.
  now intros ->.
Qed.

Lemma sign_cases (c : ascii) :
  plus_or_minus c = true -> c = "+"%char \/ c = "-"%char.
Proof.
  unfold plus_or_minus. intros H.
  apply orb_prop in H as [H|H]; apply Ascii.eqb_eq in H; auto.
Qed.

(** After the clock, nothing more: the match ends without a designator. *)
Lemma tail_k_end (g : groups) : tail_k [] g = Some g.
Proof. reflexivity. Qed.

(** After the clock, an offset [+HH:MM] and nothing more. *)
Lemma tail_k_offset (c : ascii) (hh mm : str) (g : groups) :
  plus_or_minus c = true -> two_digits hh -> two_digits mm ->
  tail_k (c :: hh ++ chars ":" ++ mm) g
  = Some (("tzinfo", c :: hh ++ chars ":" ++ mm) :: g).
Proof.
  intros Hc [Hh Lh] [Hm Lm].
  unfold tail_k. rewrite run_seq. apply run_opt_take.
  unfold tzinfo_re. rewrite run_grp. cbn [seq].
  assert (HZ : run (Lit "Z") (c :: hh ++ chars ":" ++ mm) g
                 (fun s' g' =>
                    run Eos s'
                      (("tzinfo", consumed (c :: hh ++ chars ":" ++ mm) s')
                         :: g') (fun _ g'' => Some g'')) = None).
  { cbn [run]. destruct (sign_cases c Hc) as [-> | ->]; reflexivity. }
  cbn [run] in HZ |- *. rewrite HZ.
  change (run (Seq (Cls plus_or_minus)
                 (Seq (Rep 2 2 digit)
                    (opt (Seq (opt (Lit ":")) (Rep 2 2 digit)))))
            (c :: hh ++ chars ":" ++ mm) g
            (fun s' g' =>
               run Eos s'
                 (("tzinfo", consumed (c :: hh ++ chars ":" ++ mm) s') :: g')
                 (fun _ g'' => Some g''))
          = Some (("tzinfo", c :: hh ++ chars ":" ++ mm) :: g)).
  rewrite run_seq, (run_cls_hit _ _ _ _ _ Hc), run_seq.
  apply run_digits_complete; auto; try lia.
  apply run_opt_take. rewrite run_seq.
  apply run_opt_take. cbn [chars list_ascii_of_string app].
  rewrite run_lit_hit.
  rewrite <- (app_nil_r mm) at 1.
  apply run_digits_complete; auto; try lia.
  cbn [run].
  replace (c :: hh ++ ":"%char :: mm)
    with ((c :: hh ++ ":"%char :: mm) ++ []) at 1 by apply app_nil_r.
  now rewrite consumed_app.
Qed.

End MatchFacts.

(** ** Decimal digits *)

Section DecimalFacts.

Local Open Scope Z_scope.

Lemma digit_val_range (c : ascii) :
  is_digit c = true -> 0 <= digit_val c <= 9 /\ digit_char (digit_val c) = c.
Proof.
  intros H. apply digit_cases in H. simpl in H.
  repeat (destruct H as [<-|H]; [vm_compute; intuition discriminate|]).
  contradiction.
Qed.

Lemma digits_val_snoc (w : str) (c : ascii) :
  digits_val (w ++ [c]) = 10 * digits_val w + digit_val c.
Proof.
  unfold digits_val. now rewrite fold_left_app.
Qed.

Lemma digits_val_range (w : str) :
  forallb is_digit w = true ->
  0 <= digits_val w < 10 ^ Z.of_nat (length w).
Proof.
  induction w as [|c w IH] using rev_ind; intros H.
  - vm_compute; intuition discriminate.
  - rewrite forallb_app in H. apply andb_prop in H as [Hw Hc].
    cbn [forallb] in Hc. rewrite andb_true_r in Hc.
    destruct (digit_val_range c Hc) as [Hr _].
    specialize (IH Hw).
    rewrite digits_val_snoc, length_app. cbn [length].
    rewrite Nat2Z.inj_add, Z.pow_add_r by lia.
    change (10 ^ Z.of_nat 1) with 10. lia.
Qed.

(** Printing the value of a run of digits with as many digits gives the
    run back. *)
Lemma fmt_digits_val (w : str) :
  forallb is_digit w = true -> fmt (length w) (digits_val w) = w.
Proof.
  induction w as [|c w IH] using rev_ind; intros H; [reflexivity|].
  rewrite forallb_app in H. apply andb_prop in H as [Hw Hc].
  cbn [forallb] in Hc. rewrite andb_true_r in Hc.
  destruct (digit_val_range c Hc) as [Hr Hch].
  rewrite digits_val_snoc, length_app. cbn [length].
  rewrite Nat.add_1_r. cbn [fmt].
  replace ((10 * digits_val w + digit_val c) / 10) with (digits_val w)
    by (Z.to_euclidean_division_equations; lia).
  replace ((10 * digits_val w + digit_val c) mod 10) with (digit_val c)
    by (Z.to_euclidean_division_equations; lia).
  now rewrite (IH Hw), Hch.
Qed.

(** Two runs of digits of the same length with the same value are the
    same run. *)
Lemma digits_val_inj (a b : str) :
  forallb is_digit a = true -> forallb is_digit b = true ->
  length a = length b -> digits_val a = digits_val b -> a = b.
Proof.
  intros Ha Hb Hlen Hv.
  rewrite <- (fmt_digits_val a Ha), <- (fmt_digits_val b Hb).
  now rewrite Hlen, Hv.
Qed.

Lemma total_us_of_seconds (n : Z) :
  total_us (timedelta_of_seconds n) = n * 1000000.
Proof.
  unfold total_us, timedelta_of_seconds; cbn [days seconds microseconds].
  Z.to_euclidean_division_equations; lia.
Qed.

End DecimalFacts.

(** ** Designators *)

Section DesignatorFacts.

Local Open Scope Z_scope.

Lemma digits_val_app (a b : str) :
  digits_val (a ++ b) = digits_val a * 10 ^ Z.of_nat (length b) + digits_val b.
Proof.
  induction b as [|c b IH] using rev_ind.
  - rewrite app_nil_r. cbn [length]. change (digits_val []) with 0.
    change (10 ^ Z.of_nat 0) with 1. lia.
  - rewrite app_assoc, !digits_val_snoc, IH, length_app. cbn [length].
    rewrite Nat2Z.inj_add, Z.pow_add_r by lia.
    change (10 ^ Z.of_nat 1) with 10. lia.
Qed.

Lemma digits_no_colon (w : str) :
  forallb is_digit w = true -> contains ":" w = false.
Proof.
  unfold contains. induction w as [|x w IH]; cbn [existsb forallb]; auto.
  intros Hw; apply andb_prop in Hw as [Hx Hw].
  rewrite (digit_not_sym x) by (auto; reflexivity). auto.
Qed.

Lemma split_hh_mm (hh mm : str) :
  forallb is_digit hh = true -> forallb is_digit mm = true ->
  split ":" (hh ++ chars ":" ++ mm) = [hh; mm].
Proof.
  intros dh dm. cbn [chars list_ascii_of_string app].
  pose proof (digits_no_colon _ dm) as Hm0.
  induction hh as [|x w IH].
  - cbn [app split]. rewrite Ascii.eqb_refl.
    now rewrite (contains_false_split _ _ Hm0).
  - cbn [forallb] in dh. apply andb_prop in dh as [Hx Hw].
    cbn [app split]. rewrite (digit_not x) by (auto; reflexivity).
    now rewrite (IH Hw).
Qed.

Lemma sign_not_Z (c : ascii) (w : str) :
  plus_or_minus c = true -> str_eqb (c :: w) (chars "Z") = false.
Proof.
  intros Hc. unfold str_eqb, text.
  cbn [string_of_list_ascii chars list_ascii_of_string String.eqb].
  destruct (sign_cases c Hc) as [-> | ->]; reflexivity.
Qed.

Lemma py_int_run (w : str) :
  forallb is_digit w = true -> (0 < length w)%nat ->
  py_int w = Ok (digits_val w).
Proof.
  intros Hw Hl. apply py_int_digits; auto.
  destruct w; [simpl in Hl; lia|discriminate].
Qed.

(** The minutes the code computes for each form of designator: with a
    colon [HH * 60 + MM]; for [+HH], [HH * 60]; and for [+HHMM], where
    all four digits are read as hours, [(HH * 100 + MM) * 60]. *)
Lemma offset_minutes_forms (c : ascii) (hh mm : str) :
  plus_or_minus c = true -> two_digits hh -> two_digits mm ->
  offset_minutes (c :: hh ++ chars ":" ++ mm) (hh ++ chars ":" ++ mm)
  = Ok (digits_val hh * 60 + digits_val mm)
  /\ offset_minutes (c :: hh) hh = Ok (digits_val hh * 60)
  /\ offset_minutes (c :: hh ++ mm) (hh ++ mm)
     = Ok ((digits_val hh * 100 + digits_val mm) * 60).
Proof.
  intros Hc [dh lh] [dm lm].
  assert (Hc0 : Ascii.eqb ":" c = false)
    by (destruct (sign_cases c Hc) as [-> | ->]; reflexivity).
  unfold offset_minutes, contains. cbn [existsb]. rewrite Hc0.
  cbn [orb]. fold (contains ":" (hh ++ chars ":" ++ mm)).
  fold (contains ":" hh). fold (contains ":" (hh ++ mm)).
  repeat split.
  - assert (Hin : contains ":" (hh ++ chars ":" ++ mm) = true).
    { unfold contains. rewrite existsb_app.
      cbn [chars list_ascii_of_string app existsb].
      rewrite Ascii.eqb_refl. now rewrite orb_true_r. }
    rewrite Hin, split_hh_mm by assumption.
    rewrite !py_int_run by (auto; lia). reflexivity.
  - rewrite digits_no_colon by assumption.
    rewrite py_int_run by (auto; lia). reflexivity.
  - assert (dhm : forallb is_digit (hh ++ mm) = true)
      by (rewrite forallb_app, dh, dm; reflexivity).
    rewrite digits_no_colon by assumption.
    rewrite py_int_run by (auto; rewrite length_app; lia).
    cbn [Py.bind]. rewrite digits_val_app, lm.
    change (10 ^ Z.of_nat 2) with 100. reflexivity.
Qed.

End DesignatorFacts.

(** ** Canonical texts *)

Section CanonicalFacts.

Local Open Scope Z_scope.

Variables Y M D h mi S : str.
Hypothesis HY : forallb is_digit Y = true /\ length Y = 4%nat.
Hypothesis HM : two_digits M.
Hypothesis HD : two_digits D.
Hypothesis Hh : two_digits h.
Hypothesis Hmi : two_digits mi.
Hypothesis HS : two_digits S.

Lemma offset_text_head (o : option (ascii * str * str)) :
  offset_ok o ->
  take_while is_digit (offset_text o) = []
  /\ match offset_text o with
     | [] => True
     | c :: _ => Ascii.eqb "." c = false
     end.
Proof.
  destruct o as [[[c hh] mm]|]; cbn [offset_ok offset_text take_while];
    [|auto].
  intros (Hc & _). destruct (sign_cases c Hc) as [-> | ->]; auto.
Qed.

Lemma tail_k_offset_text (o : option (ascii * str * str)) (g : groups) :
  offset_ok o ->
  tail_k (offset_text o) g
  = Some (match o with
          | Some (c, hh, mm) => [("tzinfo", c :: hh ++ chars ":" ++ mm)]
          | None => []
          end ++ g).
Proof.
  destruct o as [[[c hh] mm]|]; cbn [offset_ok offset_text].
  - intros (Hc & Hhh & Hmm). now apply tail_k_offset.
  - intros _. apply tail_k_end.
Qed.

(** The pattern matches a text of this shape, with these captures. *)
Lemma match_shaped (f : option str) (o : option (ascii * str * str)) :
  fraction_ok f -> offset_ok o ->
  re_match _iso8601_datetime_re (shaped Y M D h mi S f o)
  = Some (captures Y M D h mi S f o).
Proof.
  intros Hf Ho.
  destruct HY as [dY lY], HM as [dM lM], HD as [dD lD], Hh as [dh lh],
    Hmi as [dmi lmi], HS as [dS lS].
  destruct (offset_text_head o Ho) as [Hnd Hndot].
  unfold re_match, shaped. rewrite datetime_re_unfold.
  cbn [chars list_ascii_of_string app].
  rewrite run_seq. apply run_grp_digits_complete; auto; try lia.
  rewrite run_seq, run_lit_hit.
  rewrite run_seq. apply run_grp_digits_complete; auto; try lia.
  rewrite run_seq, run_lit_hit.
  rewrite run_seq. apply run_grp_digits_complete; auto; try lia.
  rewrite run_seq, run_cls_hit by reflexivity.
  rewrite run_seq. apply run_grp_digits_complete; auto; try lia.
  rewrite run_seq, run_lit_hit.
  rewrite run_seq. apply run_grp_digits_complete; auto; try lia.
  rewrite run_seq.
  change (fun s' g' => run (Seq (opt tzinfo_re) Eos) s' g'
                         (fun _ g'' => Some g'')) with tail_k.
  apply run_opt_take. unfold seconds_re. cbn [seq].
  rewrite run_seq, run_lit_hit.
  rewrite run_seq. apply run_grp_digits_complete; auto; try lia.
  unfold captures.
  destruct f as [F|]; cbn [fraction_text fraction_ok app] in *.
  - destruct Hf as [dF lF].
    apply run_opt_take. unfold fraction_re. cbn [seq].
    cbn [chars list_ascii_of_string app].
    rewrite run_seq, run_lit_hit.
    rewrite run_seq. apply run_grp_digits_complete; auto; try lia.
    rewrite <- (app_nil_l (offset_text o)).
    apply run_digits_complete; auto; try (cbn [length]; lia).
    rewrite (tail_k_offset_text o _ Ho).
    reflexivity.
  - rewrite run_opt_skip by (apply run_lit_miss; exact Hndot).
    rewrite (tail_k_offset_text o _ Ho).
    reflexivity.
Qed.

Lemma captures_lookup (f : option str) (o : option (ascii * str * str)) :
  let g := captures Y M D h mi S f o in
  lookup "year" g = Some Y /\ lookup "month" g = Some M
  /\ lookup "day" g = Some D /\ lookup "hour" g = Some h
  /\ lookup "minute" g = Some mi /\ lookup "second" g = Some S
  /\ lookup "microsecond" g = f
  /\ lookup "tzinfo" g = match o with
                         | Some _ => Some (offset_text o)
                         | None => None
                         end.
Proof.
  destruct f as [F|], o as [[[c hh] mm]|]; repeat split; reflexivity.
Qed.

Lemma two_digits_int (w : str) :
  two_digits w -> py_int w = Ok (digits_val w).
Proof.
  intros [Hw Hl]. apply py_int_digits; auto.
  destruct w; [discriminate|congruence].
Qed.

(** What the code computes from the [tzinfo] capture of such a text. *)
Lemma parse_tzinfo_shaped (f : option str) (o : option (ascii * str * str)) :
  offset_ok o ->
  match o with
  | Some (c, hh, mm) => digits_val hh <= 23 /\ digits_val mm <= 59
  | None => True
  end ->
  parse_tzinfo (captures Y M D h mi S f o)
  = Ok (tzinfo (shaped_datetime Y M D h mi S f o)).
Proof.
  intros Ho Hr. unfold parse_tzinfo.
  destruct (captures_lookup f o) as (_ & _ & _ & _ & _ & _ & _ & ->).
  destruct o as [[[c hh] mm]|]; [|reflexivity].
  destruct Ho as (Hc & Hhh & Hmm). destruct Hr as [Hr1 Hr2].
  cbn [offset_text shaped_datetime tzinfo].
  rewrite (sign_not_Z c _ Hc).
  destruct (offset_minutes_forms c hh mm Hc Hhh Hmm) as (-> & _).
  cbn [Py.bind]. unfold get_fixed_timezone, mk_timezone.
  rewrite total_us_of_seconds.
  fold (offset_value c hh mm).
  assert (Hb : (-86400000000 <? offset_value c hh mm * 60 * 1000000)
               && (offset_value c hh mm * 60 * 1000000 <? 86400000000)
               = true).
  { destruct Hhh as [dh _]. destruct Hmm as [dm _].
    pose proof (digits_val_range _ dh) as [? _].
    pose proof (digits_val_range _ dm) as [? _].
    unfold offset_value.
    apply andb_true_intro; split; [apply Z.ltb_lt|apply Z.ltb_lt];
      destruct (Ascii.eqb c "-"); lia. }
  rewrite Hb. reflexivity.
Qed.

Lemma check_time_fields_us (a b c us : Z) :
  check_time_fields a b c 0 = Ok tt ->
  0 <= us <= 999999 ->
  check_time_fields a b c us = Ok tt.
Proof.
  unfold check_time_fields.
  destruct (between 0 a 23); cbn [negb]; [|discriminate].
  destruct (between 0 b 59); cbn [negb]; [|discriminate].
  destruct (between 0 c 59); cbn [negb]; [|discriminate].
  intros _ Hus. unfold between.
  replace (0 <=? us) with true by (symmetry; apply Z.leb_le; lia).
  replace (us <=? 999999) with true by (symmetry; apply Z.leb_le; lia).
  reflexivity.
Qed.

(** Parsing a text of this shape whose fields exist gives the datetime
    it stands for. *)
Lemma from_iso_datetime_shaped (f : option str)
      (o : option (ascii * str * str)) :
  fraction_ok f -> offset_ok o ->
  check_date_fields (digits_val Y) (digits_val M) (digits_val D) = Ok tt ->
  check_time_fields (digits_val h) (digits_val mi) (digits_val S) 0
  = Ok tt ->
  match o with
  | Some (c, hh, mm) => digits_val hh <= 23 /\ digits_val mm <= 59
  | None => True
  end ->
  from_iso_datetime (text (shaped Y M D h mi S f o))
  = Ok (shaped_datetime Y M D h mi S f o).
Proof.
  intros Hf Ho Hdate Htime Hoff.
  unfold from_iso_datetime, chars, text.
  rewrite list_ascii_of_string_of_list_ascii.
  rewrite (match_shaped f o Hf Ho).
  pose proof (parse_tzinfo_shaped f o Ho Hoff) as Htz.
  destruct (captures_lookup f o) as (L1 & L2 & L3 & L4 & L5 & L6 & L7 & _).
  cbv zeta in *.
  unfold group_int, group_second, group_microsecond.
  rewrite L1, L2, L3, L4, L5, L6, L7, Htz.
  assert (HYv : py_int Y = Ok (digits_val Y)).
  { destruct HY as [dY lY]. apply py_int_digits; auto.
    destruct Y; [discriminate|congruence]. }
  rewrite HYv.
  rewrite (two_digits_int _ HM), (two_digits_int _ HD),
    (two_digits_int _ Hh), (two_digits_int _ Hmi).
  cbn [Py.bind].
  assert (HSv : match S with
                | [] => Ok 0
                | c :: s => py_int (c :: s)
                end = Ok (digits_val S)).
  { rewrite <- (two_digits_int _ HS). destruct HS as [_ lS].
    destruct S; [discriminate|reflexivity]. }
  rewrite HSv. cbn [Py.bind].
  assert (Hus : match f with
                | Some (c :: s) => py_int (ljust 6 "0" (c :: s))
                | _ => Ok 0
                end
                = Ok (microsecond (shaped_datetime Y M D h mi S f o))
                /\ 0 <= microsecond (shaped_datetime Y M D h mi S f o)
                   <= 999999).
  { cbn [shaped_datetime microsecond].
    destruct f as [F|]; [|split; [reflexivity|lia]].
    destruct Hf as [dF lF].
    pose proof (digits_val_range _ dF) as HR. rewrite lF in HR.
    change (10 ^ Z.of_nat 6) with 1000000 in HR.
    split; [|lia].
    assert (HL : ljust 6 "0" F = F).
    { unfold ljust. rewrite lF. cbn [Nat.sub repeat]. apply app_nil_r. }
    destruct F as [|c w]; [discriminate|].
    rewrite HL. apply py_int_digits; [discriminate|assumption]. }
  destruct Hus as [Hus Hrange]. rewrite Hus. cbn [Py.bind].
  unfold mk_datetime. rewrite Hdate.
  rewrite (check_time_fields_us _ _ _ _ Htime Hrange).
  reflexivity.
Qed.

Lemma fmt_digits (n : nat) (w : str) :
  forallb is_digit w = true -> length w = n -> fmt n (digits_val w) = w.
Proof.
  intros Hw <-. now apply fmt_digits_val.
Qed.

(** The offset suffix that [isoformat] writes for the value of an offset
    text is that text, except that [-00:00] comes back as [+00:00]. *)
Lemma format_offset_value (c : ascii) (hh mm : str) :
  plus_or_minus c = true -> two_digits hh -> two_digits mm ->
  digits_val hh <= 23 -> digits_val mm <= 59 ->
  (c = "-"%char -> digits_val hh * 60 + digits_val mm <> 0) ->
  format_offset (timedelta_of_seconds (offset_value c hh mm * 60))
  = c :: hh ++ chars ":" ++ mm.
Proof.
  intros Hc [dh lh] [dm lm] Hr1 Hr2 Hnz.
  pose proof (digits_val_range _ dh) as [Hh0 _].
  pose proof (digits_val_range _ dm) as [Hm0 _].
  unfold format_offset. rewrite total_us_of_seconds.
  cbn [days timedelta_of_seconds].
  set (H := digits_val hh) in *. set (MI := digits_val mm) in *.
  assert (Hneg : (offset_value c hh mm * 60 / 86400 <? 0)
                 = Ascii.eqb c "-").
  { unfold offset_value. fold H MI.
    destruct (sign_cases c Hc) as [-> | ->]; cbn [Ascii.eqb Bool.eqb andb].
    - apply Z.ltb_ge. Z.to_euclidean_division_equations; lia.
    - specialize (Hnz eq_refl).
      apply Z.ltb_lt. Z.to_euclidean_division_equations; lia. }
  rewrite Hneg.
  assert (Ha : (if Ascii.eqb c "-"
                then - (offset_value c hh mm * 60 * 1000000)
                else offset_value c hh mm * 60 * 1000000)
               = (H * 60 + MI) * 60000000).
  { unfold offset_value. fold H MI. destruct (Ascii.eqb c "-"); lia. }
  rewrite Ha.
  replace ((H * 60 + MI) * 60000000 / 3600000000) with H
    by (Z.to_euclidean_division_equations; lia).
  replace ((H * 60 + MI) * 60000000 mod 3600000000) with (MI * 60000000)
    by (Z.to_euclidean_division_equations; lia).
  replace (MI * 60000000 / 60000000) with MI
    by (Z.to_euclidean_division_equations; lia).
  replace (MI * 60000000 mod 60000000) with 0
    by (Z.to_euclidean_division_equations; lia).
  cbn [Z.eqb]. rewrite app_nil_r.
  unfold H, MI. rewrite (fmt_digits 2 hh), (fmt_digits 2 mm) by assumption.
  destruct (sign_cases c Hc) as [-> | ->]; reflexivity.
Qed.

(** Formatting the datetime that a text of this shape stands for gives
    the text back, unless its fraction is all zeros or its offset is
    [-00:00]. *)
Lemma isoformat_shaped (f : option str) (o : option (ascii * str * str)) :
  fraction_ok f -> offset_ok o ->
  match f with Some F => F <> chars "000000" | None => True end ->
  match o with
  | Some (c, hh, mm) =>
      digits_val hh <= 23 /\ digits_val mm <= 59
      /\ (c = "-"%char -> digits_val hh * 60 + digits_val mm <> 0)
  | None => True
  end ->
  datetime_isoformat (shaped_datetime Y M D h mi S f o)
  = shaped Y M D h mi S f o.
Proof.
  intros Hf Ho Hfnz Hoff.
  destruct HY as [dY lY], HM as [dM lM], HD as [dD lD], Hh as [dh lh],
    Hmi as [dmi lmi], HS as [dS lS].
  unfold datetime_isoformat, shaped, shaped_datetime.
  cbn [year month day hour minute second microsecond tzinfo].
  rewrite (fmt_digits 4 Y), (fmt_digits 2 M), (fmt_digits 2 D),
    (fmt_digits 2 h), (fmt_digits 2 mi), (fmt_digits 2 S) by assumption.
  do 11 f_equal.
  f_equal.
  - destruct f as [F|]; cbn [fraction_text]; [|reflexivity].
    destruct Hf as [dF lF].
    assert (Hnz : digits_val F <> 0).
    { intros H0. apply Hfnz.
      apply digits_val_inj; auto. }
    apply Z.eqb_neq in Hnz. rewrite Hnz.
    now rewrite (fmt_digits 6 F).
  - destruct o as [[[c hh] mm]|]; cbn [offset_text utcoffset]; [|reflexivity].
    destruct Ho as (Hc & Hhh & Hmm). destruct Hoff as (H1 & H2 & H3).
    now apply format_offset_value.
Qed.

End CanonicalFacts.

Section PictureFacts.

Lemma fits_char_inv (x c : ascii) :
  fits_char x c = true ->
  (x = "d"%char /\ is_digit c = true)
  \/ (x = "+"%char /\ plus_or_minus c = true)
  \/ (x <> "d"%char /\ x <> "+"%char /\ c = x).
Proof.
  unfold fits_char.
  destruct (Ascii.eqb x "d") eqn:Ed.
  - apply Ascii.eqb_eq in Ed. auto.
  - destruct (Ascii.eqb x "+") eqn:Ep.
    + apply Ascii.eqb_eq in Ep. auto.
    + apply Ascii.eqb_neq in Ed, Ep. intros H. apply Ascii.eqb_eq in H. auto.
Qed.

Lemma fits_cons_inv (x : ascii) (p s : str) :
  fits (x :: p) s = true ->
  exists c s', s = c :: s' /\ fits_char x c = true /\ fits p s' = true.
Proof.
  destruct s as [|c s']; cbn [fits]; [discriminate|].
  intros H. apply andb_prop in H as [H1 H2]. eauto.
Qed.

Lemma fits_nil_inv (s : str) : fits [] s = true -> s = [].
Proof. destruct s; [auto|discriminate]. Qed.

Lemma str_eqb_refl (a : str) : str_eqb a a = true.
Proof. unfold str_eqb. apply String.eqb_refl. Qed.

End PictureFacts.

(** Read a text off a picture, one character at a time. *)
Ltac fits_char_inv H :=
  let E := fresh "E" in
  let N1 := fresh "N" in
  let N2 := fresh "N" in
  apply fits_char_inv in H;
  destruct H as [[E H]|[[E H]|(N1 & N2 & H)]];
  [ try discriminate E; clear E
  | try discriminate E; clear E
  | try (exfalso; apply N1; reflexivity);
    try (exfalso; apply N2; reflexivity);
    clear N1 N2; subst ].

Ltac fits_inv H :=
  cbn [chars list_ascii_of_string] in H;
  repeat match type of H with
    | fits (_ :: _) _ = true =>
        let c := fresh "c" in
        let Hc := fresh "Hc" in
        apply fits_cons_inv in H; destruct H as (c & ? & ? & Hc & H);
        fits_char_inv Hc; subst
    | fits [] _ = true => apply fits_nil_inv in H; subst
    end.

Section CanonicalShape.

Local Open Scope Z_scope.

Lemma digits2 (a b : ascii) :
  is_digit a = true -> is_digit b = true -> two_digits [a; b].
Proof.
  intros Ha Hb. split; [|reflexivity]. cbn [forallb]. now rewrite Ha, Hb.
Qed.

(** The fraction of a canonical text. *)
Lemma fraction_shape (fr : str) :
  fits (chars ".dddddd") fr && negb (str_eqb fr (chars ".000000")) = true ->
  exists F, fr = chars "." ++ F
            /\ (forallb is_digit F = true /\ length F = 6%nat)
            /\ F <> chars "000000".
Proof.
  intros H. apply andb_prop in H as [H Hnz].
  fits_inv H.
  eexists. split; [reflexivity|]. split; [split; [|reflexivity]|].
  - cbn [forallb].
    repeat match goal with
           | Hd : is_digit _ = true |- _ => rewrite Hd; clear Hd
           end.
    reflexivity.
  - intros E. inversion E; subst. discriminate Hnz.
Qed.

(** The offset of a canonical text, when it has one. *)
Lemma offset_shape (off : str) :
  match off with
  | [] => true
  | _ :: _ =>
      fits (chars "+dd:dd") off && offset_valid off
      && negb (str_eqb off (chars "-00:00"))
  end = true ->
  exists o, off = offset_text o /\ offset_ok o
            /\ match o with
               | Some (c, hh, mm) =>
                   digits_val hh <= 23 /\ digits_val mm <= 59
                   /\ (c = "-"%char ->
                       digits_val hh * 60 + digits_val mm <> 0)
               | None => True
               end.
Proof.
  destruct off as [|x off0]; [exists None; cbn; auto|].
  remember (x :: off0) as off eqn:E. clear E x off0.
  intros H. apply andb_prop in H as [H Hnz]. apply andb_prop in H as [H Hv].
  fits_inv H.
  unfold offset_valid, piece in Hv. cbn [skipn firstn] in Hv.
  apply andb_prop in Hv as [Hv1 Hv2].
  apply Z.leb_le in Hv1, Hv2.
  match goal with
  | Hs : plus_or_minus ?c = true,
    Hv1 : digits_val [?a1; ?a2] <= 23, Hv2 : digits_val [?b1; ?b2] <= 59
    |- _ =>
      exists (Some (c, [a1; a2], [b1; b2]));
      assert (T1 : two_digits [a1; a2]) by (apply digits2; assumption);
      assert (T2 : two_digits [b1; b2]) by (apply digits2; assumption)
  end.
  cbn [offset_text offset_ok].
  repeat split; auto; try apply T1; try apply T2.
  intros -> Hz.
  destruct T1 as [d1 _], T2 as [d2 _].
  pose proof (digits_val_range _ d1) as [? _].
  pose proof (digits_val_range _ d2) as [? _].
  match type of d1 with
  | forallb is_digit ?w = true =>
      assert (E1 : w = chars "00")
        by (apply digits_val_inj; auto;
            change (digits_val (chars "00")) with 0; lia)
  end.
  match type of d2 with
  | forallb is_digit ?w = true =>
      assert (E2 : w = chars "00")
        by (apply digits_val_inj; auto;
            change (digits_val (chars "00")) with 0; lia)
  end.
  inversion E1; inversion E2; subst. discriminate Hnz.
Qed.

(** A canonical text, taken apart. *)
Lemma canonical_shape (l : str) :
  canonical l = true ->
  exists Y M D h mi S f o,
    l = shaped Y M D h mi S f o
    /\ (forallb is_digit Y = true /\ length Y = 4%nat)
    /\ two_digits M /\ two_digits D /\ two_digits h /\ two_digits mi
    /\ two_digits S
    /\ fraction_ok f /\ offset_ok o
    /\ check_date_fields (digits_val Y) (digits_val M) (digits_val D)
       = Ok tt
    /\ check_time_fields (digits_val h) (digits_val mi) (digits_val S) 0
       = Ok tt
    /\ match f with Some F => F <> chars "000000" | None => True end
    /\ match o with
       | Some (c, hh, mm) =>
           digits_val hh <= 23 /\ digits_val mm <= 59
           /\ (c = "-"%char -> digits_val hh * 60 + digits_val mm <> 0)
       | None => True
       end.
Proof.
  unfold canonical. cbv zeta. intros H.
  apply andb_prop in H as [H HD]. apply andb_prop in H as [H HC].
  apply andb_prop in H as [HA HB].
  set (rest := skipn 19 l) in *.
  pose proof (firstn_skipn 19 l) as El. fold rest in El.
  remember (firstn 19 l) as b eqn:Eb. clear Eb. clearbody rest.
  fits_inv HA.
  unfold fields_valid, piece in HB. cbn [app skipn firstn] in HB.
  destruct (check_date_fields (digits_val [c; c0; c1; c2])
              (digits_val [c3; c4]) (digits_val [c5; c6]))
    as [[]|] eqn:Hdate; [|discriminate].
  destruct (check_time_fields (digits_val [c7; c8]) (digits_val [c9; c10])
              (digits_val [c11; c12]) 0)
    as [[]|] eqn:Htime; [|discriminate].
  clear HB.
  assert (Hpieces :
    forall f o,
      rest = fraction_text f ++ offset_text o ->
      [c; c0; c1; c2; "-"%char; c3; c4; "-"%char; c5; c6; "T"%char; c7; c8;
       ":"%char; c9; c10; ":"%char; c11; c12] ++ rest
      = shaped [c; c0; c1; c2] [c3; c4] [c5; c6] [c7; c8] [c9; c10]
          [c11; c12] f o) by (intros f o ->; reflexivity).
  assert (HY : forallb is_digit [c; c0; c1; c2] = true
               /\ length [c; c0; c1; c2] = 4%nat)
    by (split; [cbn [forallb]; now rewrite Hc, Hc0, Hc1, Hc2|reflexivity]).
  pose proof (digits2 _ _ Hc3 Hc4) as TM.
  pose proof (digits2 _ _ Hc5 Hc6) as TD.
  pose proof (digits2 _ _ Hc7 Hc8) as Th.
  pose proof (digits2 _ _ Hc9 Hc10) as Tmi.
  pose proof (digits2 _ _ Hc11 Hc12) as TS.
  assert (Hdone :
    forall f o,
      rest = fraction_text f ++ offset_text o ->
      fraction_ok f -> offset_ok o ->
      match f with Some F => F <> chars "000000" | None => True end ->
      match o with
      | Some (c, hh, mm) =>
          digits_val hh <= 23 /\ digits_val mm <= 59
          /\ (c = "-"%char -> digits_val hh * 60 + digits_val mm <> 0)
      | None => True
      end ->
      exists Y M D h mi S f o,
        [c; c0; c1; c2; "-"%char; c3; c4; "-"%char; c5; c6; "T"%char; c7;
         c8; ":"%char; c9; c10; ":"%char; c11; c12] ++ rest
        = shaped Y M D h mi S f o
        /\ (forallb is_digit Y = true /\ length Y = 4%nat)
        /\ two_digits M /\ two_digits D /\ two_digits h /\ two_digits mi
        /\ two_digits S
        /\ fraction_ok f /\ offset_ok o
        /\ check_date_fields (digits_val Y) (digits_val M) (digits_val D)
           = Ok tt
        /\ check_time_fields (digits_val h) (digits_val mi) (digits_val S) 0
           = Ok tt
        /\ match f with Some F => F <> chars "000000" | None => True end
        /\ match o with
           | Some (c, hh, mm) =>
               digits_val hh <= 23 /\ digits_val mm <= 59
               /\ (c = "-"%char ->
                   digits_val hh * 60 + digits_val mm <> 0)
           | None => True
           end).
  { intros f o Er Hf Ho Hfz Hoz.
    exists [c; c0; c1; c2], [c3; c4], [c5; c6], [c7; c8], [c9; c10],
      [c11; c12], f, o.
    repeat (split; [solve [auto]|]). exact Hoz. }
  destruct rest as [|r0 rest'].
  - apply (Hdone None None); cbn; auto.
  - destruct (Ascii.eqb r0 ".") eqn:Edot; cbn [negb orb] in HC.
    + apply fraction_shape in HC. destruct HC as (F & EF & HF & HFz).
      apply offset_shape in HD. destruct HD as (o & Eo & Ho & Hoz).
      apply (Hdone (Some F) o); auto.
      rewrite <- (firstn_skipn 7 (r0 :: rest')). rewrite EF, Eo. reflexivity.
    + destruct (offset_shape (r0 :: rest') HD) as (o & Eo & Ho & Hoz).
      apply (Hdone None o); cbn [fraction_ok]; auto.
Qed.

End CanonicalShape.

(** ** Parsing and formatting *)

(** A text in the canonical form of the claim C7, in its own words (a
    fixed offset written as [+HH:MM], zero-padded fields, six-digit
    microseconds), that does not come back: the fraction [.000000] is
    parsed to microsecond 0, which [isoformat] leaves out.  Likewise the
    offset [-00:00] is parsed to the offset 0 and written [+00:00]. *)
Lemma isoformat_drops_zero_fraction :
  canonical_as_claimed (chars "2024-01-15T10:30:00.000000+00:00") = true
  /\ (d <- from_iso_datetime "2024-01-15T10:30:00.000000+00:00" ;;
      Ok (isoformat d))
     = Ok "2024-01-15T10:30:00+00:00"
  /\ "2024-01-15T10:30:00+00:00" <> "2024-01-15T10:30:00.000000+00:00"
  /\ canonical_as_claimed (chars "2024-01-15T10:30:00.250000-00:00") = true
  /\ (d <- from_iso_datetime "2024-01-15T10:30:00.250000-00:00" ;;
      Ok (isoformat d))
     = Ok "2024-01-15T10:30:00.250000+00:00".
Proof.
  split; [reflexivity|]. split; [reflexivity|]. split; [discriminate|].
  split; reflexivity.
Qed.

(** C7, amended to the canonical form that [isoformat] writes.  For every
    text [YYYY-MM-DDTHH:MM:SS] with zero-padded fields that name a real
    date and time, followed by no fraction or by ['.'] and six digits
    that are not all zeros, followed by no offset or by an offset
    [+HH:MM] or [-HH:MM] with hours up to 23 and minutes up to 59 other
    than [-00:00]: [from_iso_datetime] accepts the text and [isoformat]
    of the result is the text. *)
Theorem isoformat_roundtrip_canonical (value : string) :
  canonical (chars value) = true ->
  exists d, from_iso_datetime value = Ok d /\ isoformat d = value.
Proof.
  intros H. apply canonical_shape in H.
  destruct H as (Y & M & D & h & mi & S & f & o & El & HY & HM & HD & Hh
                 & Hmi & HS & Hf & Ho & Hdate & Htime & Hfz & Hoz).
  assert (Ev : value = text (shaped Y M D h mi S f o)).
  { rewrite <- El. unfold text, chars.
    now rewrite string_of_list_ascii_of_string. }
  exists (shaped_datetime Y M D h mi S f o). split.
  - rewrite Ev. apply from_iso_datetime_shaped; auto.
    destruct o as [[[c hh] mm]|]; [|exact I]. tauto.
  - unfold isoformat. rewrite isoformat_shaped; auto.
Qed.

(** The theorem at a text with a fraction and a negative offset. *)
Lemma isoformat_roundtrip_canonical_witness :
  exists d,
    from_iso_datetime "2024-02-29T23:59:07.001500-05:30" = Ok d
    /\ isoformat d = "2024-02-29T23:59:07.001500-05:30".
Proof.
  exact (isoformat_roundtrip_canonical
           "2024-02-29T23:59:07.001500-05:30" eq_refl).
Defined.

(* ================================================================== *)
(** * Further properties *)

(** ** [get_value] with an integer key, and [pluck] *)

(** X1.  With an integer key the default is never used: whatever
    [get_value] returns is what the subscript returned; and when the
    object is subscriptable and the subscript fails with one of the four
    swallowed classes, the call raises [TypeError], from the fall-back
    [getattr], which wants a string. *)
Theorem get_value_integer_key_only_subscript
        (obj : pyobject) (i : Z) (default : option value) :
  (forall v, get_value obj (KInt i) default = Ok v ->
             item obj (KInt i) = Ok v)
  /\ (forall e, hasattr obj "__getitem__" = Ok true ->
                item obj (KInt i) = Raise e -> swallowed e = true ->
                get_value obj (KInt i) default
                = Raise (Exn TypeError
                           "attribute name must be string, not 'int'")).
Proof.
  unfold get_value, getattr. split.
  - intros v.
    destruct (hasattr obj "__getitem__") as [[|]|e0]; cbn [Py.bind negb];
      try discriminate.
    destruct (item obj (KInt i)) as [w|e1]; [auto|].
    destruct (swallowed e1); discriminate.
  - intros e -> -> ->. reflexivity.
Qed.

(** The theorem at [get_value([1, 2, 3], 1)]. *)
Lemma get_value_integer_key_only_subscript_witness :
  item (py_list [VInt 1; VInt 2; VInt 3]) (KInt 1) = Ok (VInt 2).
Proof.
  exact (proj1 (get_value_integer_key_only_subscript
                  (py_list [VInt 1; VInt 2; VInt 3]) 1 None)
               (VInt 2) eq_refl).
Defined.

(** X2.  [pluck] returns a list exactly when every record has the key,
    and the list then holds [d[key]] for each record, in the order of the
    records. *)
Theorem pluck_ok_iff (dictlist : list pyobject) (k : key) (vs : list value) :
  pluck dictlist k = Ok vs
  <-> Forall2 (fun d v => item d k = Ok v) dictlist vs.
Proof.
  revert vs; induction dictlist as [|d ds IH]; intros vs; cbn [pluck].
  - split.
    + intros H; inversion H; constructor.
    + intros H; inversion H; reflexivity.
  - split.
    + intros H.
      destruct (item d k) as [v|e] eqn:E; cbn [Py.bind] in H;
        [|discriminate].
      destruct (pluck ds k) as [ws|e] eqn:E'; cbn [Py.bind] in H;
        [|discriminate].
      inversion H; subst. constructor; [assumption|]. now apply IH.
    + intros H. inversion H as [|? v ? ws Hd Hds]; subst.
      rewrite Hd. cbn [Py.bind].
      apply IH in Hds. rewrite Hds. reflexivity.
Qed.

(** X3.  [pluck] raises exactly when some record lacks the key, and what
    it raises is the exception of the first such record: the records
    before it had the key, those after it are not looked at. *)
Theorem pluck_raises_at_first_failure
        (dictlist : list pyobject) (k : key) (e : exn) :
  pluck dictlist k = Raise e
  <-> exists pre d rest,
        dictlist = pre ++ d :: rest
        /\ Forall (fun x => exists v, item x k = Ok v) pre
        /\ item d k = Raise e.
Proof.
  induction dictlist as [|d ds IH]; cbn [pluck].
  - split; [discriminate|].
    intros (pre & d & rest & H & _). destruct pre; discriminate.
  - split.
    + intros H.
      destruct (item d k) as [v|e0] eqn:E; cbn [Py.bind] in H.
      * destruct (pluck ds k) as [ws|e1] eqn:E'; cbn [Py.bind] in H;
          [discriminate|].
        inversion H; subst e1.
        destruct (proj1 IH eq_refl) as (pre & d' & rest & -> & Hpre & Hd).
        exists (d :: pre), d', rest. repeat split; auto.
        constructor; eauto.
      * inversion H; subst e0.
        exists [], d, ds. repeat split; auto.
    + intros (pre & d' & rest & H & Hpre & Hd).
      destruct pre as [|x pre]; cbn [app] in H; inversion H; subst.
      * rewrite Hd. reflexivity.
      * inversion Hpre as [|? ? [v Hv] Hpre']; subst.
        rewrite Hv. cbn [Py.bind].
        assert (Hr : pluck (pre ++ d' :: rest) k = Raise e)
          by (apply IH; exists pre, d', rest; auto).
        rewrite Hr. reflexivity.
Qed.

(** ** [set_value]: what changes and what does not *)

Section FrameFacts.

Lemma dict_get_set_other (k k' : string) (v : value) (d : items) :
  k' <> k -> dict_get k' (dict_set k v d) = dict_get k' d.
Proof.
  intros Hne. induction d as [|[k0 v0] d IH]; cbn [dict_set dict_get].
  - destruct (String.eqb k' k) eqn:E; [|reflexivity].
    apply String.eqb_eq in E. congruence.
  - destruct (String.eqb k k0) eqn:E; cbn [dict_get].
    + apply String.eqb_eq in E; subst k0.
      destruct (String.eqb k' k) eqn:E'; [|reflexivity].
      apply String.eqb_eq in E'. congruence.
    + now rewrite IH.
Qed.

Lemma dict_set_keys (k : string) (v : value) (d : items) :
  map fst (dict_set k v d)
  = match dict_get k d with
    | Some _ => map fst d
    | None => map fst d ++ [k]
    end.
Proof.
  induction d as [|[k0 v0] d IH]; cbn [dict_set dict_get map fst app];
    [reflexivity|].
  destruct (String.eqb k k0) eqn:E; cbn [map fst]; [reflexivity|].
  rewrite IH. now destruct (dict_get k d).
Qed.

Lemma count_instances_app (c : class) (a b : store) :
  count_instances c (a ++ b) = count_instances c a + count_instances c b.
Proof.
  unfold count_instances. now rewrite filter_app, length_app.
Qed.

Lemma count_instances_set_dict (c : class) (st : store) (a : addr)
      (d d' : items) :
  nth_error st a = Some (ODict d) ->
  count_instances c (store_set st a (ODict d')) = count_instances c st.
Proof.
  revert a; induction st as [|x st IH]; intros [|a] H; cbn in H;
    try discriminate.
  - inversion H; subst. reflexivity.
  - cbn [store_set].
    change (x :: store_set st a (ODict d'))
      with ([x] ++ store_set st a (ODict d')).
    change (x :: st) with ([x] ++ st).
    rewrite !count_instances_app. f_equal. now apply IH.
Qed.

Lemma frame_refl (st : store) : frame st st.
Proof. repeat split; auto; lia. Qed.

Lemma is_dict_bound (st : store) (a : addr) :
  is_dict st (VRef a) = true -> a < length st.
Proof.
  unfold is_dict. destruct (nth_error st a) eqn:E; [|discriminate].
  intros _. eapply nth_error_bound; eauto.
Qed.

Lemma frame_trans (a b c : store) : frame a b -> frame b c -> frame a c.
Proof.
  intros (L1 & C1 & N1 & D1 & F1) (L2 & C2 & N2 & D2 & F2).
  repeat split.
  - lia.
  - intros k. now rewrite C2, C1.
  - intros x o Hx Hd. apply N2; [now apply N1|].
    unfold is_dict in *. rewrite (N1 _ _ Hx Hd).
    now rewrite Hx in Hd.
  - auto.
  - intros x [Hlo Hhi].
    destruct (Nat.lt_ge_cases x (length b)); [apply D2|]; apply F1 || apply F2;
      lia.
Qed.

Lemma frame_set_dict (st : store) (a : addr) (d d' : items) :
  nth_error st a = Some (ODict d) ->
  frame st (store_set st a (ODict d')).
Proof.
  intros H. repeat split.
  - now rewrite length_store_set.
  - intros c. eapply count_instances_set_dict; eauto.
  - intros x o Hx Hd. rewrite store_set_other; auto.
    intros ->. unfold is_dict in Hd. now rewrite H in Hd.
  - intros x Hx. unfold is_dict in *.
    destruct (Nat.eq_dec a x) as [->|Hne].
    + rewrite store_set_same; auto. eapply nth_error_bound; eauto.
    + now rewrite store_set_other.
  - rewrite length_store_set. intros x Hx; lia.
Qed.

Lemma frame_alloc_dict (st : store) (d : items) :
  frame st (st ++ [ODict d]).
Proof.
  repeat split.
  - rewrite length_app; lia.
  - intros c. rewrite count_instances_app. cbn. lia.
  - intros x o Hx _. rewrite nth_error_app1; auto.
    now apply nth_error_bound in Hx.
  - intros x Hx. pose proof (is_dict_bound _ _ Hx).
    unfold is_dict in *. now rewrite nth_error_app1.
  - rewrite length_app. cbn [length]. intros x Hx.
    assert (x = length st) as -> by lia.
    unfold is_dict. rewrite nth_error_app2 by lia.
    now rewrite Nat.sub_diag.
Qed.

Lemma setitem_frame (st : store) (dct : addr) (key : string) (v : value) :
  frame st (fst (setitem st dct key v)).
Proof.
  unfold setitem.
  destruct (nth_error st dct) as [[d|?|? ?]|] eqn:E; cbn [fst];
    try apply frame_refl.
  eapply frame_set_dict; eauto.
Qed.

Lemma walk_frame (parts rest : list string) :
  forall i st dct, frame st (fst (walk parts rest i st dct)).
Proof.
  induction rest as [|part rest IH]; intros i st dct; cbn [walk].
  - apply frame_refl.
  - destruct (nth_error st dct) as [[d|?|? ?]|] eqn:E;
      try apply frame_refl.
    destruct (dict_get part d) as [x|].
    + destruct (is_dict st x); cbn [negb fst]; [|apply frame_refl].
      destruct x; cbn [fst]; try apply frame_refl. apply IH.
    + cbn [alloc].
      eapply frame_trans; [|apply IH].
      eapply frame_trans; [apply (frame_alloc_dict st [])|].
      eapply frame_set_dict.
      rewrite nth_error_app1; eauto. now apply nth_error_bound in E.
Qed.

Lemma set_value_frame_holds (st : store) (dct : addr) (key : string)
      (v : value) :
  frame st (fst (set_value st dct key v)).
Proof.
  unfold set_value. destruct (dotted key); cbn [negb].
  - pose proof (walk_frame (key_parts key) (removelast (key_parts key))
                           0 st dct) as Hw.
    destruct (walk (key_parts key) (removelast (key_parts key)) 0 st dct)
      as [st1 [inner|e]]; cbn [fst] in *; [|assumption].
    eapply frame_trans; [exact Hw|apply setitem_frame].
  - apply setitem_frame.
Qed.

(** Starting from a dict, the loop raises nothing but the conflict, at
    the index of one of the segments it goes through. *)
Lemma walk_raise_conflict (parts rest : list string) :
  forall i st dct st' e,
    (exists d, nth_error st dct = Some (ODict d)) ->
    walk parts rest i st dct = (st', Raise e) ->
    exists j, i <= j < i + length rest /\ e = conflict parts j.
Proof.
  induction rest as [|part rest IH]; intros i st dct st' e [d Hd];
    cbn [walk length].
  - discriminate.
  - rewrite Hd.
    assert (Hi : forall st0,
               (st, @Raise addr (conflict parts i)) = (st0, Raise e) ->
               exists j, i <= j < i + S (length rest)
                         /\ e = conflict parts j)
      by (intros st0 H; inversion H; exists i; split; [lia|reflexivity]).
    assert (Hs : forall st0 a,
               (exists d0, nth_error st0 a = Some (ODict d0)) ->
               walk parts rest (S i) st0 a = (st', Raise e) ->
               exists j, i <= j < i + S (length rest)
                         /\ e = conflict parts j).
    { intros st0 a H0 H.
      destruct (IH _ _ _ _ _ H0 H) as (j & Hj & ->).
      exists j; split; [lia|reflexivity]. }
    destruct (dict_get part d) as [x|].
    + destruct (is_dict st x) eqn:Hx; cbn [negb]; [|apply Hi].
      destruct x; try apply Hi.
      apply Hs. unfold is_dict in Hx.
      destruct (nth_error st a) as [[d'|?|? ?]|]; try discriminate; eauto.
    + cbn [alloc]. apply Hs. exists [].
      rewrite store_set_other.
      * rewrite nth_error_app2 by lia. now rewrite Nat.sub_diag.
      * apply nth_error_bound in Hd; lia.
Qed.

(** Through dicts that are there, the loop changes nothing and ends on
    the dict the path leads to. *)
Lemma walk_descend (parts : list string) (st : store) :
  forall path i dct inner,
    descend st dct path = Some inner ->
    walk parts path i st dct = (st, Ok inner).
Proof.
  induction path as [|p path IH]; intros i dct inner;
    cbn [descend walk].
  - intros H; inversion H; reflexivity.
  - destruct (nth_error st dct) as [[d|?|? ?]|]; try discriminate.
    destruct (dict_get p d) as [[| | | | |a]|]; try discriminate.
    destruct (is_dict st (VRef a)); [|discriminate].
    cbn [negb]. apply IH.
Qed.

End FrameFacts.

Section SegmentFacts.

Lemma string_app_assoc (a b c : string) :
  ((a ++ b) ++ c = a ++ b ++ c)%string.
Proof. induction a as [|x a IH]; cbn; congruence. Qed.

(** ['.'.join(xs + ys)] for two lists that are not empty. *)
Lemma concat_app (sep : string) (xs ys : list string) :
  xs <> [] -> ys <> [] ->
  (String.concat sep (xs ++ ys)
   = String.concat sep xs ++ sep ++ String.concat sep ys)%string.
Proof.
  intros Hx Hy. induction xs as [|x [|x' xs] IH]; [congruence| |].
  - destruct ys; [congruence|reflexivity].
  - change (String.concat sep ((x :: x' :: xs) ++ ys))
      with (x ++ sep ++ String.concat sep ((x' :: xs) ++ ys))%string.
    rewrite IH by discriminate.
    change (String.concat sep (x :: x' :: xs))
      with (x ++ sep ++ String.concat sep (x' :: xs))%string.
    now rewrite !string_app_assoc.
Qed.

(** ['.'.join(s.split('.')) == s] *)
Lemma split_join (s : str) :
  String.concat "." (map text (split "." s)) = text s.
Proof.
  induction s as [|c s IH]; cbn [split]; [reflexivity|].
  destruct (Ascii.eqb c ".") eqn:E.
  - apply Ascii.eqb_eq in E; subst c.
    destruct (split "." s) as [|x xs] eqn:Es;
      [now apply split_not_nil in Es|].
    cbn [map]. cbn [map] in IH.
    change (String.concat "." (text [] :: text x :: map text xs))
      with ("" ++ "." ++ String.concat "." (text x :: map text xs))%string.
    rewrite IH. reflexivity.
  - destruct (split "." s) as [|x xs] eqn:Es;
      [now apply split_not_nil in Es|].
    cbn [map] in *. destruct xs as [|y ys]; cbn [map] in *.
    + change (text x = text s) in IH.
      change (text (c :: x) = text (c :: s)).
      unfold text in *. cbn [string_of_list_ascii]. now rewrite IH.
    + change (String.concat "." (text (c :: x) :: text y :: map text ys))
        with (text (c :: x) ++ "."
              ++ String.concat "." (text y :: map text ys))%string.
      change (String.concat "." (text x :: text y :: map text ys))
        with (text x ++ "."
              ++ String.concat "." (text y :: map text ys))%string in IH.
      change (text (c :: s)) with (String c (text s)).
      rewrite <- IH. reflexivity.
Qed.

Lemma key_parts_join (key : string) :
  String.concat "." (key_parts key) = key.
Proof.
  unfold key_parts. rewrite split_join.
  apply string_of_list_ascii_of_string.
Qed.

Lemma split_long (sep : ascii) (s : str) :
  contains sep s = true -> 2 <= length (split sep s).
Proof.
  unfold contains. induction s as [|c s IH]; cbn [existsb split];
    [discriminate|].
  rewrite Ascii.eqb_sym.
  destruct (Ascii.eqb c sep); cbn [orb].
  - intros _. pose proof (split_not_nil sep s).
    destruct (split sep s); [congruence|cbn; lia].
  - intros H. specialize (IH H).
    destruct (split sep s); cbn in *; lia.
Qed.

(** A key is dotted exactly when it has more than one segment. *)
Lemma key_parts_single (key p : string) :
  key_parts key = [p] -> dotted key = false /\ p = key.
Proof.
  intros H. destruct (dotted key) eqn:E.
  - unfold dotted in E. apply split_long in E.
    unfold key_parts in H.
    apply (f_equal (@length string)) in H. rewrite length_map in H.
    cbn in H. lia.
  - rewrite (key_parts_plain _ E) in H. inversion H; auto.
Qed.

Lemma split_pieces (sep : ascii) (s : str) :
  Forall (fun p => contains sep p = false) (split sep s).
Proof.
  unfold contains. induction s as [|c s IH]; cbn [split].
  - constructor; auto.
  - destruct (Ascii.eqb c sep) eqn:E.
    + constructor; auto.
    + destruct (split sep s) as [|x xs]; [constructor; auto|].
      * cbn. now rewrite Ascii.eqb_sym, E.
      * inversion IH; subst. constructor; auto.
        cbn [existsb]. rewrite Ascii.eqb_sym, E. auto.
Qed.

(** No segment of a key has a dot. *)
Lemma key_parts_plain_segments (key p : string) :
  In p (key_parts key) -> dotted p = false.
Proof.
  unfold key_parts. intros H. apply in_map_iff in H as (x & <- & Hx).
  pose proof (split_pieces "." (chars key)) as F.
  rewrite Forall_forall in F. unfold dotted, chars, text.
  rewrite list_ascii_of_string_of_list_ascii. auto.
Qed.

Lemma length_removelast (A : Type) (l : list A) :
  length (removelast l) = length l - 1.
Proof.
  induction l as [|x [|y l] IH]; cbn [removelast length] in *; lia.
Qed.

Lemma last_app_cons (A : Type) (l : list A) (x d : A) (m : list A) :
  last (l ++ x :: m) d = last (x :: m) d.
Proof.
  induction l as [|y l IH]; [reflexivity|].
  cbn [app]. rewrite <- IH.
  destruct (l ++ x :: m) eqn:E; [destruct l; discriminate|reflexivity].
Qed.

(** The loop goes through the dicts that are there without touching the
    store. *)
Lemma walk_descend_app (parts rest : list string) (st : store) :
  forall pre i dct a,
    descend st dct pre = Some a ->
    walk parts (pre ++ rest) i st dct
    = walk parts rest (i + length pre) st a.
Proof.
  induction pre as [|p pre IH]; intros i dct a;
    cbn [descend walk app length].
  - intros H; inversion H. now rewrite Nat.add_0_r.
  - destruct (nth_error st dct) as [[d|?|? ?]|]; try discriminate.
    destruct (dict_get p d) as [[| | | | |b]|]; try discriminate.
    destruct (is_dict st (VRef b)); [|discriminate].
    cbn [negb]. intros H. rewrite (IH (S i) b a H). f_equal. lia.
Qed.

(** Along dicts that are all there, the assignment is made in place. *)
Lemma set_value_in_place (st : store) (dct : addr) (key : string)
      (v : value) (pre : list string) (p : string) (a : addr) (d : items) :
  key_parts key = pre ++ [p] ->
  descend st dct pre = Some a ->
  nth_error st a = Some (ODict d) ->
  set_value st dct key v
  = (store_set st a (ODict (dict_set p v d)), Ok tt).
Proof.
  intros Hparts Hdesc Ha. unfold set_value.
  destruct (dotted key) eqn:E; cbn [negb].
  - rewrite Hparts, removelast_last, last_last.
    rewrite (walk_descend _ _ _ _ _ _ Hdesc).
    unfold setitem. now rewrite Ha.
  - rewrite (key_parts_plain _ E) in Hparts.
    destruct pre as [|x [|y pre]]; inversion Hparts; subst.
    cbn in Hdesc. inversion Hdesc; subst.
    unfold setitem. now rewrite Ha.
Qed.

(** Below the first missing segment the loop creates one dict per
    intermediate segment. *)
Lemma set_value_extends (st : store) (dct : addr) (key : string)
      (v : value) (pre : list string) (p q : string) (more : list string)
      (a : addr) (d : items) :
  key_parts key = pre ++ p :: q :: more ->
  descend st dct pre = Some a ->
  nth_error st a = Some (ODict d) ->
  dict_get p d = None ->
  set_value st dct key v
  = (store_set st a (ODict (d ++ [(p, VRef (length st))]))
       ++ nest (length st) q more v,
     Ok tt).
Proof.
  intros Hparts Hdesc Ha Hp. unfold set_value.
  rewrite key_parts_long
    by (rewrite Hparts, length_app; cbn [length]; lia).
  cbn [negb]. rewrite Hparts.
  rewrite removelast_app by discriminate.
  assert (R : removelast (p :: q :: more) = p :: removelast (q :: more))
    by reflexivity.
  rewrite R, (walk_descend_app _ _ _ _ _ _ _ Hdesc).
  cbn [walk]. rewrite Ha, Hp. cbn [alloc].
  pose proof (nth_error_bound _ _ _ Ha) as Hlt.
  rewrite store_set_app by assumption.
  rewrite (dict_set_absent _ _ _ Hp).
  set (pre0 := store_set st a (ODict (d ++ [(p, VRef (length st))]))).
  assert (Hlen : length pre0 = length st) by apply length_store_set.
  rewrite <- Hlen.
  rewrite walk_fresh_chain.
  unfold setitem. rewrite chain_last. cbn [dict_set].
  rewrite last_app_cons.
  assert (L : last (p :: q :: more) "" = last (q :: more) "")
    by reflexivity.
  rewrite L. now rewrite chain_fill.
Qed.

End SegmentFacts.

Section ReadFacts.

Lemma get_value_dict_present (d : items) (k : string) (v : value)
      (default : option value) :
  dict_get k d = Some v -> get_value (py_dict d) (KStr k) default = Ok v.
Proof.
  intros H. unfold get_value.
  change (hasattr (py_dict d) "__getitem__") with (@Ok bool true).
  cbn [Py.bind negb item py_dict]. now rewrite H.
Qed.

Lemma get_value_dict_absent (d : items) (k : string)
      (default : option value) :
  dict_get k d = None ->
  get_value (py_dict d) (KStr k) default
  = getattr (py_dict d) (KStr k)
            (match default with Some x => x | None => missing end).
Proof.
  intros H. unfold get_value.
  change (hasattr (py_dict d) "__getitem__") with (@Ok bool true).
  cbn [Py.bind negb item py_dict]. now rewrite H.
Qed.

(** No method of [dict] has a dot in its name. *)
Lemma dotted_not_dict_attr (key : string) :
  dotted key = true ->
  attr_among (dict_attrs ++ object_attrs) key = Raise (no_attribute key).
Proof.
  intros H. unfold attr_among.
  destruct (existsb (String.eqb key) (dict_attrs ++ object_attrs)) eqn:E;
    [|reflexivity].
  apply existsb_exists in E as (x & Hx & Hk).
  apply String.eqb_eq in Hk; subst x.
  assert (F : forallb (fun x => negb (dotted x))
                      (dict_attrs ++ object_attrs) = true)
    by (vm_compute; reflexivity).
  rewrite forallb_forall in F. specialize (F _ Hx).
  rewrite H in F. discriminate.
Qed.

Lemma dict_get_app_present (k : string) (v : value) (d l : items) :
  dict_get k d = Some v -> dict_get k (d ++ l) = Some v.
Proof.
  induction d as [|[k0 v0] d IH]; cbn [dict_get app]; [discriminate|].
  destruct (String.eqb k k0); auto.
Qed.

Lemma dict_get_app_absent (k : string) (d l : items) :
  dict_get k d = None -> dict_get k (d ++ l) = dict_get k l.
Proof.
  induction d as [|[k0 v0] d IH]; cbn [dict_get app]; [reflexivity|].
  destruct (String.eqb k k0); [discriminate|auto].
Qed.

Lemma object_at_dict (st : store) (a : addr) (d : items) :
  nth_error st a = Some (ODict d) -> object_at st a = py_dict d.
Proof. unfold object_at. now intros ->. Qed.

(** Reading the dicts that were created, segment by segment, ends on the
    value. *)
Lemma get_path_nest (v : value) :
  forall (more : list string) (n : addr) (q : string) (pre : store),
    length pre = n ->
    get_path (pre ++ nest n q more v) n (q :: more) = Some (Ok v).
Proof.
  induction more as [|r more IH]; intros n q pre Hn; cbn [nest get_path].
  - rewrite (object_at_dict _ _ [(q, v)])
      by (rewrite <- Hn; apply nth_error_middle).
    rewrite (get_value_dict_present _ _ v)
      by (cbn; now rewrite String.eqb_refl).
    reflexivity.
  - rewrite (object_at_dict _ _ [(q, VRef (S n))])
      by (rewrite <- Hn; apply nth_error_middle).
    rewrite (get_value_dict_present _ _ (VRef (S n)))
      by (cbn; now rewrite String.eqb_refl).
    specialize (IH (S n) r (pre ++ [ODict [(q, VRef (S n))]])).
    rewrite <- app_assoc in IH. cbn [app] in IH.
    apply IH. rewrite length_app. cbn. lia.
Qed.

(** Adding a key to the dict at the end of a path of dicts, and objects
    at the end of the store, leaves the path readable: reading goes on
    from that dict. *)
Lemma get_path_descend (st : store) (a : addr) (d : items) (p : string)
      (x : value) (extra : store) (rest : list string) :
  nth_error st a = Some (ODict d) ->
  forall pre dct,
    descend st dct pre = Some a ->
    get_path (store_set st a (ODict (d ++ [(p, x)])) ++ extra) dct
             (pre ++ p :: rest)
    = get_path (store_set st a (ODict (d ++ [(p, x)])) ++ extra) a
               (p :: rest).
Proof.
  intros Ha. induction pre as [|s pre IH]; intros dct;
    cbn [descend app].
  - intros H; inversion H; reflexivity.
  - destruct (nth_error st dct) as [[d0|?|? ?]|] eqn:Hd; try discriminate.
    destruct (dict_get s d0) as [[| | | | |b]|] eqn:Hs; try discriminate.
    destruct (is_dict st (VRef b)); [|discriminate].
    intros H. cbn [get_path].
    pose proof (nth_error_bound _ _ _ Hd) as Hlt.
    assert (Hv : get_value
                   (object_at (store_set st a (ODict (d ++ [(p, x)]))
                                 ++ extra) dct) (KStr s) None
                 = Ok (VRef b)).
    { destruct (Nat.eq_dec a dct) as [->|Hne].
      - rewrite Ha in Hd; inversion Hd; subst d0.
        rewrite (object_at_dict _ _ (d ++ [(p, x)])).
        + apply get_value_dict_present. now apply dict_get_app_present.
        + rewrite nth_error_app1 by now rewrite length_store_set.
          now apply store_set_same.
      - rewrite (object_at_dict _ _ d0).
        + now apply get_value_dict_present.
        + rewrite nth_error_app1 by now rewrite length_store_set.
          now rewrite store_set_other. }
    rewrite Hv.
    destruct (pre ++ p :: rest) eqn:E; [destruct pre; discriminate|].
    now apply IH.
Qed.

End ReadFacts.

(** X4.  On a store of dicts, lists and instances, whatever the key and
    the value and whether it raises or not, [set_value] removes no
    object, creates and destroys no instance of any class (so [missing]
    stays the only instance of its class), leaves every list and every
    instance as it was, keeps dicts dicts, and creates nothing but
    dicts. *)
Theorem set_value_frame
        (st : store) (dct : addr) (key : string) (v : value) :
  length st <= length (fst (set_value st dct key v))
  /\ (forall c, count_instances c (fst (set_value st dct key v))
                = count_instances c st)
  /\ (forall a o, nth_error st a = Some o ->
                  is_dict st (VRef a) = false ->
                  nth_error (fst (set_value st dct key v)) a = Some o)
  /\ (forall a, is_dict st (VRef a) = true ->
                is_dict (fst (set_value st dct key v)) (VRef a) = true)
  /\ (forall a, length st <= a < length (fst (set_value st dct key v)) ->
                is_dict (fst (set_value st dct key v)) (VRef a) = true).
Proof.
  exact (set_value_frame_holds st dct key v).
Qed.

(** X5.  On a dict, the only exception [set_value] raises is the
    [ValueError] of a conflict, and the path its message names is a
    proper prefix of the key that ends where a dot was: the key is that
    path, a dot and the rest. *)
Theorem set_value_raises_only_conflict
        (st : store) (dct : addr) (d : items) (key : string) (v : value)
        (st' : store) (e : exn) :
  nth_error st dct = Some (ODict d) ->
  set_value st dct key v = (st', Raise e) ->
  exists prefix rest,
    key = (prefix ++ "." ++ rest)%string
    /\ e = Exn ValueError
             ("String path conflicts with current dictionary structure at "
              ++ prefix).
Proof.
  intros Hd. unfold set_value.
  destruct (dotted key); cbn [negb].
  - destruct (walk (key_parts key) (removelast (key_parts key)) 0 st dct)
      as [st1 [inner|e1]] eqn:Hw.
    + destruct (walk_ok_dict _ _ _ _ _ _ _ (ex_intro _ d Hd) Hw) as [d1 H1].
      unfold setitem. rewrite H1. discriminate.
    + intros H; inversion H; subst.
      destruct (walk_raise_conflict _ _ _ _ _ _ _ (ex_intro _ d Hd) Hw)
        as (j & Hj & ->).
      rewrite length_removelast in Hj.
      exists (String.concat "." (firstn (S j) (key_parts key))),
             (String.concat "." (skipn (S j) (key_parts key))).
      split; [|reflexivity].
      rewrite <- concat_app.
      * now rewrite firstn_skipn, key_parts_join.
      * intros E. apply (f_equal (@length string)) in E.
        rewrite length_firstn in E. cbn [length] in E. lia.
      * intros E. apply (f_equal (@length string)) in E.
        rewrite length_skipn in E. cbn [length] in E. lia.
  - unfold setitem. rewrite Hd. discriminate.
Qed.

(** The theorem at [set_value({"a": {"b": 1}}, "a.b.c", 2)]: the message
    names [a.b], and the key is [a.b], a dot and [c]. *)
Lemma set_value_raises_only_conflict_witness :
  exists prefix rest,
    "a.b.c" = (prefix ++ "." ++ rest)%string
    /\ Exn ValueError
         "String path conflicts with current dictionary structure at a.b"
       = Exn ValueError
           ("String path conflicts with current dictionary structure at "
            ++ prefix).
Proof.
  exact (set_value_raises_only_conflict
           [ODict [("a", VRef 1)]; ODict [("b", VInt 1)]] 0
           [("a", VRef 1)] "a.b.c" (VInt 2) _ _ eq_refl eq_refl).
Defined.

(** X6.  When every segment of the key but the last leads through a dict
    that is there (for a key without a dot there is none to go through),
    [set_value] creates nothing: it assigns the last segment in the dict
    the path ends on, in place, and every other object is as it was. *)
Theorem set_value_existing_path_in_place
        (st : store) (dct : addr) (key : string) (v : value)
        (pre : list string) (p : string) (a : addr) (d : items) :
  key_parts key = pre ++ [p] ->
  descend st dct pre = Some a ->
  nth_error st a = Some (ODict d) ->
  set_value st dct key v
  = (store_set st a (ODict (dict_set p v d)), Ok tt).
Proof.
  apply set_value_in_place.
Qed.

(** The theorem at [set_value({"a": {"b": 1}}, "a.b", 2)]. *)
Lemma set_value_existing_path_in_place_witness :
  set_value [ODict [("a", VRef 1)]; ODict [("b", VInt 1)]] 0 "a.b" (VInt 2)
  = ([ODict [("a", VRef 1)]; ODict [("b", VInt 2)]], Ok tt).
Proof.
  exact (set_value_existing_path_in_place
           [ODict [("a", VRef 1)]; ODict [("b", VInt 1)]] 0 "a.b" (VInt 2)
           ["a"] "b" 1 [("b", VInt 1)] eq_refl eq_refl eq_refl).
Defined.

(** X7.  When the path leads through dicts that are there up to a
    segment that is missing, with at least one segment after it,
    [set_value] adds that segment at the end of the dict reached, with a
    new dict, and creates one dict per segment below it, each holding
    only the next, the last one holding the value; nothing else
    changes. *)
Theorem set_value_extends_existing_path
        (st : store) (dct : addr) (key : string) (v : value)
        (pre : list string) (p q : string) (more : list string)
        (a : addr) (d : items) :
  key_parts key = pre ++ p :: q :: more ->
  descend st dct pre = Some a ->
  nth_error st a = Some (ODict d) ->
  dict_get p d = None ->
  set_value st dct key v
  = (store_set st a (ODict (d ++ [(p, VRef (length st))]))
       ++ nest (length st) q more v,
     Ok tt).
Proof.
  apply set_value_extends.
Qed.

(** The theorem at [set_value({"a": {"x": 1}}, "a.b.c", 2)]. *)
Lemma set_value_extends_existing_path_witness :
  set_value [ODict [("a", VRef 1)]; ODict [("x", VInt 1)]] 0 "a.b.c" (VInt 2)
  = ([ODict [("a", VRef 1)]; ODict [("x", VInt 1); ("b", VRef 2)];
      ODict [("c", VInt 2)]], Ok tt).
Proof.
  exact (set_value_extends_existing_path
           [ODict [("a", VRef 1)]; ODict [("x", VInt 1)]] 0 "a.b.c" (VInt 2)
           ["a"] "b" "c" [] 1 [("x", VInt 1)]
           eq_refl eq_refl eq_refl eq_refl).
Defined.

(** X8.  After [set_value] along dicts that are there, [get_value] on the
    dict the path ends on gives the value back under the last segment,
    whatever the default, and gives for every other key what it gave
    before the call. *)
Theorem set_value_then_get_value
        (st : store) (dct : addr) (key : string) (v : value)
        (pre : list string) (p : string) (a : addr) (d : items) :
  key_parts key = pre ++ [p] ->
  descend st dct pre = Some a ->
  nth_error st a = Some (ODict d) ->
  (forall default,
      get_value (object_at (fst (set_value st dct key v)) a) (KStr p)
                default = Ok v)
  /\ (forall k default,
         k <> p ->
         get_value (object_at (fst (set_value st dct key v)) a) (KStr k)
                   default
         = get_value (object_at st a) (KStr k) default).
Proof.
  intros Hparts Hdesc Ha.
  rewrite (set_value_in_place _ _ _ v _ _ _ _ Hparts Hdesc Ha). cbn [fst].
  pose proof (nth_error_bound _ _ _ Ha) as Hlt.
  rewrite (object_at_dict _ _ (dict_set p v d))
    by now apply store_set_same.
  rewrite (object_at_dict _ _ _ Ha).
  split.
  - intros default. apply get_value_dict_present, dict_get_set.
  - intros k default Hk.
    unfold get_value.
    change (hasattr (py_dict (dict_set p v d)) "__getitem__")
      with (@Ok bool true).
    change (hasattr (py_dict d) "__getitem__") with (@Ok bool true).
    cbn [Py.bind negb item py_dict].
    now rewrite dict_get_set_other.
Qed.

(** The theorem at [d = {"a": {"b": 1}}; set_value(d, "a.b", 2)]:
    [get_value(d["a"], "b")] is [2]. *)
Lemma set_value_then_get_value_witness :
  get_value
    (object_at
       (fst (set_value [ODict [("a", VRef 1)]; ODict [("b", VInt 1)]] 0
                       "a.b" (VInt 2))) 1)
    (KStr "b") None
  = Ok (VInt 2).
Proof.
  exact (proj1 (set_value_then_get_value
                  [ODict [("a", VRef 1)]; ODict [("b", VInt 1)]] 0 "a.b"
                  (VInt 2) ["a"] "b" 1 [("b", VInt 1)]
                  eq_refl eq_refl eq_refl) None).
Defined.

(** X9.  After [set_value] has created the dicts below a missing
    segment, reading the key segment by segment with [get_value], from
    the dict the call was made on, ends on the value. *)
Theorem set_value_new_path_reads_back
        (st : store) (dct : addr) (key : string) (v : value)
        (pre : list string) (p q : string) (more : list string)
        (a : addr) (d : items) :
  key_parts key = pre ++ p :: q :: more ->
  descend st dct pre = Some a ->
  nth_error st a = Some (ODict d) ->
  dict_get p d = None ->
  get_path (fst (set_value st dct key v)) dct (key_parts key)
  = Some (Ok v).
Proof.
  intros Hparts Hdesc Ha Hp.
  rewrite (set_value_extends _ _ _ v _ _ _ _ _ _ Hparts Hdesc Ha Hp).
  cbn [fst]. rewrite Hparts.
  rewrite (get_path_descend _ _ _ _ _ _ _ Ha _ _ Hdesc).
  pose proof (nth_error_bound _ _ _ Ha) as Hlt.
  cbn [get_path].
  rewrite (object_at_dict _ _ (d ++ [(p, VRef (length st))])).
  2:{ rewrite nth_error_app1 by now rewrite length_store_set.
      now apply store_set_same. }
  rewrite (get_value_dict_present _ _ (VRef (length st))).
  2:{ rewrite dict_get_app_absent by assumption.
      cbn. now rewrite String.eqb_refl. }
  apply get_path_nest, length_store_set.
Qed.

(** The theorem at [d = {"a": {"x": 1}}; set_value(d, "a.b.c", 2)]. *)
Lemma set_value_new_path_reads_back_witness :
  get_path
    (fst (set_value [ODict [("a", VRef 1)]; ODict [("x", VInt 1)]] 0
                    "a.b.c" (VInt 2)))
    0 ["a"; "b"; "c"]
  = Some (Ok (VInt 2)).
Proof.
  exact (set_value_new_path_reads_back
           [ODict [("a", VRef 1)]; ODict [("x", VInt 1)]] 0 "a.b.c" (VInt 2)
           ["a"] "b" "c" [] 1 [("x", VInt 1)]
           eq_refl eq_refl eq_refl eq_refl).
Defined.

Section DottedFacts.

Lemma same_dotted_refl (st : store) : same_dotted st st.
Proof. intros a d H; eauto. Qed.

Lemma same_dotted_trans (a b c : store) :
  same_dotted a b -> same_dotted b c -> same_dotted a c.
Proof.
  intros H1 H2 x d Hx.
  destruct (H1 _ _ Hx) as (d1 & Hb & E1).
  destruct (H2 _ _ Hb) as (d2 & Hc & E2).
  exists d2; split; auto. intros k Hk. now rewrite E2, E1.
Qed.

Lemma same_dotted_set (st : store) (a : addr) (d : items) (p : string)
      (x : value) :
  nth_error st a = Some (ODict d) -> dotted p = false ->
  same_dotted st (store_set st a (ODict (dict_set p x d))).
Proof.
  intros Ha Hp b d0 Hb.
  destruct (Nat.eq_dec a b) as [->|Hne].
  - rewrite Ha in Hb; inversion Hb; subst d0.
    exists (dict_set p x d). split.
    + apply store_set_same. eapply nth_error_bound; eauto.
    + intros k Hk. apply dict_get_set_other. congruence.
  - exists d0. split; auto. now rewrite store_set_other.
Qed.

Lemma same_dotted_alloc (st : store) (o : object) :
  same_dotted st (st ++ [o]).
Proof.
  intros a d Ha. exists d; split; auto.
  rewrite nth_error_app1; auto. eapply nth_error_bound; eauto.
Qed.

Lemma setitem_same_dotted (st : store) (dct : addr) (p : string)
      (v : value) :
  dotted p = false -> same_dotted st (fst (setitem st dct p v)).
Proof.
  intros Hp. unfold setitem.
  destruct (nth_error st dct) as [[d|?|? ?]|] eqn:E; cbn [fst];
    try apply same_dotted_refl.
  now apply same_dotted_set.
Qed.

Lemma walk_same_dotted (parts rest : list string) :
  Forall (fun p => dotted p = false) rest ->
  forall i st dct, same_dotted st (fst (walk parts rest i st dct)).
Proof.
  induction rest as [|part rest IH]; intros F i st dct; cbn [walk].
  - apply same_dotted_refl.
  - inversion F as [|? ? Hpart F']; subst.
    destruct (nth_error st dct) as [[d|?|? ?]|] eqn:E;
      try apply same_dotted_refl.
    destruct (dict_get part d) as [x|].
    + destruct (is_dict st x); cbn [negb fst]; [|apply same_dotted_refl].
      destruct x; cbn [fst]; try apply same_dotted_refl. now apply IH.
    + cbn [alloc].
      eapply same_dotted_trans; [|now apply IH].
      eapply same_dotted_trans; [apply (same_dotted_alloc st (ODict []))|].
      apply same_dotted_set; auto.
      rewrite nth_error_app1; eauto. now apply nth_error_bound in E.
Qed.

Lemma Forall_removelast (A : Type) (P : A -> Prop) (l : list A) :
  Forall P l -> Forall P (removelast l).
Proof.
  induction 1 as [|x l Hx Hl IH]; cbn [removelast]; [constructor|].
  destruct l; [constructor|]. constructor; auto.
Qed.

Lemma Forall_last (A : Type) (P : A -> Prop) (l : list A) (d : A) :
  Forall P l -> P d -> P (last l d).
Proof.
  induction 1 as [|x l Hx Hl IH]; cbn [last]; auto.
  destruct l; auto.
Qed.

Lemma set_value_same_dotted (st : store) (dct : addr) (key : string)
      (v : value) :
  dotted key = true ->
  same_dotted st (fst (set_value st dct key v)).
Proof.
  intros Hk. unfold set_value. rewrite Hk. cbn [negb].
  assert (F : Forall (fun p => dotted p = false) (key_parts key))
    by (apply Forall_forall; intros p; apply key_parts_plain_segments).
  pose proof (walk_same_dotted (key_parts key) (removelast (key_parts key))
                (Forall_removelast _ _ _ F) 0 st dct) as Hw.
  destruct (walk (key_parts key) (removelast (key_parts key)) 0 st dct)
    as [st1 [inner|e]]; cbn [fst] in *; [|assumption].
  eapply same_dotted_trans; [exact Hw|].
  apply setitem_same_dotted.
  now apply (Forall_last _ (fun p => dotted p = false)).
Qed.

End DottedFacts.

(** X10.  [get_value] does not follow dots: after [set_value] with a
    dotted key on a dict, whether it raised or not, [get_value] with the
    same key on the same dict returns the default and not the value,
    unless the dict had the whole dotted key as one of its keys. *)
Theorem get_value_does_not_follow_dots
        (st : store) (dct : addr) (d0 : items) (key : string)
        (v default : value) :
  nth_error st dct = Some (ODict d0) ->
  dotted key = true ->
  dict_get key d0 = None ->
  get_value (object_at (fst (set_value st dct key v)) dct) (KStr key)
            (Some default)
  = Ok default.
Proof.
  intros Hd Hk Hnone.
  destruct (set_value_same_dotted st dct key v Hk _ _ Hd)
    as (d' & Hd' & Hsame).
  rewrite (object_at_dict _ _ _ Hd').
  rewrite get_value_dict_absent by (rewrite Hsame; auto).
  unfold getattr. cbn [attr py_dict].
  now rewrite dotted_not_dict_attr.
Qed.

(** The theorem at [d = {}; set_value(d, "a.b", 1)]:
    [get_value(d, "a.b", 0)] is [0]. *)
Lemma get_value_does_not_follow_dots_witness :
  get_value (object_at (fst (set_value [ODict []] 0 "a.b" (VInt 1))) 0)
            (KStr "a.b") (Some (VInt 0))
  = Ok (VInt 0).
Proof.
  exact (get_value_does_not_follow_dots
           [ODict []] 0 [] "a.b" (VInt 1) (VInt 0)
           eq_refl eq_refl eq_refl).
Defined.

(** ** Durations and fixed offsets *)


(** X12.  [timedelta_to_microseconds] loses nothing: two durations in
    normal form (seconds within a day, microseconds within a second)
    with the same number of microseconds are the same duration. *)
Theorem timedelta_to_microseconds_injective (a b : timedelta) :
  (0 <= seconds a < 86400)%Z -> (0 <= microseconds a < 1000000)%Z ->
  (0 <= seconds b < 86400)%Z -> (0 <= microseconds b < 1000000)%Z ->
  timedelta_to_microseconds a = timedelta_to_microseconds b ->
  a = b.
Proof.
  apply timedelta_to_microseconds_inj.
Qed.

(** The theorem at [timedelta(days=-1, seconds=2, microseconds=3)]. *)
Lemma timedelta_to_microseconds_injective_witness :
  {| days := -1; seconds := 2; microseconds := 3 |}
  = {| days := 0 - 1; seconds := 1 + 1; microseconds := 1 + 2 |}.
Proof.
  apply (timedelta_to_microseconds_injective
           {| days := -1; seconds := 2; microseconds := 3 |}
           {| days := 0 - 1; seconds := 1 + 1; microseconds := 1 + 2 |});
    cbn; try lia; reflexivity.
Defined.

(** ** The texts [from_iso_datetime] accepts *)

Section AcceptedFacts.

Lemma designator_cons (tz : str) :
  designator tz -> exists c w, tz = c :: w.
Proof. intros H; inversion H; subst; cbn; eauto. Qed.

(** A fraction that is followed by the end of a datetime text has
    twelve digits at most. *)
Lemma fraction_length (s : str) (g res : groups) :
  run (Seq (Grp "microsecond" (Rep 1 6 digit)) (Rep 0 6 digit)) s g tail_k
  = Some res ->
  length (take_while is_digit s) <= 12.
Proof.
  intros H. apply run_sound in H. destruct H as (s' & g' & H & Hk).
  repeat den_step.
  assert (Hs' : take_while is_digit s' = []).
  { destruct s' as [|c s']; [reflexivity|]. cbn [take_while].
    destruct (is_digit c) eqn:Ec; [|reflexivity].
    rewrite (tail_k_rejects_digits c s' _ Ec) in Hk. discriminate. }
  rewrite !take_while_app, Hs', app_nil_r, length_app by assumption.
  lia.
Qed.

(** The optional seconds, with their optional fraction and its
    length. *)
Lemma seconds_shape_bounded (s : str) (g res : groups) :
  run (opt seconds_re) s g tail_k = Some res ->
  tail_k s g = Some res
  \/ exists S s',
      s = ":"%char :: S ++ s'
      /\ forallb is_digit S = true /\ 1 <= length S <= 2
      /\ (tail_k s' (("second", S) :: g) = Some res
          \/ exists rest,
              s' = "."%char :: rest
              /\ 1 <= length (take_while is_digit rest) <= 12
              /\ tail_k (drop_while is_digit rest)
                   (("microsecond", firstn 6 (take_while is_digit rest))
                      :: ("second", S) :: g)
                 = Some res).
Proof.
  intros H. apply run_opt_inv in H. destruct H as [H|H]; [right|now left].
  unfold seconds_re in H. cbn [seq] in H.
  rewrite run_seq in H.
  apply run_lit_inv in H. destruct H as (s1 & -> & H).
  rewrite run_seq in H.
  apply run_grp_digits_inv in H. destruct H as (S & s2 & -> & HS & LS & H).
  exists S, s2. repeat split; auto; try lia.
  apply run_opt_inv in H. destruct H as [H|H]; [right|now left].
  unfold fraction_re in H. cbn [seq] in H.
  rewrite run_seq in H.
  apply run_lit_inv in H. destruct H as (rest & -> & H).
  exists rest. split; auto.
  pose proof (fraction_length _ _ _ H) as Hlen.
  apply (fraction_capture tail_k tail_k_rejects_digits tail_k_blind) in H.
  destruct H as [Hlo H]. repeat split; auto.
Qed.

(** The shape of a text that the datetime pattern matches, with the
    captures of the match. *)
Lemma datetime_match_inv (s : str) (res : groups) :
  re_match _iso8601_datetime_re s = Some res ->
  exists Y M D sep h mi sec tz e,
    s = Y ++ "-"%char :: M ++ "-"%char :: D ++ sep :: h
          ++ ":"%char :: mi ++ seconds_text sec ++ tz ++ e
    /\ digit_run 4 4 Y /\ digit_run 1 2 M /\ digit_run 1 2 D
    /\ T_or_space sep = true
    /\ digit_run 1 2 h /\ digit_run 1 2 mi
    /\ seconds_ok sec /\ fraction_bound sec
    /\ (tz = [] \/ designator tz) /\ end_or_newline e
    /\ lookup "year" res = Some Y /\ lookup "month" res = Some M
    /\ lookup "day" res = Some D /\ lookup "hour" res = Some h
    /\ lookup "minute" res = Some mi
    /\ lookup "second" res = option_map fst sec
    /\ lookup "microsecond" res
       = match sec with
         | Some (_, Some f) => Some (firstn 6 f)
         | _ => None
         end
    /\ lookup "tzinfo" res
       = match tz with [] => None | _ :: _ => Some tz end.
Proof.
  intros H.
  apply datetime_prefix_shape in H.
  destruct H as (Y & M & D & sep & h & mi & s5 & -> & HY & HM & HD & Hsep
                 & Hh & Hmi & H).
  assert (RY : digit_run 4 4 Y) by (destruct HY; split; auto; lia).
  exists Y, M, D, sep, h, mi.
  apply seconds_shape_bounded in H.
  destruct H as [H|(S & s' & -> & HS & LS & [H|(rest & -> & LF & H)])];
    apply tail_k_shape in H;
    destruct H as (tz & e & Hs & He & [[-> ->]|[Htz ->]]);
    try (destruct (designator_cons _ Htz) as (c & w & Ec));
    cbn [app] in Hs.
  - exists None, [], e. subst s5. repeat split; auto; try tauto; try lia; try exact I;
      try (rewrite Ec; reflexivity).
  - exists None, tz, e. subst s5.
    repeat split; auto; try tauto; try lia; try exact I;
      try (rewrite Ec; reflexivity).
  - exists (Some (S, None)), [], e. subst s'.
    cbn [seconds_text chars list_ascii_of_string app].
    rewrite <- ?app_assoc. repeat split; auto; try tauto; try lia; try exact I;
      try (rewrite Ec; reflexivity).
  - exists (Some (S, None)), tz, e. subst s'.
    cbn [seconds_text chars list_ascii_of_string app].
    rewrite <- ?app_assoc. repeat split; auto; try tauto; try lia; try exact I;
      try (rewrite Ec; reflexivity).
  - exists (Some (S, Some (take_while is_digit rest))), [], e.
    cbn [seconds_text chars list_ascii_of_string app].
    rewrite <- ?app_assoc. cbn [app]. rewrite <- Hs, take_drop_while.
    repeat split; auto using take_while_all; try tauto; try lia; try exact I;
      try (rewrite Ec; reflexivity); try (rewrite Hs; exact He).
  - exists (Some (S, Some (take_while is_digit rest))), tz, e.
   
    cbn [seconds_text chars list_ascii_of_string app].
    rewrite <- ?app_assoc. cbn [app]. rewrite <- Hs, take_drop_while.
    repeat split; auto using take_while_all; try tauto; try lia; try exact I;
      try (rewrite Ec; reflexivity); try (rewrite Hs; exact He).
Qed.

End AcceptedFacts.

Section ParsedFacts.

Lemma group_int_run (name : string) (g : groups) (w : str) (lo hi : nat) :
  lookup name g = Some w -> digit_run (S lo) hi w ->
  group_int name g = Ok (digits_val w).
Proof.
  intros H [Hd Hl]. unfold group_int. rewrite H.
  apply py_int_run; auto; lia.
Qed.

Lemma group_second_of (g : groups) (sec : option (str * option str)) :
  lookup "second" g = option_map fst sec -> seconds_ok sec ->
  group_second g = Ok (second_of sec).
Proof.
  unfold group_second. intros ->.
  destruct sec as [[w fr]|]; cbn [option_map fst second_of seconds_ok];
    [|reflexivity].
  intros [[Hd Hl] _]. destruct w as [|c w]; [cbn in Hl; lia|].
  apply py_int_run; auto. cbn; lia.
Qed.

Lemma group_microsecond_of (g : groups) (sec : option (str * option str)) :
  lookup "microsecond" g
  = match sec with
    | Some (_, Some f) => Some (firstn 6 f)
    | _ => None
    end ->
  seconds_ok sec ->
  group_microsecond g = Ok (microsecond_of sec).
Proof.
  unfold group_microsecond. intros ->.
  destruct sec as [[w [f|]]|]; cbn [microsecond_of seconds_ok];
    try reflexivity.
  intros [_ [Hd Hl]]. destruct f as [|c f]; [cbn in Hl; lia|].
  change (firstn 6 (c :: f)) with (c :: firstn 5 f).
  cbv iota beta.
  change (c :: firstn 5 f) with (firstn 6 (c :: f)).
  rewrite ljust_firstn.
  apply py_int_run.
  - apply forallb_firstn, ljust_digits, Hd.
  - unfold ljust. cbn. lia.
Qed.

Lemma get_fixed_timezone_ok (n : Z) (t : timezone) :
  get_fixed_timezone n = Ok t ->
  t = {| utcoffset := timedelta_of_seconds n |}
  /\ (-86400 < n < 86400)%Z.
Proof.
  unfold get_fixed_timezone, mk_timezone. rewrite total_us_of_seconds.
  destruct ((-86400000000 <? n * 1000000)%Z
            && (n * 1000000 <? 86400000000)%Z) eqn:E; [|discriminate].
  intros H; inversion H. split; [reflexivity|].
  apply andb_prop in E as [E1 E2]. apply Z.ltb_lt in E1, E2. lia.
Qed.

(** What the code computes from each form of designator. *)
Lemma parse_tzinfo_forms (g : groups) (tz : str) :
  lookup "tzinfo" g = match tz with [] => None | _ :: _ => Some tz end ->
  (tz = [] -> parse_tzinfo g = Ok None)
  /\ (tz = chars "Z" -> parse_tzinfo g = Ok (Some utc))
  /\ (forall c hh mm,
         plus_or_minus c = true -> two_digits hh -> two_digits mm ->
         tz = c :: hh ++ chars ":" ++ mm ->
         parse_tzinfo g
         = (t <- get_fixed_timezone
                   (signed c (digits_val hh * 60 + digits_val mm) * 60)%Z ;;
            Ok (Some t)))
  /\ (forall c hh,
         plus_or_minus c = true -> two_digits hh ->
         tz = c :: hh ->
         parse_tzinfo g
         = (t <- get_fixed_timezone (signed c (digits_val hh) * 3600)%Z ;;
            Ok (Some t)))
  /\ (forall c hh mm,
         plus_or_minus c = true -> two_digits hh -> two_digits mm ->
         tz = c :: hh ++ mm ->
         parse_tzinfo g
         = (t <- get_fixed_timezone
                   (signed c (digits_val hh * 100 + digits_val mm) * 3600)%Z ;;
            Ok (Some t))).
Proof.
  intros H. unfold parse_tzinfo. rewrite H. clear H.
  split; [now intros ->|]. split; [now intros ->|].
  split; [|split].
  - intros c hh mm Hc Hh Hm ->.
    rewrite sign_not_Z by assumption.
    destruct (offset_minutes_forms c hh mm Hc Hh Hm) as (E & _ & _).
    rewrite E. cbn [Py.bind]. reflexivity.
  - intros c hh Hc Hh ->.
    rewrite sign_not_Z by assumption.
    destruct (offset_minutes_forms c hh hh Hc Hh Hh) as (_ & E & _).
    rewrite E. cbn [Py.bind]. unfold signed.
    destruct (Ascii.eqb c "-");
      match goal with
      | |- Py.bind (get_fixed_timezone ?a) _
           = Py.bind (get_fixed_timezone ?b) _ =>
          replace a with b by lia; reflexivity
      end.
  - intros c hh mm Hc Hh Hm ->.
    rewrite sign_not_Z by assumption.
    destruct (offset_minutes_forms c hh mm Hc Hh Hm) as (_ & _ & E).
    rewrite E. cbn [Py.bind]. unfold signed.
    destruct (Ascii.eqb c "-");
      match goal with
      | |- Py.bind (get_fixed_timezone ?a) _
           = Py.bind (get_fixed_timezone ?b) _ =>
          replace a with b by lia; reflexivity
      end.
Qed.

Lemma forallb_weaken (p q : ascii -> bool) (w : str) :
  (forall c, p c = true -> q c = true) ->
  forallb p w = true -> forallb q w = true.
Proof.
  intros Hpq. induction w as [|c w IH]; cbn [forallb]; auto.
  intros H. apply andb_prop in H as [Hc Hw].
  rewrite (Hpq _ Hc), (IH Hw). reflexivity.
Qed.

Lemma after_class_skip (p : ascii -> bool) (w s : str) :
  forallb (fun c => negb (p c)) w = true ->
  after_class p (w ++ s) = after_class p s.
Proof.
  induction w as [|c w IH]; cbn [forallb app after_class]; auto.
  intros H. apply andb_prop in H as [Hc Hw].
  apply negb_true_iff in Hc. rewrite Hc. auto.
Qed.

Lemma digit_not_sep (c : ascii) :
  is_digit c = true -> negb (T_or_space c) = true.
Proof.
  intros H. apply digit_cases in H. cbn in H.
  repeat (destruct H as [<-|H]; [reflexivity|]). contradiction.
Qed.

Lemma digit_clock (c : ascii) : is_digit c = true -> clock_char c = true.
Proof. unfold clock_char. now intros ->. Qed.

Lemma drop_while_head (p : ascii -> bool) (s : str) :
  starts_with p s = false -> drop_while p s = s.
Proof. destruct s as [|c s]; cbn; [auto|]. now intros ->. Qed.

Lemma designator_chars (tz : str) :
  designator tz ->
  starts_with clock_char tz = false
  /\ forallb (fun c => negb (Ascii.eqb c "010")) tz = true.
Proof.
  assert (Hd : forall w, forallb is_digit w = true ->
               forallb (fun c => negb (Ascii.eqb c "010")) w = true).
  { intros w. apply forallb_weaken. intros c Hc.
    rewrite (digit_not c) by (auto; reflexivity). reflexivity. }
  assert (Hs : forall c, plus_or_minus c = true ->
               clock_char c = false /\ Ascii.eqb c "010" = false).
  { intros c H. destruct (sign_cases c H) as [-> | ->]; split; reflexivity. }
  intros [|c hh Hc [Hh _]|c hh mm Hc [Hh _] [Hm _]|c hh mm Hc [Hh _] [Hm _]].
  - split; reflexivity.
  - destruct (Hs c Hc) as [H1 H2]. split; [exact H1|].
    cbn [forallb]. now rewrite H2, (Hd _ Hh).
  - destruct (Hs c Hc) as [H1 H2]. split; [exact H1|].
    cbn [forallb]. now rewrite H2, forallb_app, (Hd _ Hh), (Hd _ Hm).
  - destruct (Hs c Hc) as [H1 H2]. split; [exact H1|].
    cbn [forallb]. rewrite H2, forallb_app, (Hd _ Hh).
    cbn [chars list_ascii_of_string app forallb]. now rewrite (Hd _ Hm).
Qed.

Lemma strip_newline_keeps (tz : str) :
  forallb (fun c => negb (Ascii.eqb c "010")) tz = true ->
  strip_newline tz = tz /\ strip_newline (tz ++ ["010"%char]) = tz.
Proof.
  intros H. unfold strip_newline. split.
  - destruct (rev tz) as [|c r] eqn:E.
    + apply (f_equal (@rev ascii)) in E. rewrite rev_involutive in E.
      now rewrite E.
    + apply (f_equal (@rev ascii)) in E. rewrite rev_involutive in E.
      cbn [rev] in E. rewrite E, forallb_app in H.
      apply andb_prop in H as [_ H]. cbn [forallb] in H.
      rewrite andb_true_r in H. apply negb_true_iff in H. now rewrite H.
  - rewrite rev_unit, Ascii.eqb_refl. apply rev_involutive.
Qed.

(** The designator of a text of the shape the pattern accepts. *)
Lemma designator_text_shape (Y M D : str) (sep : ascii) (h mi : str)
      (sec : option (str * option str)) (tz e : str) :
  digit_run 4 4 Y -> digit_run 1 2 M -> digit_run 1 2 D ->
  T_or_space sep = true ->
  digit_run 1 2 h -> digit_run 1 2 mi -> seconds_ok sec ->
  tz = [] \/ designator tz -> end_or_newline e ->
  designator_text
    (Y ++ "-"%char :: M ++ "-"%char :: D ++ sep :: h
       ++ ":"%char :: mi ++ seconds_text sec ++ tz ++ e)
  = tz.
Proof.
  intros [HY _] [HM _] [HD _] Hsep [Hh _] [Hmi _] Hsec Htz He.
  unfold designator_text.
  rewrite after_class_skip
    by (eapply forallb_weaken; [apply digit_not_sep|exact HY]).
  cbn [after_class].
  change (T_or_space "-") with false. cbv iota.
  rewrite after_class_skip
    by (eapply forallb_weaken; [apply digit_not_sep|exact HM]).
  cbn [after_class].
  change (T_or_space "-") with false. cbv iota.
  rewrite after_class_skip
    by (eapply forallb_weaken; [apply digit_not_sep|exact HD]).
  cbn [after_class]. rewrite Hsep.
  assert (Hclock : forallb clock_char
                     (h ++ ":"%char :: mi ++ seconds_text sec) = true).
  { rewrite forallb_app. cbn [forallb]. rewrite forallb_app.
    rewrite (forallb_weaken _ _ _ digit_clock Hh).
    rewrite (forallb_weaken _ _ _ digit_clock Hmi).
    change (clock_char ":") with true. cbn [andb].
    destruct sec as [[w [f|]]|];
      cbn [seconds_text seconds_ok chars list_ascii_of_string app forallb]
        in *; auto.
    - destruct Hsec as [[Hw _] [Hf _]].
      rewrite forallb_app. cbn [forallb].
      rewrite (forallb_weaken _ _ _ digit_clock Hw).
      rewrite (forallb_weaken _ _ _ digit_clock Hf).
      reflexivity.
    - destruct Hsec as [[Hw _] _].
      rewrite (forallb_weaken _ _ _ digit_clock Hw). reflexivity. }
  replace (h ++ ":"%char :: mi ++ seconds_text sec ++ tz ++ e)
    with ((h ++ ":"%char :: mi ++ seconds_text sec) ++ tz ++ e)
    by (rewrite <- !app_assoc; cbn [app]; now rewrite <- !app_assoc).
  rewrite drop_while_app by exact Hclock.
  destruct Htz as [->|Htz].
  - cbn [app]. destruct He as [->| ->]; reflexivity.
  - destruct (designator_chars _ Htz) as [Hhead Hnl].
    destruct (designator_cons _ Htz) as (c & w & Ec).
    rewrite drop_while_head by (rewrite Ec in *; exact Hhead).
    destruct (strip_newline_keeps _ Hnl) as [K1 K2].
    destruct He as [->| ->]; [now rewrite app_nil_r|exact K2].
Qed.

End ParsedFacts.

Section ReadingFacts.

(** What is known of a text that was parsed, and of the result. *)
Lemma from_iso_datetime_parsed (value : string) (d : datetime) :
  from_iso_datetime value = Ok d ->
  exists Y M D sep h mi sec tz e,
    chars value
    = Y ++ "-"%char :: M ++ "-"%char :: D ++ sep :: h
        ++ ":"%char :: mi ++ seconds_text sec ++ tz ++ e
    /\ (digit_run 4 4 Y /\ digit_run 1 2 M /\ digit_run 1 2 D
        /\ T_or_space sep = true
        /\ digit_run 1 2 h /\ digit_run 1 2 mi
        /\ seconds_ok sec /\ fraction_bound sec
        /\ (tz = [] \/ designator tz) /\ end_or_newline e)
    /\ (year d = digits_val Y /\ month d = digits_val M
        /\ day d = digits_val D /\ hour d = digits_val h
        /\ minute d = digits_val mi /\ second d = second_of sec
        /\ microsecond d = microsecond_of sec)
    /\ exists g,
        lookup "tzinfo" g = match tz with [] => None | _ :: _ => Some tz end
        /\ parse_tzinfo g = Ok (tzinfo d).
Proof.
  intros H. apply from_iso_datetime_inv in H.
  destruct H as (g & Hm & Hy & Hmo & Hd & Hh & Hmi & Hs & Hus & Htz & _).
  apply datetime_match_inv in Hm.
  destruct Hm as (Y & M & D & sep & h & mi & sec & tz & e & E & RY & RM & RD
                  & Hsep & Rh & Rmi & Rsec & Rb & Rtz & Re & LY & LM & LD
                  & Lh & Lmi & Ls & Lus & Ltz).
  exists Y, M, D, sep, h, mi, sec, tz, e.
  split; [exact E|]. split; [tauto|]. split; [|exists g; auto].
  rewrite (group_int_run _ _ _ _ _ LY RY) in Hy.
  rewrite (group_int_run _ _ _ _ _ LM RM) in Hmo.
  rewrite (group_int_run _ _ _ _ _ LD RD) in Hd.
  rewrite (group_int_run _ _ _ _ _ Lh Rh) in Hh.
  rewrite (group_int_run _ _ _ _ _ Lmi Rmi) in Hmi.
  rewrite (group_second_of _ _ Ls Rsec) in Hs.
  rewrite (group_microsecond_of _ _ Lus Rsec) in Hus.
  repeat split; congruence.
Qed.

(** The timezone of the result, for each form of designator. *)
Lemma parsed_designator (value : string) (d : datetime) :
  from_iso_datetime value = Ok d ->
  (designator_text (chars value) = [] /\ tzinfo d = None)
  \/ (designator_text (chars value) = chars "Z" /\ tzinfo d = Some utc)
  \/ (exists c hh mm,
         plus_or_minus c = true /\ two_digits hh /\ two_digits mm
         /\ designator_text (chars value) = c :: hh ++ chars ":" ++ mm
         /\ tzinfo d
            = Some {| utcoffset :=
                        timedelta_of_seconds
                          (signed c (digits_val hh * 60 + digits_val mm)
                           * 60)%Z |})
  \/ (exists c hh,
         plus_or_minus c = true /\ two_digits hh
         /\ designator_text (chars value) = c :: hh
         /\ tzinfo d
            = Some {| utcoffset :=
                        timedelta_of_seconds
                          (signed c (digits_val hh) * 3600)%Z |})
  \/ (exists c hh mm,
         plus_or_minus c = true /\ two_digits hh /\ two_digits mm
         /\ designator_text (chars value) = c :: hh ++ mm
         /\ tzinfo d
            = Some {| utcoffset :=
                        timedelta_of_seconds
                          (signed c (digits_val hh * 100 + digits_val mm)
                           * 3600)%Z |}).
Proof.
  intros H. apply from_iso_datetime_parsed in H.
  destruct H as (Y & M & D & sep & h & mi & sec & tz & e & E
                 & (RY & RM & RD & Hsep & Rh & Rmi & Rsec & _ & Rtz & Re)
                 & _ & g & Ltz & Htz).
  rewrite E, (designator_text_shape Y M D sep h mi sec tz e) by assumption.
  destruct (parse_tzinfo_forms g tz Ltz) as (F0 & FZ & F1 & F2 & F3).
  assert (Hfix : forall n,
             (t <- get_fixed_timezone n ;; Ok (Some t)) = Ok (tzinfo d) ->
             tzinfo d = Some {| utcoffset := timedelta_of_seconds n |}).
  { intros n Hn. apply bind_ok_inv in Hn as (t & Ht & Hn).
    apply get_fixed_timezone_ok in Ht as [-> _]. now inversion Hn. }
  destruct Rtz as [->|Rtz].
  - left. split; [reflexivity|].
    rewrite (F0 eq_refl) in Htz. now inversion Htz.
  - right.
    destruct Rtz
      as [|c hh Hc Hh|c hh mm Hc Hh Hm|c hh mm Hc Hh Hm].
    + left. split; [reflexivity|].
      rewrite (FZ eq_refl) in Htz. now inversion Htz.
    + right; right; left. exists c, hh. repeat split; try tauto.
      * apply Hh.
      * apply Hh.
      * apply Hfix. now rewrite <- (F2 c hh Hc Hh eq_refl).
    + right; right; right. exists c, hh, mm. repeat split; try tauto.
      * apply Hh.
      * apply Hh.
      * apply Hm.
      * apply Hm.
      * apply Hfix. now rewrite <- (F3 c hh mm Hc Hh Hm eq_refl).
    + right; left. exists c, hh, mm. repeat split; try tauto.
      * apply Hh.
      * apply Hh.
      * apply Hm.
      * apply Hm.
      * apply Hfix. now rewrite <- (F1 c hh mm Hc Hh Hm eq_refl).
Qed.

(** The offset computed from a designator is a whole number of minutes
    within a day of UTC. *)
Lemma parse_tzinfo_whole_minutes (g : groups) (tz : option timezone) :
  parse_tzinfo g = Ok tz -> whole_minute_offset tz.
Proof.
  unfold parse_tzinfo.
  destruct (lookup "tzinfo" g) as [[|c0 rest]|];
    try (intros H; inversion H; exact I).
  destruct (str_eqb (c0 :: rest) (chars "Z")).
  - intros H; inversion H. exists 0%Z. split; [lia|reflexivity].
  - intros H. apply bind_ok_inv in H as (om & _ & H).
    apply bind_ok_inv in H as (t & Ht & H). inversion H; subst tz.
    apply get_fixed_timezone_ok in Ht as [-> Hr].
    eexists; split; [|reflexivity]. lia.
Qed.

End ReadingFacts.

(** X13.  A text of 8-bit characters that [from_iso_datetime] accepts is
    a year of four digits, a month and a day of one or two digits, [T] or a blank, an
    hour and a minute of one or two digits, then possibly the seconds
    with possibly a fraction of twelve digits at most, possibly a
    designator, and possibly one final newline; and the fields of the
    result are the numbers these digits write, with 0 for seconds that
    are not written and the first six digits of the fraction counted in
    microseconds. *)
Theorem from_iso_datetime_reads_fields (value : string) (d : datetime) :
  from_iso_datetime value = Ok d ->
  exists Y M D sep h mi sec tz e,
    chars value
    = Y ++ chars "-" ++ M ++ chars "-" ++ D ++ sep :: h
        ++ chars ":" ++ mi ++ seconds_text sec ++ tz ++ e
    /\ (digit_run 4 4 Y /\ digit_run 1 2 M /\ digit_run 1 2 D
        /\ T_or_space sep = true
        /\ digit_run 1 2 h /\ digit_run 1 2 mi
        /\ seconds_ok sec /\ fraction_bound sec
        /\ (tz = [] \/ designator tz) /\ end_or_newline e)
    /\ (year d = digits_val Y /\ month d = digits_val M
        /\ day d = digits_val D /\ hour d = digits_val h
        /\ minute d = digits_val mi /\ second d = second_of sec
        /\ microsecond d = microsecond_of sec).
Proof.
  intros H. apply from_iso_datetime_parsed in H.
  destruct H as (Y & M & D & sep & h & mi & sec & tz & e & E & R & F & _).
  exists Y, M, D, sep, h, mi, sec, tz, e. auto.
Qed.

(** The theorem at ["2024-1-5 7:03:09.5Z"]: one-digit fields and a blank
    are read, and the fraction [.5] is 500000 microseconds. *)
Lemma from_iso_datetime_reads_fields_witness :
  exists Y M D sep h mi sec tz e,
    chars "2024-1-5 7:03:09.5Z"
    = Y ++ chars "-" ++ M ++ chars "-" ++ D ++ sep :: h
        ++ chars ":" ++ mi ++ seconds_text sec ++ tz ++ e
    /\ (digit_run 4 4 Y /\ digit_run 1 2 M /\ digit_run 1 2 D
        /\ T_or_space sep = true
        /\ digit_run 1 2 h /\ digit_run 1 2 mi
        /\ seconds_ok sec /\ fraction_bound sec
        /\ (tz = [] \/ designator tz) /\ end_or_newline e)
    /\ (2024%Z = digits_val Y /\ 1%Z = digits_val M
        /\ 5%Z = digits_val D /\ 7%Z = digits_val h
        /\ 3%Z = digits_val mi /\ 9%Z = second_of sec
        /\ 500000%Z = microsecond_of sec).
Proof.
  exact (from_iso_datetime_reads_fields
           "2024-1-5 7:03:09.5Z"
           {| year := 2024; month := 1; day := 5; hour := 7; minute := 3;
              second := 9; microsecond := 500000; tzinfo := Some utc |}
           eq_refl).
Defined.

(** X14.  The timezone of the result depends on the designator of the
    text, what is left of it after the date, the separator and the clock,
    a final newline apart: none gives a naive datetime and [Z] gives
    UTC; [+HH:MM] gives the offset of HH hours and MM minutes, with its
    sign; [+HH] gives HH hours; and [+HHMM] gives the four digits read as
    one number of hours, HH * 100 + MM. *)
Theorem from_iso_datetime_designator (value : string) (d : datetime) :
  from_iso_datetime value = Ok d ->
  (designator_text (chars value) = [] /\ tzinfo d = None)
  \/ (designator_text (chars value) = chars "Z" /\ tzinfo d = Some utc)
  \/ (exists c hh mm,
         plus_or_minus c = true /\ two_digits hh /\ two_digits mm
         /\ designator_text (chars value) = c :: hh ++ chars ":" ++ mm
         /\ tzinfo d
            = Some {| utcoffset :=
                        timedelta_of_seconds
                          (signed c (digits_val hh * 60 + digits_val mm)
                           * 60)%Z |})
  \/ (exists c hh,
         plus_or_minus c = true /\ two_digits hh
         /\ designator_text (chars value) = c :: hh
         /\ tzinfo d
            = Some {| utcoffset :=
                        timedelta_of_seconds
                          (signed c (digits_val hh) * 3600)%Z |})
  \/ (exists c hh mm,
         plus_or_minus c = true /\ two_digits hh /\ two_digits mm
         /\ designator_text (chars value) = c :: hh ++ mm
         /\ tzinfo d
            = Some {| utcoffset :=
                        timedelta_of_seconds
                          (signed c (digits_val hh * 100 + digits_val mm)
                           * 3600)%Z |}).
Proof.
  apply parsed_designator.
Qed.

(** X15.  A datetime that [from_iso_datetime] returns is aware, in the
    sense of [is_aware], exactly when the text has a designator. *)
Theorem is_aware_iff_designator (value : string) (d : datetime) :
  from_iso_datetime value = Ok d ->
  is_aware d = true <-> designator_text (chars value) <> [].
Proof.
  intros H. unfold is_aware, timezone_utcoffset.
  destruct (parsed_designator value d H)
    as [[E T]|[[E T]|[(c & hh & mm & _ & _ & _ & E & T)
       |[(c & hh & _ & _ & E & T)|(c & hh & mm & _ & _ & _ & E & T)]]]];
    rewrite E, T; split; try discriminate; try reflexivity;
    intros K; exfalso; apply K; reflexivity.
Qed.

(** X16.  Every datetime that [from_iso_datetime] returns names a real
    date and time of day, and its offset, when it has one, is a whole
    number of minutes strictly within a day of UTC. *)
Theorem from_iso_datetime_result_valid (value : string) (d : datetime) :
  from_iso_datetime value = Ok d -> valid_datetime d.
Proof.
  intros H. apply from_iso_datetime_inv in H.
  destruct H as (g & _ & _ & _ & _ & _ & _ & _ & _ & Htz & Hd & Ht).
  repeat split; auto. eapply parse_tzinfo_whole_minutes; eauto.
Qed.

(** The theorem at ["2024-01-15T10:30:00+0010"]: the designator [+0010]
    is read as ten hours. *)
Lemma from_iso_datetime_designator_witness :
  tzinfo {| year := 2024; month := 1; day := 15; hour := 10; minute := 30;
            second := 0; microsecond := 0;
            tzinfo := Some {| utcoffset := timedelta_of_seconds 36000 |} |}
  = Some {| utcoffset :=
              timedelta_of_seconds
                (signed "+" (digits_val (chars "00") * 100
                             + digits_val (chars "10")) * 3600)%Z |}.
Proof.
  destruct (from_iso_datetime_designator
              "2024-01-15T10:30:00+0010"
              {| year := 2024; month := 1; day := 15; hour := 10;
                 minute := 30; second := 0; microsecond := 0;
                 tzinfo :=
                   Some {| utcoffset := timedelta_of_seconds 36000 |} |}
              eq_refl)
    as [[E _]|[[E _]|[(c & hh & mm & _ & _ & _ & _ & T)
       |[(c & hh & _ & _ & _ & T)|(c & hh & mm & _ & _ & _ & _ & T)]]]];
    try discriminate E; reflexivity.
Defined.

(** The theorem at ["2024-01-15T10:30:00Z"]. *)
Lemma is_aware_iff_designator_witness :
  is_aware {| year := 2024; month := 1; day := 15; hour := 10;
              minute := 30; second := 0; microsecond := 0;
              tzinfo := Some utc |} = true
  <-> designator_text (chars "2024-01-15T10:30:00Z") <> [].
Proof.
  exact (is_aware_iff_designator
           "2024-01-15T10:30:00Z"
           {| year := 2024; month := 1; day := 15; hour := 10;
              minute := 30; second := 0; microsecond := 0;
              tzinfo := Some utc |}
           eq_refl).
Defined.

(** The theorem at ["2024-02-29 23:59:59-23:59"]. *)
Lemma from_iso_datetime_result_valid_witness :
  valid_datetime
    {| year := 2024; month := 2; day := 29; hour := 23; minute := 59;
       second := 59; microsecond := 0;
       tzinfo := Some {| utcoffset := timedelta_of_seconds (-86340) |} |}.
Proof.
  exact (from_iso_datetime_result_valid
           "2024-02-29 23:59:59-23:59"
           {| year := 2024; month := 2; day := 29; hour := 23; minute := 59;
              second := 59; microsecond := 0;
              tzinfo :=
                Some {| utcoffset := timedelta_of_seconds (-86340) |} |}
           eq_refl).
Defined.

(** ** [from_iso_date] *)

Section DateFacts.

Lemma run_eos_inv (s : str) (g : groups) (k : cont) (res : groups) :
  run Eos s g k = Some res -> end_or_newline s /\ k s g = Some res.
Proof.
  unfold end_or_newline. cbn [run].
  destruct s as [|c [|c' s]]; [auto| |discriminate].
  destruct (Ascii.eqb c "010") eqn:E; [|discriminate].
  apply Ascii.eqb_eq in E; subst c. auto.
Qed.

Lemma run_eos_hit (s : str) (g : groups) (k : cont) :
  end_or_newline s -> run Eos s g k = k s g.
Proof. intros [->| ->]; reflexivity. Qed.

Lemma end_no_digit (e : str) :
  end_or_newline e -> take_while is_digit e = [].
Proof. intros [->| ->]; reflexivity. Qed.

Lemma date_re_unfold :
  _iso8601_date_re
  = Seq (Grp "year" (Rep 4 4 digit))
      (Seq (Lit "-")
         (Seq (Grp "month" (Rep 1 2 digit))
            (Seq (Lit "-")
               (Seq (Grp "day" (Rep 1 2 digit)) Eos)))).
Proof. reflexivity. Qed.

(** The texts the date pattern matches, and the captures. *)
Lemma date_match_iff (s : str) (res : groups) :
  re_match _iso8601_date_re s = Some res
  <-> exists Y M D e,
        s = Y ++ "-"%char :: M ++ "-"%char :: D ++ e
        /\ digit_run 4 4 Y /\ digit_run 1 2 M /\ digit_run 1 2 D
        /\ end_or_newline e
        /\ res = [("day", D); ("month", M); ("year", Y)].
Proof.
  unfold re_match. rewrite date_re_unfold. split.
  - intros H.
    rewrite run_seq in H.
    apply run_grp_digits_inv in H.
    destruct H as (Y & s1 & -> & HY & LY & H).
    rewrite run_seq in H.
    apply run_lit_inv in H. destruct H as (s2 & -> & H).
    rewrite run_seq in H.
    apply run_grp_digits_inv in H.
    destruct H as (M & s3 & -> & HM & LM & H).
    rewrite run_seq in H.
    apply run_lit_inv in H. destruct H as (s4 & -> & H).
    rewrite run_seq in H.
    apply run_grp_digits_inv in H.
    destruct H as (D & e & -> & HD & LD & H).
    apply run_eos_inv in H. destruct H as [He H]. inversion H.
    exists Y, M, D, e. repeat split; auto; lia.
  - intros (Y & M & D & e & -> & [HY LY] & [HM LM] & [HD LD] & He & ->).
    rewrite run_seq.
    apply run_grp_digits_complete; [exact HY|exact LY|left; lia|].
    rewrite run_seq, run_lit_hit, run_seq.
    apply run_grp_digits_complete; [exact HM|exact LM|now right|].
    rewrite run_seq, run_lit_hit, run_seq.
    apply run_grp_digits_complete;
      [exact HD|exact LD|right; now apply end_no_digit|].
    now rewrite run_eos_hit.
Qed.

End DateFacts.

(** X17.  On a text of 8-bit characters, where the only digits are
    [0] to [9], [from_iso_date] returns a date exactly for a year of four
    digits, a month and a day of one or two digits, separated by [-] and
    possibly followed by one final newline, when these numbers name a
    real date; the date is the one they name. *)
Theorem from_iso_date_accepts_exactly (value : string) (d : date) :
  from_iso_date value = Ok d
  <-> exists Y M D e,
        chars value = Y ++ chars "-" ++ M ++ chars "-" ++ D ++ e
        /\ digit_run 4 4 Y /\ digit_run 1 2 M /\ digit_run 1 2 D
        /\ end_or_newline e
        /\ mk_date (digits_val Y) (digits_val M) (digits_val D) = Ok d.
Proof.
  unfold from_iso_date. split.
  - destruct (re_match _iso8601_date_re (chars value)) as [g|] eqn:Hm;
      [|discriminate].
    apply date_match_iff in Hm.
    destruct Hm as (Y & M & D & e & E & RY & RM & RD & He & ->).
    rewrite (group_int_run "year" _ Y 3 4) by (auto; reflexivity).
    rewrite (group_int_run "month" _ M 0 2) by (auto; reflexivity).
    rewrite (group_int_run "day" _ D 0 2) by (auto; reflexivity).
    cbn [Py.bind]. intros H.
    exists Y, M, D, e. auto 10.
  - intros (Y & M & D & e & E & RY & RM & RD & He & H).
    assert (Hm : re_match _iso8601_date_re (chars value)
                 = Some [("day", D); ("month", M); ("year", Y)])
      by (apply date_match_iff; exists Y, M, D, e; auto 10).
    rewrite Hm.
    rewrite (group_int_run "year" _ Y 3 4) by (auto; reflexivity).
    rewrite (group_int_run "month" _ M 0 2) by (auto; reflexivity).
    rewrite (group_int_run "day" _ D 0 2) by (auto; reflexivity).
    exact H.
Qed.

(** ** [from_iso_time] *)

Section TimeFacts.

Lemma non_clock_head (tail : str) :
  starts_with clock_char tail = false ->
  take_while is_digit tail = []
  /\ match tail with [] => True | c :: _ => Ascii.eqb ":" c = false end
  /\ match tail with [] => True | c :: _ => Ascii.eqb "." c = false end.
Proof.
  destruct tail as [|c tail]; cbn [starts_with take_while]; [auto|].
  unfold clock_char. intros H.
  apply orb_false_elim in H as [H Hdot].
  apply orb_false_elim in H as [Hd Hcolon].
  rewrite Hd. rewrite (Ascii.eqb_sym ":"), (Ascii.eqb_sym "."). auto.
Qed.

(** The first six digits of a fraction are captured and up to six more
    are skipped, whatever follows. *)
Lemma fraction_any_tail (F tail : str) (g : groups) :
  forallb is_digit F = true -> 1 <= length F ->
  take_while is_digit tail = [] ->
  run (Seq (Grp "microsecond" (Rep 1 6 digit)) (Rep 0 6 digit))
      (F ++ tail) g (fun _ g' => Some g')
  = Some (("microsecond", firstn 6 F) :: g).
Proof.
  intros HF LF Ht.
  rewrite run_seq.
  rewrite <- (firstn_skipn 6 F) at 1. rewrite <- app_assoc.
  apply run_grp_digits_complete.
  - now apply forallb_firstn.
  - rewrite length_firstn. lia.
  - destruct (Nat.le_gt_cases 6 (length F)) as [L|L].
    + left. rewrite length_firstn. lia.
    + right. rewrite skipn_all2 by lia. exact Ht.
  - rewrite <- (firstn_skipn 6 (skipn 6 F)) at 1. rewrite <- app_assoc.
    apply run_digits_complete.
    + now apply forallb_firstn, forallb_skipn.
    + rewrite length_firstn. lia.
    + destruct (Nat.le_gt_cases 6 (length (skipn 6 F))) as [L|L].
      * left. rewrite length_firstn. lia.
      * right. rewrite skipn_all2 by lia. exact Ht.
    + reflexivity.
Qed.

Lemma time_re_unfold :
  _iso8601_time_re
  = Seq (Grp "hour" (Rep 1 2 digit))
      (Seq (Lit ":")
         (Seq (Grp "minute" (Rep 1 2 digit)) (opt seconds_re))).
Proof. reflexivity. Qed.

(** The time pattern on a clock followed by anything that does not go on
    as a clock. *)
Lemma time_match (h mi : str) (sec : option (str * option str))
      (tail : str) :
  digit_run 1 2 h -> digit_run 1 2 mi -> seconds_ok sec ->
  starts_with clock_char tail = false ->
  exists g,
    re_match _iso8601_time_re
      (h ++ ":"%char :: mi ++ seconds_text sec ++ tail) = Some g
    /\ lookup "hour" g = Some h /\ lookup "minute" g = Some mi
    /\ lookup "second" g = option_map fst sec
    /\ lookup "microsecond" g
       = match sec with
         | Some (_, Some f) => Some (firstn 6 f)
         | _ => None
         end.
Proof.
  intros [Hh Lh] [Hmi Lmi] Hsec Htail.
  destruct (non_clock_head _ Htail) as (Tdigit & Tcolon & Tdot).
  unfold re_match. rewrite time_re_unfold.
  destruct sec as [[S [F|]]|];
    cbn [seconds_text seconds_ok chars list_ascii_of_string app] in *.
  - destruct Hsec as [[HS LS] [HF LF]].
    eexists. split.
    { rewrite run_seq. apply run_grp_digits_complete; auto.
      rewrite run_seq, run_lit_hit.
      rewrite run_seq. apply run_grp_digits_complete; auto.
      apply run_opt_take. unfold seconds_re. cbn [seq].
      rewrite run_seq, run_lit_hit.
      rewrite <- app_assoc. cbn [app].
      rewrite run_seq. apply run_grp_digits_complete; auto.
      apply run_opt_take. unfold fraction_re. cbn [seq].
      rewrite run_seq, run_lit_hit.
      apply fraction_any_tail; auto. }
    repeat split; reflexivity.
  - destruct Hsec as [[HS LS] _].
    eexists. split.
    { rewrite run_seq. apply run_grp_digits_complete; auto.
      rewrite run_seq, run_lit_hit.
      rewrite run_seq. apply run_grp_digits_complete; auto.
      apply run_opt_take. unfold seconds_re. cbn [seq].
      rewrite run_seq, run_lit_hit.
      rewrite run_seq. apply run_grp_digits_complete; auto.
      rewrite run_opt_skip by (apply run_lit_miss; exact Tdot).
      reflexivity. }
    repeat split; reflexivity.
  - eexists. split.
    { rewrite run_seq. apply run_grp_digits_complete; auto.
      rewrite run_seq, run_lit_hit.
      rewrite run_seq. apply run_grp_digits_complete; auto.
      rewrite run_opt_skip by (apply run_lit_miss; exact Tcolon).
      reflexivity. }
    repeat split; reflexivity.
Qed.

End TimeFacts.

(** X18.  [from_iso_time] reads a clock at the start of the text, an hour
    and a minute of one or two digits and possibly the seconds with
    possibly a fraction, and ignores whatever follows it that does not go
    on as a clock (a designator, for one): the result is the time of the
    clock alone, the first six digits of the fraction counted in
    microseconds, or the [ValueError] of [time] when there is no such
    time. *)
Theorem from_iso_time_ignores_tail
        (h mi : str) (sec : option (str * option str)) (tail : str) :
  digit_run 1 2 h -> digit_run 1 2 mi -> seconds_ok sec ->
  starts_with clock_char tail = false ->
  from_iso_time (text (h ++ chars ":" ++ mi ++ seconds_text sec ++ tail))
  = mk_time (digits_val h) (digits_val mi) (second_of sec)
            (microsecond_of sec).
Proof.
  intros Rh Rmi Rsec Htail.
  unfold from_iso_time, chars, text.
  rewrite list_ascii_of_string_of_list_ascii.
  destruct (time_match h mi sec tail Rh Rmi Rsec Htail)
    as (g & Hm & Lh & Lmi & Ls & Lus).
  cbn [list_ascii_of_string app]. rewrite Hm.
  rewrite (group_int_run _ _ _ _ _ Lh Rh).
  rewrite (group_int_run _ _ _ _ _ Lmi Rmi).
  rewrite (group_second_of _ _ Ls Rsec).
  rewrite (group_microsecond_of _ _ Lus Rsec).
  reflexivity.
Qed.

(** The theorem at ["7:05:09.1234567Z and more"]. *)
Lemma from_iso_time_ignores_tail_witness :
  from_iso_time "7:05:09.1234567Z and more"
  = Ok {| time_hour := 7; time_minute := 5; time_second := 9;
          time_microsecond := 123456 |}.
Proof.
  refine (from_iso_time_ignores_tail
            (chars "7") (chars "05")
            (Some (chars "09", Some (chars "1234567")))
            (chars "Z and more") _ _ _ eq_refl);
    repeat split; cbn; lia.
Defined.

(** ** The exceptions of the parsers *)

Section RaiseFacts.

Lemma raises_only_ok {A} (c : exn_kind) (a : A) : raises_only c (Ok a).
Proof. intros e H; discriminate. Qed.

Lemma raises_only_raise {A} (c : exn_kind) (msg : string) :
  raises_only c (@Raise A (Exn c msg)).
Proof. intros e H; inversion H; reflexivity. Qed.

Lemma raises_only_bind {A B} (c : exn_kind) (m : outcome A)
      (k : A -> outcome B) :
  raises_only c m -> (forall a, raises_only c (k a)) ->
  raises_only c (Py.bind m k).
Proof.
  intros Hm Hk e. destruct m as [a|e0]; cbn [Py.bind].
  - apply Hk.
  - intros H; inversion H; subst. now apply Hm.
Qed.

Lemma py_int_raises (w : str) : raises_only ValueError (py_int w).
Proof.
  unfold py_int. destruct w as [|c w]; [apply raises_only_raise|].
  destruct (forallb is_digit (c :: w));
    [apply raises_only_ok|apply raises_only_raise].
Qed.

Lemma group_int_raises (name : string) (g : groups) (w : str) :
  lookup name g = Some w -> raises_only ValueError (group_int name g).
Proof. unfold group_int. intros ->. apply py_int_raises. Qed.

Lemma group_second_raises (g : groups) :
  raises_only ValueError (group_second g).
Proof.
  unfold group_second.
  destruct (lookup "second" g) as [[|c w]|];
    auto using raises_only_ok, py_int_raises.
Qed.

Lemma group_microsecond_raises (g : groups) :
  raises_only ValueError (group_microsecond g).
Proof.
  unfold group_microsecond.
  destruct (lookup "microsecond" g) as [[|c w]|];
    auto using raises_only_ok, py_int_raises.
Qed.

Lemma get_fixed_timezone_raises (n : Z) :
  raises_only ValueError (get_fixed_timezone n).
Proof.
  unfold get_fixed_timezone, mk_timezone.
  match goal with |- context [if ?b then _ else _] => destruct b end;
    [apply raises_only_ok|apply raises_only_raise].
Qed.

Lemma offset_minutes_raises (tz rest : str) :
  raises_only ValueError (offset_minutes tz rest).
Proof.
  unfold offset_minutes. destruct (contains ":" tz).
  - destruct (split ":" rest) as [|a [|b [|c l]]];
      try apply raises_only_raise.
    apply raises_only_bind; [apply py_int_raises|intros x].
    apply raises_only_bind; [apply py_int_raises|intros y].
    apply raises_only_ok.
  - apply raises_only_bind; [apply py_int_raises|intros x].
    apply raises_only_ok.
Qed.

Lemma parse_tzinfo_raises (g : groups) :
  raises_only ValueError (parse_tzinfo g).
Proof.
  unfold parse_tzinfo.
  destruct (lookup "tzinfo" g) as [[|c0 rest]|]; try apply raises_only_ok.
  destruct (str_eqb (c0 :: rest) (chars "Z")); [apply raises_only_ok|].
  apply raises_only_bind; [apply offset_minutes_raises|intros om].
  apply raises_only_bind; [apply get_fixed_timezone_raises|intros t].
  apply raises_only_ok.
Qed.

Lemma check_date_fields_raises (y m d : Z) :
  raises_only ValueError (check_date_fields y m d).
Proof.
  unfold check_date_fields.
  repeat match goal with
         | |- context [if ?b then _ else _] => destruct b
         end;
    try apply raises_only_raise; apply raises_only_ok.
Qed.

Lemma check_time_fields_raises (h mi s us : Z) :
  raises_only ValueError (check_time_fields h mi s us).
Proof.
  unfold check_time_fields.
  repeat match goal with
         | |- context [if ?b then _ else _] => destruct b
         end;
    try apply raises_only_raise; apply raises_only_ok.
Qed.

(** The captures of the hour and the minute of a match of the time
    pattern. *)
Lemma time_match_inv (s : str) (res : groups) :
  re_match _iso8601_time_re s = Some res ->
  exists h mi, lookup "hour" res = Some h /\ lookup "minute" res = Some mi.
Proof.
  unfold re_match. rewrite time_re_unfold. intros H.
  rewrite run_seq in H.
  apply run_grp_digits_inv in H. destruct H as (h & s1 & -> & _ & _ & H).
  rewrite run_seq in H.
  apply run_lit_inv in H. destruct H as (s2 & -> & H).
  rewrite run_seq in H.
  apply run_grp_digits_inv in H. destruct H as (mi & s3 & -> & _ & _ & H).
  apply run_sound in H. destruct H as (s' & g' & H & Hres).
  inversion Hres; subst g'; clear Hres.
  exists h, mi.
  cbv [opt seconds_re fraction_re seq] in H.
  repeat den_step; split; reflexivity.
Qed.

Lemma from_iso_datetime_raises (value : string) :
  raises_only ValueError (from_iso_datetime value).
Proof.
  unfold from_iso_datetime.
  destruct (re_match _iso8601_datetime_re (chars value)) as [g|] eqn:Hm;
    [|apply raises_only_raise].
  apply datetime_match_inv in Hm.
  destruct Hm as (Y & M & D & sep & h & mi & sec & tz & e & _ & _ & _ & _
                  & _ & _ & _ & _ & _ & _ & _ & LY & LM & LD & Lh & Lmi
                  & _).
  apply raises_only_bind; [eapply group_int_raises; eauto|intros y].
  apply raises_only_bind; [eapply group_int_raises; eauto|intros mo].
  apply raises_only_bind; [eapply group_int_raises; eauto|intros dd].
  apply raises_only_bind; [eapply group_int_raises; eauto|intros hh].
  apply raises_only_bind; [eapply group_int_raises; eauto|intros mm].
  apply raises_only_bind; [apply group_second_raises|intros ss].
  apply raises_only_bind; [apply group_microsecond_raises|intros us].
  apply raises_only_bind; [apply parse_tzinfo_raises|intros tzi].
  unfold mk_datetime.
  apply raises_only_bind; [apply check_date_fields_raises|intros _].
  apply raises_only_bind; [apply check_time_fields_raises|intros _].
  apply raises_only_ok.
Qed.

Lemma from_iso_time_raises (value : string) :
  raises_only ValueError (from_iso_time value).
Proof.
  unfold from_iso_time.
  destruct (re_match _iso8601_time_re (chars value)) as [g|] eqn:Hm;
    [|apply raises_only_raise].
  apply time_match_inv in Hm. destruct Hm as (h & mi & Lh & Lmi).
  apply raises_only_bind; [eapply group_int_raises; eauto|intros hh].
  apply raises_only_bind; [eapply group_int_raises; eauto|intros mm].
  apply raises_only_bind; [apply group_second_raises|intros ss].
  apply raises_only_bind; [apply group_microsecond_raises|intros us].
  unfold mk_time.
  apply raises_only_bind; [apply check_time_fields_raises|intros _].
  apply raises_only_ok.
Qed.

Lemma from_iso_date_raises (value : string) :
  raises_only ValueError (from_iso_date value).
Proof.
  unfold from_iso_date.
  destruct (re_match _iso8601_date_re (chars value)) as [g|] eqn:Hm;
    [|apply raises_only_raise].
  apply date_match_iff in Hm.
  destruct Hm as (Y & M & D & e & _ & _ & _ & _ & _ & ->).
  apply raises_only_bind;
    [eapply group_int_raises; reflexivity|intros y].
  apply raises_only_bind;
    [eapply group_int_raises; reflexivity|intros mo].
  apply raises_only_bind;
    [eapply group_int_raises; reflexivity|intros dd].
  unfold mk_date.
  apply raises_only_bind; [apply check_date_fields_raises|intros _].
  apply raises_only_ok.
Qed.

End RaiseFacts.

(** X19.  On a text, each of the three parsers raises nothing but
    [ValueError]: for a text that does not match, for a date or a time
    that does not exist, and for an offset of a day or more. *)
Theorem iso_parsers_raise_only_value_error (value : string) :
  (forall e, from_iso_datetime value = Raise e -> exn_class e = ValueError)
  /\ (forall e, from_iso_time value = Raise e -> exn_class e = ValueError)
  /\ (forall e, from_iso_date value = Raise e -> exn_class e = ValueError).
Proof.
  split; [|split].
  - apply from_iso_datetime_raises.
  - apply from_iso_time_raises.
  - apply from_iso_date_raises.
Qed.

(** ** Writing and reading back *)

Section WriteFacts.

Local Open Scope Z_scope.

Lemma digit_char_digit (k : Z) :
  0 <= k <= 9 ->
  is_digit (digit_char k) = true /\ digit_val (digit_char k) = k.
Proof.
  intros H.
  assert (E : k = 0 \/ k = 1 \/ k = 2 \/ k = 3 \/ k = 4 \/ k = 5 \/ k = 6
              \/ k = 7 \/ k = 8 \/ k = 9) by lia.
  repeat (destruct E as [->|E]; [split; reflexivity|]).
  subst k; split; reflexivity.
Qed.

Lemma fmt_all_digits (w : nat) :
  forall n, forallb is_digit (fmt w n) = true.
Proof.
  induction w as [|w IH]; intros n; cbn [fmt]; [reflexivity|].
  rewrite forallb_app, IH. cbn [forallb].
  destruct (digit_char_digit (n mod 10)) as [-> _]; [|reflexivity].
  pose proof (Z.mod_pos_bound n 10). lia.
Qed.

Lemma fmt_length (w : nat) : forall n, length (fmt w n) = w.
Proof.
  induction w as [|w IH]; intros n; cbn [fmt]; [reflexivity|].
  rewrite length_app, IH. cbn. lia.
Qed.

Lemma digits_val_fmt (w : nat) :
  forall n, 0 <= n < 10 ^ Z.of_nat w -> digits_val (fmt w n) = n.
Proof.
  induction w as [|w IH]; intros n H.
  - change (10 ^ Z.of_nat 0) with 1 in H. cbn. lia.
  - rewrite Nat2Z.inj_succ, Z.pow_succ_r in H by lia.
    cbn [fmt]. rewrite digits_val_snoc.
    rewrite IH by (Z.to_euclidean_division_equations; lia).
    destruct (digit_char_digit (n mod 10)) as [_ ->];
      Z.to_euclidean_division_equations; lia.
Qed.

Lemma fmt_run (w : nat) (n : Z) :
  forallb is_digit (fmt w n) = true /\ length (fmt w n) = w.
Proof. split; [apply fmt_all_digits|apply fmt_length]. Qed.

Lemma check_date_fields_inv (y m d : Z) :
  check_date_fields y m d = Ok tt ->
  1 <= y <= 9999 /\ 1 <= m <= 12 /\ 1 <= d <= 31.
Proof.
  unfold check_date_fields, between.
  destruct ((1 <=? y) && (y <=? 9999)) eqn:E1; cbn [negb];
    [|discriminate].
  destruct ((1 <=? m) && (m <=? 12)) eqn:E2; cbn [negb]; [|discriminate].
  destruct ((1 <=? d) && (d <=? days_in_month y m)) eqn:E3; cbn [negb];
    [|discriminate].
  intros _.
  apply andb_prop in E1 as [A1 B1], E2 as [A2 B2], E3 as [A3 B3].
  apply Z.leb_le in A1, B1, A2, B2, A3, B3.
  assert (days_in_month y m <= 31).
  { unfold days_in_month.
    repeat match goal with
           | |- context [if ?b then _ else _] => destruct b
           end; lia. }
  lia.
Qed.

Lemma check_time_fields_inv (h mi s us : Z) :
  check_time_fields h mi s us = Ok tt ->
  0 <= h <= 23 /\ 0 <= mi <= 59 /\ 0 <= s <= 59 /\ 0 <= us <= 999999.
Proof.
  unfold check_time_fields, between.
  destruct ((0 <=? h) && (h <=? 23)) eqn:E1; cbn [negb]; [|discriminate].
  destruct ((0 <=? mi) && (mi <=? 59)) eqn:E2; cbn [negb]; [|discriminate].
  destruct ((0 <=? s) && (s <=? 59)) eqn:E3; cbn [negb]; [|discriminate].
  destruct ((0 <=? us) && (us <=? 999999)) eqn:E4; cbn [negb];
    [|discriminate].
  intros _.
  apply andb_prop in E1 as [A1 B1], E2 as [A2 B2], E3 as [A3 B3],
    E4 as [A4 B4].
  apply Z.leb_le in A1, B1, A2, B2, A3, B3, A4, B4. lia.
Qed.

Lemma check_time_fields_zero (h mi s us : Z) :
  check_time_fields h mi s us = Ok tt ->
  check_time_fields h mi s 0 = Ok tt.
Proof.
  unfold check_time_fields.
  destruct (negb (between 0 h 23)); [discriminate|].
  destruct (negb (between 0 mi 59)); [discriminate|].
  destruct (negb (between 0 s 59)); [discriminate|].
  reflexivity.
Qed.

(** The pieces [isoformat] writes a valid datetime with. *)
Lemma valid_datetime_shaped (d : datetime) :
  valid_datetime d ->
  exists Y M D h mi S f o,
    d = shaped_datetime Y M D h mi S f o
    /\ (forallb is_digit Y = true /\ length Y = 4%nat)
    /\ two_digits M /\ two_digits D /\ two_digits h /\ two_digits mi
    /\ two_digits S /\ fraction_ok f /\ offset_ok o
    /\ match f with Some F => F <> chars "000000" | None => True end
    /\ match o with
       | Some (c, hh, mm) =>
           digits_val hh <= 23 /\ digits_val mm <= 59
           /\ (c = "-"%char -> digits_val hh * 60 + digits_val mm <> 0)
       | None => True
       end.
Proof.
  destruct d as [y mo dd h mi s us tz].
  unfold valid_datetime.
  cbn [year month day hour minute second microsecond tzinfo].
  intros (Hd & Ht & Hz).
  apply check_date_fields_inv in Hd.
  apply check_time_fields_inv in Ht.
  exists (fmt 4 y), (fmt 2 mo), (fmt 2 dd), (fmt 2 h), (fmt 2 mi), (fmt 2 s),
    (if us =? 0 then None else Some (fmt 6 us)).
  assert (P4 : 10 ^ Z.of_nat 4 = 10000) by reflexivity.
  assert (P2 : 10 ^ Z.of_nat 2 = 100) by reflexivity.
  assert (P6 : 10 ^ Z.of_nat 6 = 1000000) by reflexivity.
  assert (Hf : fraction_ok (if us =? 0 then None else Some (fmt 6 us)))
    by (destruct (us =? 0); cbn [fraction_ok]; auto using fmt_run).
  assert (Hf0 : match (if us =? 0 then None else Some (fmt 6 us)) with
                | Some F => F <> chars "000000"
                | None => True
                end).
  { destruct (us =? 0) eqn:E; [exact I|].
    intros K. apply (f_equal digits_val) in K.
    rewrite digits_val_fmt in K by lia.
    apply Z.eqb_neq in E. apply E. rewrite K. reflexivity. }
  assert (Hus : match (if us =? 0 then None else Some (fmt 6 us)) with
                | Some F => digits_val F
                | None => 0
                end = us).
  { destruct (us =? 0) eqn:E.
    - apply Z.eqb_eq in E. now rewrite E.
    - apply digits_val_fmt. lia. }
  destruct tz as [[off]|]; cbn [whole_minute_offset utcoffset] in Hz.
  - destruct Hz as (m & Hm & ->).
    exists (Some (if m <? 0 then "-"%char else "+"%char,
                  fmt 2 (Z.abs m / 60), fmt 2 (Z.abs m mod 60))).
    assert (Hhh : digits_val (fmt 2 (Z.abs m / 60)) = Z.abs m / 60)
      by (apply digits_val_fmt; Z.to_euclidean_division_equations; lia).
    assert (Hmm : digits_val (fmt 2 (Z.abs m mod 60)) = Z.abs m mod 60)
      by (apply digits_val_fmt; Z.to_euclidean_division_equations; lia).
    split.
    + unfold shaped_datetime, offset_value.
      rewrite !digits_val_fmt by lia. rewrite Hus, Hhh, Hmm.
      do 3 f_equal.
      destruct (m <? 0) eqn:E;
        [apply Z.ltb_lt in E; change (Ascii.eqb "-" "-") with true
        |apply Z.ltb_ge in E; change (Ascii.eqb "+" "-") with false];
        cbv iota; f_equal;
        Z.to_euclidean_division_equations; lia.
    + repeat split; auto using fmt_all_digits, fmt_length;
        try (destruct (m <? 0); reflexivity);
        rewrite ?Hhh, ?Hmm;
        try (Z.to_euclidean_division_equations; lia).
      intros Hc. destruct (m <? 0) eqn:E; [|discriminate].
      apply Z.ltb_lt in E. Z.to_euclidean_division_equations; lia.
  - exists None. split.
    + unfold shaped_datetime.
      rewrite !digits_val_fmt by lia. now rewrite Hus.
    + repeat split; auto using fmt_all_digits, fmt_length.
Qed.

End WriteFacts.

(** X20.  What [isoformat] writes, [from_iso_datetime] reads back: for
    every datetime that names a real date and time and whose offset, when
    it has one, is a whole number of minutes within a day of UTC,
    parsing the text that [isoformat] writes returns the same
    datetime. *)
Theorem isoformat_then_from_iso_datetime (d : datetime) :
  valid_datetime d -> from_iso_datetime (isoformat d) = Ok d.
Proof.
  intros H.
  pose proof H as (Hd & Ht & _).
  apply valid_datetime_shaped in H.
  destruct H as (Y & M & D & h & mi & S & f & o & -> & HY & HM & HD & Hh
                 & Hmi & HS & Hf & Ho & Hf0 & Ho0).
  unfold isoformat.
  rewrite (isoformat_shaped Y M D h mi S HY HM HD Hh Hmi HS f o Hf Ho Hf0 Ho0).
  apply from_iso_datetime_shaped; auto.
  - eapply check_time_fields_zero. exact Ht.
  - destruct o as [[[c hh] mm]|]; tauto.
Qed.

(** The theorem at the last second of 29 February 2024, a quarter of
    a second in, five and a half hours west of UTC. *)
Lemma isoformat_then_from_iso_datetime_witness :
  from_iso_datetime
    (isoformat
       {| year := 2024; month := 2; day := 29; hour := 23; minute := 59;
          second := 59; microsecond := 250000;
          tzinfo :=
            Some {| utcoffset := timedelta_of_seconds (-330 * 60) |} |})
  = Ok {| year := 2024; month := 2; day := 29; hour := 23; minute := 59;
          second := 59; microsecond := 250000;
          tzinfo :=
            Some {| utcoffset := timedelta_of_seconds (-330 * 60) |} |}.
Proof.
  apply isoformat_then_from_iso_datetime.
  split; [reflexivity|]. split; [reflexivity|].
  exists (-330)%Z. split; [lia|reflexivity].
Defined.

(** ** The texts [from_iso_datetime] accepts, completely *)

Section CompleteFacts.

Lemma run_alt_left (a b : re) (s : str) (g x : groups) (k : cont) :
  run a s g k = Some x -> run (Alt a b) s g k = Some x.
Proof. intros H. cbn [run]. now rewrite H. Qed.

Lemma run_alt_right (a b : re) (s : str) (g : groups) (k : cont) :
  run a s g k = None -> run (Alt a b) s g k = run b s g k.
Proof. intros H. cbn [run]. now rewrite H. Qed.

Lemma run_lit_none (c c' : ascii) (s : str) (g : groups) (k : cont) :
  Ascii.eqb c c' = false -> run (Lit c) (c' :: s) g k = None.
Proof. intros H. cbn [run]. now rewrite H. Qed.

Lemma consumed_cons_app (c : ascii) (w s : str) :
  consumed (c :: w ++ s) s = c :: w.
Proof. change (c :: w ++ s) with ((c :: w) ++ s). apply consumed_app. Qed.

Lemma zone_head (z : zone) (e : str) :
  zone_ok z -> end_or_newline e ->
  starts_with clock_char (zone_text z ++ e) = false.
Proof.
  assert (Hs : forall c, plus_or_minus c = true -> clock_char c = false)
    by (intros c H; destruct (sign_cases c H) as [-> | ->]; reflexivity).
  intros Hz He. destruct z as [| |c hh mm|c hh|c hh mm];
    cbn [zone_text zone_ok app starts_with] in *.
  - destruct He as [->| ->]; reflexivity.
  - reflexivity.
  - now apply Hs.
  - now apply Hs.
  - now apply Hs.
Qed.

(** After the clock: any designator, and possibly a final newline. *)
Lemma tail_k_zone (z : zone) (e : str) (g : groups) :
  zone_ok z -> end_or_newline e ->
  tail_k (zone_text z ++ e) g
  = Some (match zone_text z with
          | [] => g
          | _ :: _ => ("tzinfo", zone_text z) :: g
          end).
Proof.
  intros Hz He.
  assert (Hsign : forall c, plus_or_minus c = true ->
                            Ascii.eqb "Z" c = false)
    by (intros c H; destruct (sign_cases c H) as [-> | ->]; reflexivity).
  destruct z as [| |c hh mm|c hh|c hh mm];
    cbn [zone_text zone_ok chars list_ascii_of_string app] in *.
  - destruct He as [->| ->]; reflexivity.
  - unfold tail_k. rewrite run_seq. apply run_opt_take.
    unfold tzinfo_re. rewrite run_grp. apply run_alt_left.
    rewrite run_lit_hit, run_eos_hit by assumption.
    f_equal. f_equal. f_equal. exact (consumed_cons_app "Z" [] e).
  - destruct Hz as (Hc & [Hh Lh] & [Hm Lm]).
    unfold tail_k. rewrite run_seq. apply run_opt_take.
    unfold tzinfo_re. rewrite run_grp. cbn [seq].
    rewrite run_alt_right by (apply run_lit_none; auto).
    rewrite run_seq, (run_cls_hit _ _ _ _ _ Hc), run_seq.
    rewrite <- app_assoc.
    apply run_digits_complete; auto; try lia.
    apply run_opt_take. rewrite run_seq.
    apply run_opt_take. cbn [app]. rewrite run_lit_hit.
    apply run_digits_complete; auto using end_no_digit; try lia.
    rewrite run_eos_hit by assumption.
    replace (c :: hh ++ ":"%char :: mm ++ e)
      with (c :: (hh ++ ":"%char :: mm) ++ e)
      by (now rewrite <- app_assoc).
    now rewrite consumed_cons_app.
  - destruct Hz as (Hc & [Hh Lh]).
    unfold tail_k. rewrite run_seq. apply run_opt_take.
    unfold tzinfo_re. rewrite run_grp. cbn [seq].
    rewrite run_alt_right by (apply run_lit_none; auto).
    rewrite run_seq, (run_cls_hit _ _ _ _ _ Hc), run_seq.
    apply run_digits_complete; auto using end_no_digit; try lia.
    rewrite run_opt_skip by (destruct He as [->| ->]; reflexivity).
    rewrite run_eos_hit by assumption.
    now rewrite consumed_cons_app.
  - destruct Hz as (Hc & [Hh Lh] & [Hm Lm]).
    unfold tail_k. rewrite run_seq. apply run_opt_take.
    unfold tzinfo_re. rewrite run_grp. cbn [seq].
    rewrite run_alt_right by (apply run_lit_none; auto).
    rewrite run_seq, (run_cls_hit _ _ _ _ _ Hc), run_seq.
    rewrite <- app_assoc.
    apply run_digits_complete; auto; try lia.
    apply run_opt_take. rewrite run_seq.
    destruct mm as [|m1 mm]; [cbn in Lm; lia|].
    cbn [forallb] in Hm. apply andb_prop in Hm as [Hm1 Hm2].
    rewrite run_opt_skip
      by (cbn [app]; apply run_lit_none, digit_not_sym; auto).
    apply run_digits_complete; auto using end_no_digit; try lia.
    + cbn [forallb]. now rewrite Hm1, Hm2.
    + rewrite run_eos_hit by assumption.
      replace (c :: hh ++ (m1 :: mm) ++ e)
        with (c :: (hh ++ m1 :: mm) ++ e)
        by (now rewrite <- app_assoc).
      now rewrite consumed_cons_app.
Qed.

(** The first six digits of a fraction are captured and the others, six
    at most, are skipped. *)
Lemma fraction_complete (k : cont) (F tail : str) (g x : groups) :
  forallb is_digit F = true -> 1 <= length F <= 12 ->
  take_while is_digit tail = [] ->
  k tail (("microsecond", firstn 6 F) :: g) = Some x ->
  run (Seq (Grp "microsecond" (Rep 1 6 digit)) (Rep 0 6 digit))
      (F ++ tail) g k
  = Some x.
Proof.
  intros HF LF Ht Hk.
  rewrite run_seq.
  rewrite <- (firstn_skipn 6 F) at 1. rewrite <- app_assoc.
  apply run_grp_digits_complete.
  - now apply forallb_firstn.
  - rewrite length_firstn. lia.
  - destruct (Nat.le_gt_cases 6 (length F)) as [L|L].
    + left. rewrite length_firstn. lia.
    + right. rewrite skipn_all2 by lia. exact Ht.
  - apply run_digits_complete.
    + now apply forallb_skipn.
    + rewrite length_skipn. lia.
    + now right.
    + exact Hk.
Qed.

End CompleteFacts.

Section AcceptsFacts.

Lemma sep_not_digit (sep : ascii) :
  T_or_space sep = true -> is_digit sep = false.
Proof.
  unfold T_or_space. intros H.
  apply orb_prop in H as [H|H]; apply Ascii.eqb_eq in H; subst sep;
    reflexivity.
Qed.

(** The datetime pattern matches every text of the shape it describes,
    with these captures. *)
Lemma datetime_match_complete (Y M D : str) (sep : ascii) (h mi : str)
      (sec : option (str * option str)) (z : zone) (e : str) :
  digit_run 4 4 Y -> digit_run 1 2 M -> digit_run 1 2 D ->
  T_or_space sep = true ->
  digit_run 1 2 h -> digit_run 1 2 mi ->
  seconds_ok sec -> fraction_bound sec ->
  zone_ok z -> end_or_newline e ->
  exists g,
    re_match _iso8601_datetime_re
      (Y ++ "-"%char :: M ++ "-"%char :: D ++ sep :: h
         ++ ":"%char :: mi ++ seconds_text sec ++ zone_text z ++ e)
    = Some g
    /\ lookup "year" g = Some Y /\ lookup "month" g = Some M
    /\ lookup "day" g = Some D /\ lookup "hour" g = Some h
    /\ lookup "minute" g = Some mi
    /\ lookup "second" g = option_map fst sec
    /\ lookup "microsecond" g
       = match sec with
         | Some (_, Some f) => Some (firstn 6 f)
         | _ => None
         end
    /\ lookup "tzinfo" g
       = match zone_text z with
         | [] => None
         | _ :: _ => Some (zone_text z)
         end.
Proof.
  intros [HY LY] [HM LM] [HD LD] Hsep [Hh Lh] [Hmi Lmi] Hsec Hbound Hz He.
  destruct (non_clock_head _ (zone_head z e Hz He))
    as (Tdigit & Tcolon & Tdot).
  pose proof (tail_k_zone z e) as Htail.
  assert (Hprefix : forall s5 x,
             take_while is_digit s5 = [] ->
             run (opt seconds_re) s5
                 [("minute", mi); ("hour", h); ("day", D); ("month", M);
                  ("year", Y)] tail_k = Some x ->
             re_match _iso8601_datetime_re
               (Y ++ "-"%char :: M ++ "-"%char :: D ++ sep :: h
                  ++ ":"%char :: mi ++ s5) = Some x).
  { intros s5 x H5 Hrun.
    unfold re_match. rewrite datetime_re_unfold.
    rewrite run_seq. apply run_grp_digits_complete; auto; try lia.
    rewrite run_seq, run_lit_hit.
    rewrite run_seq. apply run_grp_digits_complete; auto.
    rewrite run_seq, run_lit_hit.
    rewrite run_seq. apply run_grp_digits_complete; auto.
    { right. cbn [take_while]. now rewrite (sep_not_digit _ Hsep). }
    rewrite run_seq, run_cls_hit by assumption.
    rewrite run_seq. apply run_grp_digits_complete; auto.
    rewrite run_seq, run_lit_hit.
    rewrite run_seq.
    apply run_grp_digits_complete; [exact Hmi|exact Lmi|now right|].
    rewrite run_seq. exact Hrun. }
  destruct sec as [[S [F|]]|];
    cbn [seconds_text seconds_ok fraction_bound chars list_ascii_of_string
         app option_map fst] in *.
  - destruct Hsec as [[HS LS] [HF LF]].
    eexists. split.
    { rewrite <- !app_assoc. cbn [app]. rewrite <- ?app_assoc.
      apply Hprefix; [reflexivity|].
      apply run_opt_take. unfold seconds_re. cbn [seq].
      rewrite run_seq, run_lit_hit.
      rewrite run_seq.
      apply run_grp_digits_complete; [exact HS|exact LS|now right|].
      apply run_opt_take. unfold fraction_re. cbn [seq].
      rewrite run_seq, run_lit_hit.
      apply fraction_complete;
        [exact HF|lia|exact Tdigit|apply Htail; assumption]. }
    destruct (zone_text z); repeat split; reflexivity.
  - destruct Hsec as [[HS LS] _].
    eexists. split.
    { rewrite <- ?app_assoc. cbn [app].
      apply Hprefix; [reflexivity|].
      apply run_opt_take. unfold seconds_re. cbn [seq].
      rewrite run_seq, run_lit_hit.
      rewrite run_seq.
      apply run_grp_digits_complete; [exact HS|exact LS|now right|].
      rewrite run_opt_skip by (apply run_lit_miss; exact Tdot).
      apply Htail; assumption. }
    destruct (zone_text z); repeat split; reflexivity.
  - eexists. split.
    { apply Hprefix; [exact Tdigit|].
      rewrite run_opt_skip by (apply run_lit_miss; exact Tcolon).
      apply Htail; assumption. }
    destruct (zone_text z); repeat split; reflexivity.
Qed.

(** What the code computes from the capture of a designator. *)
Lemma parse_tzinfo_zone (g : groups) (z : zone) :
  zone_ok z ->
  lookup "tzinfo" g
  = match zone_text z with [] => None | _ :: _ => Some (zone_text z) end ->
  parse_tzinfo g = zone_timezone z.
Proof.
  intros Hz L.
  destruct (parse_tzinfo_forms g (zone_text z) L)
    as (F0 & FZ & F1 & F2 & F3).
  destruct z as [| |c hh mm|c hh|c hh mm];
    cbn [zone_ok zone_text] in *.
  - exact (F0 eq_refl).
  - exact (FZ eq_refl).
  - destruct Hz as (Hc & Hh & Hm). exact (F1 c hh mm Hc Hh Hm eq_refl).
  - destruct Hz as (Hc & Hh). exact (F2 c hh Hc Hh eq_refl).
  - destruct Hz as (Hc & Hh & Hm). exact (F3 c hh mm Hc Hh Hm eq_refl).
Qed.

End AcceptsFacts.

(** X21.  [from_iso_datetime] accepts every text of 8-bit characters
    made of a year of four digits, a month and a day of one or two digits, [T] or a blank, an
    hour and a minute of one or two digits, then possibly the seconds
    with possibly a fraction of twelve digits at most, possibly a
    designator, and possibly one final newline.  Its result is the
    datetime of these numbers with the timezone of the designator, or
    the [ValueError] of [timezone] or of [datetime] when the offset is a
    day or more or the numbers name no date and time. *)
Theorem from_iso_datetime_accepts
        (Y M D : str) (sep : ascii) (h mi : str)
        (sec : option (str * option str)) (z : zone) (e : str) :
  digit_run 4 4 Y -> digit_run 1 2 M -> digit_run 1 2 D ->
  T_or_space sep = true ->
  digit_run 1 2 h -> digit_run 1 2 mi ->
  seconds_ok sec -> fraction_bound sec ->
  zone_ok z -> end_or_newline e ->
  from_iso_datetime
    (text (Y ++ chars "-" ++ M ++ chars "-" ++ D ++ sep :: h
             ++ chars ":" ++ mi ++ seconds_text sec ++ zone_text z ++ e))
  = (tz <- zone_timezone z ;;
     mk_datetime (digits_val Y) (digits_val M) (digits_val D)
                 (digits_val h) (digits_val mi)
                 (second_of sec) (microsecond_of sec) tz).
Proof.
  intros RY RM RD Hsep Rh Rmi Rsec Hbound Hz He.
  unfold from_iso_datetime, chars, text.
  rewrite list_ascii_of_string_of_list_ascii.
  destruct (datetime_match_complete Y M D sep h mi sec z e
              RY RM RD Hsep Rh Rmi Rsec Hbound Hz He)
    as (g & Hm & LY & LM & LD & Lh & Lmi & Ls & Lus & Ltz).
  cbn [list_ascii_of_string app]. rewrite Hm.
  rewrite (group_int_run _ _ _ _ _ LY RY).
  rewrite (group_int_run _ _ _ _ _ LM RM).
  rewrite (group_int_run _ _ _ _ _ LD RD).
  rewrite (group_int_run _ _ _ _ _ Lh Rh).
  rewrite (group_int_run _ _ _ _ _ Lmi Rmi).
  rewrite (group_second_of _ _ Ls Rsec).
  rewrite (group_microsecond_of _ _ Lus Rsec).
  rewrite (parse_tzinfo_zone _ _ Hz Ltz).
  reflexivity.
Qed.

(** The theorem at ["2024-1-5 7:03:09.1234567-0005" + newline]: the
    seventh digit of the fraction is dropped and the designator [-0005]
    is five hours west. *)
Lemma from_iso_datetime_accepts_witness :
  from_iso_datetime
    (text (chars "2024-1-5 7:03:09.1234567-0005" ++ ["010"%char]))
  = Ok {| year := 2024; month := 1; day := 5; hour := 7; minute := 3;
          second := 9; microsecond := 123456;
          tzinfo :=
            Some {| utcoffset := timedelta_of_seconds (-18000) |} |}.
Proof.
  refine (from_iso_datetime_accepts
            (chars "2024") (chars "1") (chars "5") " " (chars "7")
            (chars "03") (Some (chars "09", Some (chars "1234567")))
            (PackedOffset "-" (chars "00") (chars "05")) ["010"%char]
            _ _ _ eq_refl _ _ _ _ _ _);
    try (right; reflexivity);
    repeat split; try reflexivity; cbn; lia.
Defined.

(** ** [set_value] on a dict, case by case *)

Section CaseFacts.

(** Following a path from a dict either goes through, or stops at a dict
    where the next segment is missing, or where it is bound to something
    that is not a dict. *)
Lemma descend_cases (st : store) :
  forall (rest : list string) (dct : addr) (d : items),
    nth_error st dct = Some (ODict d) ->
    (exists a d', descend st dct rest = Some a
                  /\ nth_error st a = Some (ODict d'))
    \/ (exists pre p post a d',
           rest = pre ++ p :: post
           /\ descend st dct pre = Some a
           /\ nth_error st a = Some (ODict d')
           /\ (dict_get p d' = None
               \/ exists x, dict_get p d' = Some x /\ is_dict st x = false)).
Proof.
  induction rest as [|p rest IH]; intros dct d Hd.
  - left. exists dct, d. split; [reflexivity|assumption].
  - destruct (dict_get p d) as [x|] eqn:Hp.
    + destruct (is_dict st x) eqn:Hx.
      * destruct x as [| | | | |b]; try discriminate.
        assert (Hb : exists db, nth_error st b = Some (ODict db)).
        { unfold is_dict in Hx.
          destruct (nth_error st b) as [[db|?|? ?]|]; try discriminate.
          eauto. }
        destruct Hb as [db Hb].
        assert (Hstep : forall l, descend st dct (p :: l) = descend st b l)
          by (intros l; cbn [descend]; now rewrite Hd, Hp, Hx).
        destruct (IH b db Hb)
          as [(a & d' & Ha & Hd')
             |(pre & p' & post & a & d' & -> & Ha & Hd' & Hc)].
        -- left. exists a, d'. now rewrite Hstep.
        -- right. exists (p :: pre), p', post, a, d'.
           rewrite Hstep. auto.
      * right. exists [], p, rest, dct, d. repeat split; eauto.
    + right. exists [], p, rest, dct, d. repeat split; auto.
Qed.

(** A segment that is bound to something that is not a dict, with more
    segments after it, is a conflict. *)
Lemma set_value_conflict (st : store) (dct : addr) (key : string)
      (v : value) (pre post : list string) (p : string) (a : addr)
      (d : items) (x : value) :
  key_parts key = pre ++ p :: post ->
  post <> [] ->
  descend st dct pre = Some a ->
  nth_error st a = Some (ODict d) ->
  dict_get p d = Some x ->
  is_dict st x = false ->
  set_value st dct key v
  = (st, Raise (Exn ValueError
       ("String path conflicts with current dictionary structure at "
        ++ String.concat "." (pre ++ [p])))).
Proof.
  intros Hparts Hpost Hdesc Ha Hp Hx.
  unfold set_value.
  rewrite key_parts_long.
  2:{ rewrite Hparts, length_app. destruct post; [congruence|simpl; lia]. }
  cbn [negb]. rewrite Hparts.
  rewrite removelast_app by discriminate.
  assert (R : removelast (p :: post) = p :: removelast post)
    by (destruct post; [congruence|reflexivity]).
  rewrite R.
  rewrite (walk_conflict _ _ _ _ _ _ _ Ha Hp Hx pre 0 dct Hdesc).
  unfold conflict. cbn [Nat.add].
  replace (S (length pre)) with (length pre + 1) by lia.
  rewrite firstn_app_2. reflexivity.
Qed.

Lemma key_parts_not_nil (key : string) : key_parts key <> [].
Proof.
  unfold key_parts. intros H. apply map_eq_nil in H.
  now apply split_not_nil in H.
Qed.

End CaseFacts.

(** X22.  On a dict, [set_value] does one of three things, whatever the
    key: it assigns the last segment in place, in the dict that the
    segments before it lead to; or, from the first segment that is
    missing, it creates the dicts of the path and puts the value in the
    last one; or it raises the [ValueError] of a conflict, at the first
    segment with others after it that is bound to something that is not
    a dict, and changes nothing. *)
Theorem set_value_on_dict_cases
        (st : store) (dct : addr) (d : items) (key : string) (v : value) :
  nth_error st dct = Some (ODict d) ->
  (exists pre p a d',
      key_parts key = pre ++ [p]
      /\ descend st dct pre = Some a
      /\ nth_error st a = Some (ODict d')
      /\ set_value st dct key v
         = (store_set st a (ODict (dict_set p v d')), Ok tt))
  \/ (exists pre p q more a d',
         key_parts key = pre ++ p :: q :: more
         /\ descend st dct pre = Some a
         /\ nth_error st a = Some (ODict d')
         /\ dict_get p d' = None
         /\ set_value st dct key v
            = (store_set st a (ODict (d' ++ [(p, VRef (length st))]))
                 ++ nest (length st) q more v,
               Ok tt))
  \/ (exists pre p post a d' x,
         key_parts key = pre ++ p :: post
         /\ post <> []
         /\ descend st dct pre = Some a
         /\ nth_error st a = Some (ODict d')
         /\ dict_get p d' = Some x
         /\ is_dict st x = false
         /\ set_value st dct key v
            = (st, Raise (Exn ValueError
                 ("String path conflicts with current dictionary structure at "
                  ++ String.concat "." (pre ++ [p]))))).
Proof.
  intros Hd.
  pose proof (app_removelast_last "" (key_parts_not_nil key)) as Hparts.
  set (parts := key_parts key) in *.
  destruct (descend_cases st (removelast parts) dct d Hd)
    as [(a & d' & Ha & Hd')
       |(pre & p & post & a & d' & Hrest & Ha & Hd' & [Hp|(x & Hp & Hx)])].
  - left. exists (removelast parts), (last parts ""), a, d'.
    repeat split; auto.
    now apply (set_value_in_place st dct key v (removelast parts)).
  - right; left.
    rewrite Hrest, <- app_assoc in Hparts. cbn [app] in Hparts.
    destruct (post ++ [last parts ""]) as [|q more] eqn:E;
      [destruct post; discriminate|].
    exists pre, p, q, more, a, d'. repeat split; auto.
    now apply (set_value_extends st dct key v pre p q more a d').
  - right; right.
    rewrite Hrest, <- app_assoc in Hparts. cbn [app] in Hparts.
    exists pre, p, (post ++ [last parts ""]), a, d', x.
    assert (Hne : post ++ [last parts ""] <> [])
      by (destruct post; discriminate).
    repeat split; auto.
    now apply (set_value_conflict st dct key v pre
                 (post ++ [last parts ""]) p a d' x).
Qed.

(** The theorem at [set_value({"a": {"x": 1}}, "a.x.y", 2)], the third
    case: the store is unchanged and the message names [a.x]. *)
Lemma set_value_on_dict_cases_witness :
  set_value [ODict [("a", VRef 1)]; ODict [("x", VInt 1)]] 0 "a.x.y"
            (VInt 2)
  = ([ODict [("a", VRef 1)]; ODict [("x", VInt 1)]],
     Raise (Exn ValueError
       "String path conflicts with current dictionary structure at a.x")).
Proof.
  destruct (set_value_on_dict_cases
              [ODict [("a", VRef 1)]; ODict [("x", VInt 1)]] 0
              [("a", VRef 1)] "a.x.y" (VInt 2) eq_refl)
    as [(pre & p & a & d' & _ & _ & _ & E)
       |[(pre & p & q & more & a & d' & _ & _ & _ & _ & E)
        |(pre & p & post & a & d' & x & _ & _ & _ & _ & _ & _ & E)]];
    reflexivity.
Defined.
